(** * Green Sprint: QR-code resolution and campaign proximity search

    A shallow embedding of pieces of the Green Sprint browser
    application and the properties stated about them:

    - [Geo]: [CampaignService.getNearby] and
      [CampaignService.calculateDistance] (Supabase client module),
    - [Scanner]: [QRScannerModule.parseQRCode] and
      [QRScannerModule.handleScan] (QR scanner module),
    - [ScannerCallbacks], [Lifecycle]: [handleScan] with a callback that
      may throw, [startScanning] and [switchCamera],
    - [Achievements], [QRCodes]: [AchievementService.award] and
      [checkAndAward], [QRCodeService.recordScan],
    - [Registration]: the steps of [TreeRegistrationHandler] and
      [submitTree].

    JavaScript numbers of the geographic code are embedded as real numbers
    ([R]): what is proved about distances and boxes is proved of the
    formulas over the reals, not of their rounding in binary64.  The
    values flowing through the scanner are embedded as a data type of
    JavaScript values. *)

From Stdlib Require Import Reals Lra Lia ZArith List String Ascii Bool.
From Stdlib Require Import Sorting.Sorted Sorting.Permutation.
From Stdlib Require Import DecimalString.
Import ListNotations.

(* ================================================================== *)
(** * Campaign proximity search *)
(* ================================================================== *)

Module Geo.

Local Open Scope R_scope.

(** A row of the [campaigns] table, restricted to the columns the search
    reads or writes.  A numeric column is [None] when the row carries
    [null] there.  [distance] is the property [getNearby] adds. *)
Record Campaign : Type := mkCampaign {
  campaign_id : nat;
  latitude : option R;
  longitude : option R;
  distance : option R
}.

(** The four range conditions [.gte('latitude', _) .lte('latitude', _)
    .gte('longitude', _) .lte('longitude', _)] sent with the query. *)
Record Box : Type := mkBox {
  lat_gte : R;
  lat_lte : R;
  lng_gte : R;
  lng_lte : R
}.

(** The [{ data, error }] object a store query resolves to. *)
Record Response : Type := mkResponse {
  data : option (list Campaign);
  error : option string
}.

(** [Math.atan2 y x] on the reals. *)
Definition atan2 (y x : R) : R :=
  match total_order_T x 0 with
  | inleft (left _) (* x < 0 *) =>
      if Rle_dec 0 y then atan (y / x) + PI else atan (y / x) - PI
  | inleft (right _) (* x = 0 *) =>
      match total_order_T y 0 with
      | inleft (left _) => - (PI / 2)
      | inleft (right _) => 0
      | inright _ => PI / 2
      end
  | inright _ (* 0 < x *) => atan (y / x)
  end.

(** [calculateDistance(lat1, lon1, lat2, lon2)]: the haversine formula. *)
Definition calculateDistance (lat1 lon1 lat2 lon2 : R) : R :=
  let R' := 6371 in
  let dLat := (lat2 - lat1) * PI / 180 in
  let dLon := (lon2 - lon1) * PI / 180 in
  let a := sin (dLat / 2) * sin (dLat / 2) +
           cos (lat1 * PI / 180) * cos (lat2 * PI / 180) *
           sin (dLon / 2) * sin (dLon / 2) in
  let c := 2 * atan2 (sqrt a) (sqrt (1 - a)) in
  R' * c.

(** [const latDiff = radiusKm / 111]. *)
Definition latDiff (radiusKm : R) : R := radiusKm / 111.

(** The divisor of [lngDiff]: [111 * Math.cos(lat * Math.PI / 180)].
    (Over the reals it vanishes at latitude 90 and -90; the
    floating-point cosine does not, as no number there is a quarter
    turn.) *)
Definition lngDivisor (lat : R) : R := 111 * cos (lat * PI / 180).

(** [const lngDiff = radiusKm / (111 * Math.cos(lat * Math.PI / 180))]. *)
Definition lngDiff (lat radiusKm : R) : R := radiusKm / lngDivisor lat.

(** The bounding box of the initial filter. *)
Definition boundingBox (lat lng radiusKm : R) : Box :=
  {| lat_gte := lat - latDiff radiusKm;
     lat_lte := lat + latDiff radiusKm;
     lng_gte := lng - lngDiff lat radiusKm;
     lng_lte := lng + lngDiff lat radiusKm |}.

(** JavaScript truthiness of a numeric column: [null] and [0] are falsy. *)
Definition truthy_num (x : option R) : bool :=
  match x with
  | None => false
  | Some r => if Req_dec_T r 0 then false else true
  end.

(** The callback of [(data || []).filter(c => ...)]: [Some] of the row
    with its [distance] property assigned when the row is kept, [None]
    when it is dropped.  (A row dropped for its distance has the property
    assigned as well, but it is not part of the result.) *)
Definition keep (lat lng radiusKm : R) (c : Campaign) : option Campaign :=
  if negb (truthy_num (latitude c)) || negb (truthy_num (longitude c))
  then None
  else
    match latitude c, longitude c with
    | Some clat, Some clng =>
        let d := calculateDistance lat lng clat clng in
        if Rle_dec d radiusKm
        then Some {| campaign_id := campaign_id c;
                     latitude := latitude c;
                     longitude := longitude c;
                     distance := Some d |}
        else None
    | _, _ => None
    end.

Fixpoint filter_keep (lat lng radiusKm : R) (l : list Campaign)
  : list Campaign :=
  match l with
  | [] => []
  | c :: l' =>
      match keep lat lng radiusKm c with
      | Some c' => c' :: filter_keep lat lng radiusKm l'
      | None => filter_keep lat lng radiusKm l'
      end
  end.

(** The [distance] property as the comparator reads it.  Every row that
    reaches the sort had it assigned by [keep]. *)
Definition dist (c : Campaign) : R :=
  match distance c with Some d => d | None => 0 end.

(** [filtered.sort((a, b) => a.distance - b.distance)].  The language
    requires the sort to be stable; with a comparator that is a total
    preorder every stable sort returns the same array, here computed by
    insertion from the right. *)
Fixpoint insert_by_distance (c : Campaign) (l : list Campaign)
  : list Campaign :=
  match l with
  | [] => [c]
  | c' :: l' =>
      if Rle_dec (dist c - dist c') 0
      then c :: c' :: l'
      else c' :: insert_by_distance c l'
  end.

Fixpoint sort_by_distance (l : list Campaign) : list Campaign :=
  match l with
  | [] => []
  | c :: l' => insert_by_distance c (sort_by_distance l')
  end.

(** [getNearby(lat, lng, radiusKm)].  [query] is the store: it receives
    the range conditions and resolves to a response.  A truthy [error] is
    thrown ([inl]); a [null] [data] counts as the empty array. *)
Definition getNearby (query : Box -> Response) (lat lng radiusKm : R)
  : string + list Campaign :=
  let r := query (boundingBox lat lng radiusKm) in
  match error r with
  | Some e => inl e
  | None =>
      let rows := match data r with Some l => l | None => [] end in
      let filtered := filter_keep lat lng radiusKm rows in
      inr (sort_by_distance filtered)
  end.

(** Ascending order of the [distance] property. *)
Definition le_dist (a b : Campaign) : Prop := dist a <= dist b.

(** The row [c] with its coordinates missing. *)
Definition without_coordinates (c : Campaign) : Campaign :=
  {| campaign_id := campaign_id c; latitude := None; longitude := None;
     distance := distance c |}.

(** A store whose query succeeds with the given rows. *)
Definition store_returning (rows : list Campaign) : Box -> Response :=
  fun _ => {| data := Some rows; error := None |}.

(** What [getNearby] promises of a row it returns, for center
    [(lat, lng)] and radius [radiusKm]: both coordinates are there, the
    [distance] property is the haversine distance from the center, and
    that distance does not exceed the radius. *)
Definition within (lat lng radiusKm : R) (c : Campaign) : Prop :=
  exists clat clng,
    latitude c = Some clat /\ longitude c = Some clng /\
    distance c = Some (calculateDistance lat lng clat clng) /\
    calculateDistance lat lng clat clng <= radiusKm.

End Geo.

(* ================================================================== *)
(** * JavaScript values and string operations used by the scanner *)
(* ================================================================== *)

Module Js.

Local Open Scope string_scope.
Local Open Scope Z_scope.

(** JavaScript values as they come out of [JSON.parse], property reads and
    [URLSearchParams.get].  A number carries the decimal literal it was
    read from, [VNum m e] standing for [m * 10^e].  An object is the list
    of its own properties in creation order, each key once. *)
#[warnings="-register-all"] Inductive jsval : Type :=
| VUndefined
| VNull
| VBool (b : bool)
| VNum (m e : Z)
| VStr (s : string)
| VArr (elems : list jsval)
| VObj (props : list (string * jsval)).

(** Whether the binary64 number nearest to [m * 10^e] is zero: the literal
    is zero, or it lies within half of the least subnormal, [2^-1075]. *)
Definition num_is_zero (m e : Z) : bool :=
  (m =? 0) || ((e <? 0) && (Z.abs m * 2 ^ 1075 <=? 10 ^ (- e))).

(** [ToBoolean]. *)
Definition truthy (v : jsval) : bool :=
  match v with
  | VUndefined => false
  | VNull => false
  | VBool b => b
  | VNum m e => negb (num_is_zero m e)
  | VStr s => negb (s =? EmptyString)%string
  | VArr _ => true
  | VObj _ => true
  end.

(** Whether a value is a string with at least one character. *)
Definition is_nonempty_string (v : jsval) : bool :=
  match v with
  | VStr s => negb (s =? EmptyString)%string
  | _ => false
  end.

(** [a || b]. *)
Definition js_or (a b : jsval) : jsval := if truthy a then a else b.

(** Reading an own property from a property list. *)
Fixpoint obj_get (props : list (string * jsval)) (key : string) : jsval :=
  match props with
  | [] => VUndefined
  | (k, v) :: rest => if (k =? key)%string then v else obj_get rest key
  end.

(** Defining a property: an existing key keeps its place. *)
Fixpoint obj_set (props : list (string * jsval)) (key : string) (v : jsval)
  : list (string * jsval) :=
  match props with
  | [] => [(key, v)]
  | (k, v') :: rest =>
      if (k =? key)%string then (k, v) :: rest
      else (k, v') :: obj_set rest key v
  end.

(** [v.key] for one of the keys this program reads ([id], [qr_code_id],
    [tree_id]; none of them exists on a built-in prototype): a
    [TypeError] on [null] and [undefined], [undefined] on any other value
    that is not an object with that own property. *)
Definition get_prop (v : jsval) (key : string) : string + jsval :=
  match v with
  | VUndefined => inl ("Cannot read properties of undefined (reading '" ++ key ++ "')")
  | VNull => inl ("Cannot read properties of null (reading '" ++ key ++ "')")
  | VObj props => inr (obj_get props key)
  | _ => inr VUndefined
  end.

(** [v?.key] for the same keys. *)
Definition opt_prop (v : jsval) (key : string) : jsval :=
  match v with
  | VObj props => obj_get props key
  | _ => VUndefined
  end.

(** [s.startsWith(p)]. *)
Definition startsWith (s p : string) : bool := String.prefix p s.

(** [s.includes(p)]. *)
Fixpoint includes (s p : string) : bool :=
  String.prefix p s ||
  match s with
  | EmptyString => false
  | String _ s' => includes s' p
  end.

(** [s.split(sep)] for a one-character separator: [cur] is the segment
    being read, kept in reverse. *)
Fixpoint split_from (sep : ascii) (cur : list ascii) (s : string)
  : list string :=
  match s with
  | EmptyString => [string_of_list_ascii (rev cur)]
  | String c s' =>
      if Ascii.eqb c sep
      then string_of_list_ascii (rev cur) :: split_from sep [] s'
      else split_from sep (c :: cur) s'
  end.

Definition split (s : string) (sep : ascii) : list string :=
  split_from sep [] s.

(** [arr.pop()] as a value: the last element, [undefined] on []. *)
Definition pop (arr : list string) : jsval :=
  match rev arr with
  | [] => VUndefined
  | x :: _ => VStr x
  end.

(** A character of the class [[0-9a-f]] under the flag [i]. *)
Definition is_hex (c : ascii) : bool :=
  let n := nat_of_ascii c in
  ((48 <=? n) && (n <=? 57) || (97 <=? n) && (n <=? 102) ||
   (65 <=? n) && (n <=? 70))%nat.

(** [[0-9a-f]{n}] at the head of [s]: the rest of [s] on a match. *)
Fixpoint hex_run (n : nat) (s : string) : option string :=
  match n with
  | O => Some s
  | S n' =>
      match s with
      | String c s' => if is_hex c then hex_run n' s' else None
      | EmptyString => None
      end
  end.

(** A literal [-] at the head of [s]. *)
Definition dash (s : string) : option string :=
  match s with
  | String c s' => if Ascii.eqb c "-"%char then Some s' else None
  | EmptyString => None
  end.

Definition and_then {A B : Type} (o : option A) (f : A -> option B)
  : option B :=
  match o with Some a => f a | None => None end.

(** Whether [s] matches
    [/^[0-9a-f]{8}-[0-9a-f]{4}-[0-9a-f]{4}-[0-9a-f]{4}-[0-9a-f]{12}$/i]. *)
Definition match_uuid (s : string) : bool :=
  match
    and_then (hex_run 8 s) (fun s1 =>
    and_then (dash s1) (fun s2 =>
    and_then (hex_run 4 s2) (fun s3 =>
    and_then (dash s3) (fun s4 =>
    and_then (hex_run 4 s4) (fun s5 =>
    and_then (dash s5) (fun s6 =>
    and_then (hex_run 4 s6) (fun s7 =>
    and_then (dash s7) (fun s8 =>
    hex_run 12 s8))))))))
  with
  | Some EmptyString => true
  | _ => false
  end.

(** What the program reads from a [URL] object. *)
Record URL : Type := mkURL {
  searchParams : list (string * string);
  pathname : string
}.

(** [url.searchParams.get(name)]: the first value under [name], else
    [null]. *)
Fixpoint searchParams_get (params : list (string * string)) (name : string)
  : jsval :=
  match params with
  | [] => VNull
  | (k, v) :: rest =>
      if (k =? name)%string then VStr v else searchParams_get rest name
  end.

End Js.

(* ================================================================== *)
(** * Reference decoders

    Executable stand-ins for the two built-ins the scanner calls, used to
    run it on concrete inputs.  [JSON_parse] follows the JSON grammar
    (strings are kept as UTF-8 bytes, an escape [\uXXXX] is written out as
    the UTF-8 form of that code unit); its one message stands for whatever
    text the engine puts in its [SyntaxError].  [URL_new] covers absolute
    [http:] and [https:] URLs written with [//] and a non-empty authority,
    without host validation or path normalisation; on anything else it
    answers as [new URL] does on a string without a scheme, by throwing. *)
(* ================================================================== *)

Module Builtins.

Import Js.
Local Open Scope string_scope.

Definition syntax_error : string := "Unexpected token in JSON".

Definition is_ws (c : ascii) : bool :=
  let n := nat_of_ascii c in
  ((n =? 32) || (n =? 9) || (n =? 10) || (n =? 13))%nat.

Fixpoint skip_ws (s : string) : string :=
  match s with
  | String c s' => if is_ws c then skip_ws s' else s
  | EmptyString => s
  end.

Definition is_digit (c : ascii) : bool :=
  let n := nat_of_ascii c in ((48 <=? n) && (n <=? 57))%nat.

Definition hex_value (c : ascii) : nat :=
  let n := nat_of_ascii c in
  if (n <=? 57)%nat then n - 48
  else if (n <=? 70)%nat then n - 55
  else n - 87.

(** UTF-8 form of a 16-bit code unit, in reverse. *)
Definition utf8_rev (n : nat) : list ascii :=
  if (n <? 128)%nat then [ascii_of_nat n]
  else if (n <? 2048)%nat then
    [ascii_of_nat (128 + n mod 64); ascii_of_nat (192 + n / 64)]
  else
    [ascii_of_nat (128 + n mod 64); ascii_of_nat (128 + (n / 64) mod 64);
     ascii_of_nat (224 + n / 4096)].

(** The double-quote and the backslash characters. *)
Definition dquote : ascii := ascii_of_nat 34.

Definition backslash : ascii := ascii_of_nat 92.

Definition simple_escape (c : ascii) : option ascii :=
  if Ascii.eqb c dquote then Some dquote else
  if Ascii.eqb c backslash then Some backslash else
  match c with
  | "/"%char => Some "/"%char
  | "b"%char => Some (ascii_of_nat 8)
  | "f"%char => Some (ascii_of_nat 12)
  | "n"%char => Some (ascii_of_nat 10)
  | "r"%char => Some (ascii_of_nat 13)
  | "t"%char => Some (ascii_of_nat 9)
  | _ => None
  end.

(** The characters of a string literal after its opening quote: the
    string and what follows the closing quote. *)
Fixpoint parse_chars (s : string) (acc : list ascii)
  : option (string * string) :=
  match s with
  | EmptyString => None
  | String c s' =>
      if Ascii.eqb c dquote then
        Some (string_of_list_ascii (rev acc), s')
      else if Ascii.eqb c backslash then
        match s' with
        | String e s'' =>
            match simple_escape e with
            | Some ch => parse_chars s'' (ch :: acc)
            | None =>
                if Ascii.eqb e "u"%char then
                  match s'' with
                  | String h1 (String h2 (String h3 (String h4 rest))) =>
                      if is_hex h1 && is_hex h2 && is_hex h3 && is_hex h4
                      then
                        let n := ((hex_value h1 * 16 + hex_value h2) * 16
                                  + hex_value h3) * 16 + hex_value h4 in
                        parse_chars rest (utf8_rev n ++ acc)
                      else None
                  | _ => None
                  end
                else None
            end
        | EmptyString => None
        end
      else if (nat_of_ascii c <? 32)%nat then None
      else parse_chars s' (c :: acc)
  end.

(** A run of decimal digits: its value, its length, and the rest. *)
Fixpoint digits (s : string) (value : Z) (len : nat) : Z * nat * string :=
  match s with
  | String c s' =>
      if is_digit c
      then digits s' (10 * value + Z.of_nat (nat_of_ascii c - 48))%Z (S len)
      else (value, len, s)
  | EmptyString => (value, len, s)
  end.

Definition parse_exponent (s : string) : option (Z * string) :=
  match s with
  | String c s' =>
      if Ascii.eqb c "e"%char || Ascii.eqb c "E"%char then
        let '(neg, s1) :=
          match s' with
          | String "-"%char r => (true, r)
          | String "+"%char r => (false, r)
          | _ => (false, s')
          end in
        let '(v, n, r) := digits s1 0%Z 0 in
        if (n =? 0)%nat then None
        else Some (if neg then (- v)%Z else v, r)
      else Some (0%Z, s)
  | EmptyString => Some (0%Z, s)
  end.

(** A number literal at the head of [s]. *)
Definition parse_number (s : string) : option (jsval * string) :=
  let '(neg, s0) :=
    match s with
    | String "-"%char r => (true, r)
    | _ => (false, s)
    end in
  let '(ip, n, s1) := digits s0 0%Z 0 in
  if (n =? 0)%nat then None
  else if (1 <? n)%nat && String.prefix "0" s0 then None
  else
    let frac :=
      match s1 with
      | String "."%char r =>
          let '(m, k, r') := digits r ip 0 in
          if (k =? 0)%nat then None else Some (m, k, r')
      | _ => Some (ip, 0, s1)
      end in
    match frac with
    | None => None
    | Some (m, k, s2) =>
        match parse_exponent s2 with
        | None => None
        | Some (e, s3) =>
            Some (VNum (if neg then - m else m) (e - Z.of_nat k), s3)
        end
    end.

Fixpoint drop (n : nat) (s : string) : string :=
  match n, s with
  | S n', String _ s' => drop n' s'
  | _, _ => s
  end.

(** A JSON value at the head of [s], after white space; [parse_members]
    and [parse_elements] read the inside of an object and of an array up
    to the closing bracket.  [fuel] bounds the nesting of calls. *)
Fixpoint parse_value (fuel : nat) (s : string) : option (jsval * string) :=
  match fuel with
  | O => None
  | S fuel' =>
      match skip_ws s with
      | String "{"%char r =>
          match skip_ws r with
          | String "}"%char r' => Some (VObj [], r')
          | _ => parse_members fuel' [] r
          end
      | String "["%char r =>
          match skip_ws r with
          | String "]"%char r' => Some (VArr [], r')
          | _ => parse_elements fuel' [] r
          end
      | String c r as s0 =>
          if Ascii.eqb c dquote then
            match parse_chars r [] with
            | Some (str, r') => Some (VStr str, r')
            | None => None
            end
          else if String.prefix "true" s0 then Some (VBool true, drop 4 s0)
          else if String.prefix "false" s0 then Some (VBool false, drop 5 s0)
          else if String.prefix "null" s0 then Some (VNull, drop 4 s0)
          else parse_number s0
      | EmptyString => None
      end
  end

with parse_members (fuel : nat) (acc : list (string * jsval)) (s : string)
  : option (jsval * string) :=
  match fuel with
  | O => None
  | S fuel' =>
      match skip_ws s with
      | String c r =>
          match (if Ascii.eqb c dquote then parse_chars r [] else None) with
          | Some (key, r1) =>
              match skip_ws r1 with
              | String ":"%char r2 =>
                  match parse_value fuel' r2 with
                  | Some (v, r3) =>
                      match skip_ws r3 with
                      | String ","%char r4 =>
                          parse_members fuel' (obj_set acc key v) r4
                      | String "}"%char r4 =>
                          Some (VObj (obj_set acc key v), r4)
                      | _ => None
                      end
                  | None => None
                  end
              | _ => None
              end
          | None => None
          end
      | EmptyString => None
      end
  end

with parse_elements (fuel : nat) (acc : list jsval) (s : string)
  : option (jsval * string) :=
  match fuel with
  | O => None
  | S fuel' =>
      match parse_value fuel' s with
      | Some (v, r) =>
          match skip_ws r with
          | String ","%char r' => parse_elements fuel' (v :: acc) r'
          | String "]"%char r' => Some (VArr (rev (v :: acc)), r')
          | _ => None
          end
      | None => None
      end
  end.

(** [JSON.parse(text)]: the value, or [inl] the message of the
    [SyntaxError]. *)
Definition JSON_parse (text : string) : string + jsval :=
  match parse_value (2 * String.length text + 2) text with
  | Some (v, r) =>
      match skip_ws r with
      | EmptyString => inr v
      | _ => inl syntax_error
      end
  | None => inl syntax_error
  end.

(** The part of [s] before the first character satisfying [stop], and the
    rest from that character on. *)
Fixpoint span_until (stop : ascii -> bool) (s : string) : string * string :=
  match s with
  | EmptyString => (EmptyString, EmptyString)
  | String c s' =>
      if stop c then (EmptyString, s)
      else let (a, b) := span_until stop s' in (String c a, b)
  end.

Definition lower (c : ascii) : ascii :=
  let n := nat_of_ascii c in
  if ((65 <=? n) && (n <=? 90))%nat then ascii_of_nat (n + 32) else c.

Fixpoint lowercase (s : string) : string :=
  match s with
  | EmptyString => EmptyString
  | String c s' => String (lower c) (lowercase s')
  end.

(** What follows [http://] or [https://]. *)
Definition after_scheme (s : string) : option string :=
  if String.prefix "http://" (lowercase (substring 0 7 s))
  then Some (drop 7 s)
  else if String.prefix "https://" (lowercase (substring 0 8 s))
  then Some (drop 8 s)
  else None.

(** Decoding of a name or a value of a query string. *)
Fixpoint form_decode (s : string) : string :=
  match s with
  | EmptyString => EmptyString
  | String c s' =>
      if Ascii.eqb c "+"%char then String " "%char (form_decode s')
      else if Ascii.eqb c "%"%char then
        match s' with
        | String h1 (String h2 r) =>
            if is_hex h1 && is_hex h2
            then String (ascii_of_nat (hex_value h1 * 16 + hex_value h2))
                        (form_decode r)
            else String c (form_decode s')
        | _ => String c (form_decode s')
        end
      else String c (form_decode s')
  end.

Definition is_char (x : ascii) (c : ascii) : bool := Ascii.eqb c x.

Definition parse_pair (piece : string) : string * string :=
  let (name, rest) := span_until (is_char "="%char) piece in
  (form_decode name, form_decode (drop 1 rest)).

Definition parse_query (query : string) : list (string * string) :=
  map parse_pair
      (filter (fun piece => negb (piece =? EmptyString))
              (split query "&"%char)).

(** [new URL(input)]: [None] when it throws. *)
Definition URL_new (input : string) : option URL :=
  match after_scheme input with
  | None => None
  | Some rest =>
      let (authority, after) :=
        span_until (fun c => is_char "/"%char c || is_char "?"%char c
                             || is_char "#"%char c) rest in
      if authority =? EmptyString then None
      else
        let (path, after') :=
          span_until (fun c => is_char "?"%char c || is_char "#"%char c)
                     after in
        let query :=
          match after' with
          | String "?"%char q => fst (span_until (is_char "#"%char) q)
          | _ => EmptyString
          end in
        Some {| searchParams := parse_query query;
                pathname := if path =? EmptyString then "/" else path |}
  end.

End Builtins.

(* ================================================================== *)
(** * The QR scanner module *)
(* ================================================================== *)

Module Scanner.

Import Js.
Local Open Scope string_scope.

(** The [type] property of a parse result. *)
Inductive qrType : Type := json | gs_format | url | uuid.

(** The object [parseQRCode] returns.  A property the object literal does
    not write reads as [undefined] ([id], [data]), as no type ([type]) or
    as no message ([error]). *)
Record QRInfo : Type := mkQRInfo {
  valid : bool;
  id : jsval;
  type : option qrType;
  data : jsval;
  error : option string
}.

(** A row of the [trees] table as [handleScan] reads it. *)
Record Tree : Type := mkTree {
  tree_id : string;
  tree_qr_code_id : jsval
}.

(** [AuthService.currentUser] when it is not [null]. *)
Record User : Type := mkUser {
  user_id : jsval
}.

(** The object handed to the callback. *)
Inductive outcome : Type :=
| Success (tree : Tree) (qrCode_id : jsval) (message : string)
| Failure (error : string).

Inductive level : Type := Log | Warn | Error.

Inductive payload : Type :=
| PNone
| PStr (s : string)
| PInfo (q : QRInfo)
| PErr (message : string).

(** What a run does that can be seen from outside: console output, the
    calls it issues to its collaborators, and the callback invocation. *)
Inductive event : Type :=
| Console (l : level) (label : string) (p : payload)
| Call_getByQRCode (qrCodeId : jsval)
| Call_getById (treeId : jsval)
| Call_geolocation
| Call_recordScan (qrCodeId userId location : jsval)
| Call_scanner_stop
| Callback (o : outcome).

(** What [navigator.geolocation] answers. *)
Inductive GeoResult : Type :=
| GeoUnsupported
| GeoPosition (latitude longitude accuracy : jsval)
| GeoError (message : string).

(** The collaborators the module reaches through globals.  [World] is
    whatever state they live in; an operation answers [inl message] when
    it throws (or its promise rejects) and may change the world.

    - [JSON_parse], [URL_new]: the built-ins [JSON.parse] and [new URL];
    - [trees_getByQRCode], [trees_getById], [qrCodes_recordScan]: the
      methods of [GreenSprintDB.trees] and [GreenSprintDB.qrCodes];
    - [geolocation]: [navigator.geolocation.getCurrentPosition];
    - [currentUser]: [AuthService.currentUser];
    - [scanner_stop]: [this.scanner.stop()]. *)
Record Collaborators (World : Type) : Type := mkCollaborators {
  JSON_parse : string -> string + jsval;
  URL_new : string -> option URL;
  trees_getByQRCode : jsval -> World -> (string + option Tree) * World;
  trees_getById : jsval -> World -> (string + option Tree) * World;
  qrCodes_recordScan :
    jsval -> jsval -> jsval -> World -> (string + unit) * World;
  geolocation : World -> (string + GeoResult) * World;
  currentUser : World -> option User;
  scanner_stop : World -> (string + unit) * World
}.

Arguments JSON_parse {World} _ _.
Arguments URL_new {World} _ _.
Arguments trees_getByQRCode {World} _ _ _.
Arguments trees_getById {World} _ _ _.
Arguments qrCodes_recordScan {World} _ _ _ _ _.
Arguments geolocation {World} _ _.
Arguments currentUser {World} _ _.
Arguments scanner_stop {World} _ _.

(** Sequencing of steps that may throw. *)
Definition bindE {A B : Type} (x : string + A) (f : A -> string + B)
  : string + B :=
  match x with
  | inl e => inl e
  | inr a => f a
  end.

Definition unknown_format : string :=
  "Unknown QR code format. Expected Green Sprint QR.".

Definition invalid_format : string :=
  "Invalid QR code format. This doesn't appear to be a Green Sprint QR code.".

Definition tree_not_found : string :=
  "Tree not found. This QR code may not be registered yet or the tree was deleted.".

(** [{ valid: false, error: message }]. *)
Definition invalid (message : string) : QRInfo :=
  {| valid := false; id := VUndefined; type := None; data := VUndefined;
     error := Some message |}.

(** ** [parseQRCode] *)

Section Parse.

Context {World : Type} (env : Collaborators World).

(** The URL rule: the object it returns, or [None] when the test fails or
    [new URL] throws into the empty inner [catch]. *)
Definition urlRule (data : string) : option QRInfo :=
  if includes data "http" || includes data "tree-details" then
    match URL_new env data with
    | Some u =>
        let treeId := searchParams_get (searchParams u) "id" in
        let qrCodeId := searchParams_get (searchParams u) "qr" in
        let id := js_or (js_or qrCodeId treeId)
                        (pop (split (pathname u) "/")) in
        Some {| valid := true; id := id; type := Some url;
                data := VObj [("tree_id", treeId);
                              ("qr_code_id", qrCodeId)];
                error := None |}
    | None => None
    end
  else None.

(** The rules after the JSON rule: Green Sprint format, URL, UUID, and the
    final [return { valid: false, ... }]. *)
Definition laterRules (data : string) : QRInfo :=
  if startsWith data "GS-" then
    {| valid := true; id := VStr data; type := Some gs_format;
       data := VUndefined; error := None |}
  else
    match urlRule data with
    | Some info => info
    | None =>
        if match_uuid data then
          {| valid := true; id := VStr data; type := Some uuid;
             data := VObj [("tree_id", VStr data)]; error := None |}
        else invalid unknown_format
    end.


(** The body of the outer [try]: [inl message] when it throws. *)
Definition parseQRCode_try (data : string) : string + QRInfo :=
  if startsWith data "{" then
    bindE (JSON_parse env data) (fun parsed =>
    bindE (get_prop parsed "id") (fun parsed_id =>
    bindE (if truthy parsed_id then inr parsed_id
           else get_prop parsed "qr_code_id") (fun id =>
    inr {| valid := true; id := id; type := Some json; data := parsed;
           error := None |})))
  else inr (laterRules data).

(** [parseQRCode(data)]: its console output, oldest first, and the object
    it returns. *)
Definition parseQRCode (data : string) : list event * QRInfo :=
  let entry := Console Log "Parsing QR data:" (PStr data) in
  match parseQRCode_try data with
  | inr info => ([entry], info)
  | inl message =>
      ([entry; Console Error "Parse error:" (PErr message)],
       invalid message)
  end.

End Parse.

(** ** The monad of [async] methods

    A method runs on the state of the module ([scanner], [isScanning])
    and the world of its collaborators.  It returns a value or throws a
    message ([inl]), leaves a state, and produces the events of the run,
    oldest first. *)

Section Monad.

Context {World : Type}.

Record state : Type := mkState {
  world : World;
  scanner : bool;
  isScanning : bool
}.

Definition M (A : Type) : Type := state -> (string + A) * state * list event.

Definition ret {A : Type} (a : A) : M A := fun s => (inr a, s, []).

Definition bind {A B : Type} (m : M A) (f : A -> M B) : M B :=
  fun s =>
    match m s with
    | (inr a, s1, t1) =>
        match f a s1 with
        | (r, s2, t2) => (r, s2, (t1 ++ t2)%list)
        end
    | (inl e, s1, t1) => (inl e, s1, t1)
    end.

Definition throw {A : Type} (message : string) : M A :=
  fun s => (inl message, s, []).

Definition try_catch {A : Type} (body : M A) (handler : string -> M A)
  : M A :=
  fun s =>
    match body s with
    | (inr a, s1, t1) => (inr a, s1, t1)
    | (inl e, s1, t1) =>
        match handler e s1 with
        | (r, s2, t2) => (r, s2, (t1 ++ t2)%list)
        end
    end.

Definition emit (e : event) : M unit := fun s => (inr tt, s, [e]).

Definition emit_all (l : list event) : M unit := fun s => (inr tt, s, l).

(** A collaborator's operation run on the world. *)
Definition ext {A : Type} (op : World -> (string + A) * World) : M A :=
  fun s =>
    let (r, w) := op (world s) in
    (r, {| world := w; scanner := scanner s; isScanning := isScanning s |},
     []).

Definition read {A : Type} (f : World -> A) : M A :=
  fun s => (inr (f (world s)), s, []).

Definition set_isScanning (b : bool) : M unit :=
  fun s => (inr tt, {| world := world s; scanner := scanner s;
                       isScanning := b |}, []).

Definition when (c : bool) (m : M unit) : M unit :=
  if c then m else ret tt.

(** The three components of a run. *)
Definition returned {A : Type} (run : (string + A) * state * list event)
  : string + A := fst (fst run).

Definition final {A : Type} (run : (string + A) * state * list event)
  : state := snd (fst run).

Definition trace {A : Type} (run : (string + A) * state * list event)
  : list event := snd run.

End Monad.

Arguments state World : clear implicits.
Arguments M World A : clear implicits.

Declare Scope async_scope.
Delimit Scope async_scope with async.

Notation "x <- m ;; k" := (bind m (fun x => k))
  (at level 61, m at next level, right associativity) : async_scope.
Notation "m ;;; k" := (bind m (fun _ => k))
  (at level 61, right associativity) : async_scope.

(** ** The methods *)

Section Methods.

Context {World : Type} (env : Collaborators World).

Local Open Scope async_scope.

Definition console (l : level) (label : string) (p : payload)
  : M World unit :=
  emit (Console l label p).

(** [getCurrentLocation()]: the promise resolves to the position or to
    [null]; it rejects only if the executor itself throws. *)
Definition getCurrentLocation : M World jsval :=
  emit Call_geolocation ;;;
  r <- ext (geolocation env) ;;
  match r with
  | GeoUnsupported => ret VNull
  | GeoPosition latitude longitude accuracy =>
      ret (VObj [("latitude", latitude); ("longitude", longitude);
                 ("accuracy", accuracy)])
  | GeoError message =>
      console Error "Geolocation error:" (PErr message) ;;;
      ret VNull
  end.

(** [stopScanning()]. *)
Definition stopScanning : M World unit :=
  fun s =>
    if scanner s && isScanning s then
      try_catch
        (emit Call_scanner_stop ;;;
         ext (scanner_stop env) ;;;
         set_isScanning false ;;;
         console Log "Scanner stopped" PNone)
        (fun error =>
           console Error "Failed to stop scanner:" (PErr error))
        s
    else ret tt s.

(** [GreenSprintDB.trees.getByQRCode(v)] and [getById(v)] as issued by
    [handleScan]. *)
Definition getByQRCode (v : jsval) : M World (option Tree) :=
  emit (Call_getByQRCode v) ;;; ext (trees_getByQRCode env v).

Definition getById (v : jsval) : M World (option Tree) :=
  emit (Call_getById v) ;;; ext (trees_getById env v).

(** [v.startsWith(p)] on a value: a [TypeError] unless [v] is a string
    (the caller has tested [v] to be truthy). *)
Definition startsWith_method (v : jsval) (p : string) : M World bool :=
  match v with
  | VStr s => ret (startsWith s p)
  | _ => throw "qrInfo.id.startsWith is not a function"
  end.

Definition is_null (tree : option Tree) : bool :=
  match tree with None => true | Some _ => false end.

(** The five attempts of [handleScan] to find the tree, from
    [let tree = null] up to the last-resort lookups. *)
Definition findTree (qrInfo : QRInfo) : M World (option Tree) :=
  let tree := None in
  (* 1. Try by QR code ID (GS-XXX format) *)
  gs <- (if truthy (id qrInfo) then startsWith_method (id qrInfo) "GS-"
         else ret false) ;;
  tree <- (if gs then getByQRCode (id qrInfo) else ret tree) ;;
  (* 2. Try by tree ID from URL data *)
  tree <- (if is_null tree && truthy (opt_prop (data qrInfo) "tree_id")
           then getById (opt_prop (data qrInfo) "tree_id")
           else ret tree) ;;
  (* 3. Try by qr_code_id from URL data *)
  tree <- (if is_null tree && truthy (opt_prop (data qrInfo) "qr_code_id")
           then getByQRCode (opt_prop (data qrInfo) "qr_code_id")
           else ret tree) ;;
  (* 4. If UUID type, try as tree ID directly *)
  tree <- (if is_null tree &&
              match type qrInfo with Some uuid => true | _ => false end
           then getById (id qrInfo)
           else ret tree) ;;
  (* 5. Last resort - try the ID as both QR code ID and tree ID *)
  tree <- (if is_null tree then getByQRCode (id qrInfo) else ret tree) ;;
  tree <- (if is_null tree then getById (id qrInfo) else ret tree) ;;
  ret tree.

(** [AuthService.getUser().id]: a [TypeError] when there is no user. *)
Definition getUser_id : M World jsval :=
  u <- read (currentUser env) ;;
  match u with
  | Some u => ret (user_id u)
  | None => throw "Cannot read properties of null (reading 'id')"
  end.

(** The body of the inner [try]: fetch the location, then record the
    scan. *)
Definition recordScanAttempt (qrInfo : QRInfo) (tree : Tree)
  : M World unit :=
  location <- getCurrentLocation ;;
  let qrCodeId := js_or (tree_qr_code_id tree) (id qrInfo) in
  userId <- getUser_id ;;
  emit (Call_recordScan qrCodeId userId location) ;;;
  ext (qrCodes_recordScan env qrCodeId userId location).

(** [AuthService.isLoggedIn()]. *)
Definition isLoggedIn : M World bool :=
  u <- read (currentUser env) ;;
  ret (match u with Some _ => true | None => false end).

(** The block [if (AuthService.isLoggedIn()) { try { ... } catch ... }]. *)
Definition recordIfLoggedIn (qrInfo : QRInfo) (tree : Tree)
  : M World unit :=
  loggedIn <- isLoggedIn ;;
  when loggedIn
    (try_catch
       (recordScanAttempt qrInfo tree)
       (fun recordError =>
          console Warn "Could not record scan:" (PErr recordError))).

(** What [handleScan] does once it holds a tree: record the scan, stop
    the camera, call back with success. *)
Definition afterFound (qrInfo : QRInfo) (tree : Tree) (callback : bool)
  : M World unit :=
  (* Record the scan if user is logged in *)
  recordIfLoggedIn qrInfo tree ;;;
  (* Stop scanning *)
  stopScanning ;;;
  (* Call success callback *)
  when callback
    (emit (Callback
       (Success tree (js_or (tree_qr_code_id tree) (id qrInfo))
                "Tree found successfully!"))).

(** [handleScan(qrCodeData, callback)].  [callback] tells whether the
    caller passed one; its invocation is recorded as an event, the
    callback being taken to return normally.  ([ScannerCallbacks] has the
    method with a callback that may throw.) *)
Definition handleScan (qrCodeData : string) (callback : bool)
  : M World unit :=
  try_catch
    (console Log "Processing scanned QR:" (PStr qrCodeData) ;;;
     (* Parse QR code data *)
     let parsed := parseQRCode env qrCodeData in
     emit_all (fst parsed) ;;;
     let qrInfo := snd parsed in
     console Log "Parsed QR info:" (PInfo qrInfo) ;;;
     when (negb (valid qrInfo)) (throw invalid_format) ;;;
     tree <- findTree qrInfo ;;
     match tree with
     | None => throw tree_not_found
     | Some tree => afterFound qrInfo tree callback
     end)
    (fun error =>
       console Error "Scan handling error:" (PErr error) ;;;
       when callback (emit (Callback (Failure error)))).

(** The store lookups among a list of events: which column was queried
    with which value. *)
Inductive field : Type := CodeId | RecordId.

Fixpoint lookups (l : list event) : list (field * jsval) :=
  match l with
  | [] => []
  | Call_getByQRCode v :: l' => (CodeId, v) :: lookups l'
  | Call_getById v :: l' => (RecordId, v) :: lookups l'
  | _ :: l' => lookups l'
  end.

(** The callback invocations among a list of events. *)
Fixpoint callbacks (l : list event) : list outcome :=
  match l with
  | [] => []
  | Callback o :: l' => o :: callbacks l'
  | _ :: l' => callbacks l'
  end.

(** A store operation that finds nothing, whatever it is asked. *)
Definition misses (op : jsval -> World -> (string + option Tree) * World)
  : Prop :=
  forall v w, fst (op v w) = inr None.

(** The value [qrInfo.id] lets attempt 1 pass: it is falsy or a string. *)
Definition id_usable (v : jsval) : bool :=
  match v with
  | VStr _ => true
  | _ => negb (truthy v)
  end.

(** The lookups the five attempts of [findTree] issue when each of them
    misses, read off its conditions. *)
Definition lookupPlan (qrInfo : QRInfo) : list (field * jsval) :=
  ((match id qrInfo with
    | VStr s => if truthy (VStr s) && startsWith s "GS-"
                then [(CodeId, id qrInfo)] else []
    | _ => []
    end) ++
   (if truthy (opt_prop (data qrInfo) "tree_id")
    then [(RecordId, opt_prop (data qrInfo) "tree_id")] else []) ++
   (if truthy (opt_prop (data qrInfo) "qr_code_id")
    then [(CodeId, opt_prop (data qrInfo) "qr_code_id")] else []) ++
   (match type qrInfo with
    | Some uuid => [(RecordId, id qrInfo)]
    | _ => []
    end) ++
   [(CodeId, id qrInfo); (RecordId, id qrInfo)])%list.

(** The event of issuing a lookup. *)
Definition call (p : field * jsval) : event :=
  match p with
  | (CodeId, v) => Call_getByQRCode v
  | (RecordId, v) => Call_getById v
  end.

(** Two neighbours of a list are equal. *)
Definition has_adjacent_duplicate {A : Type} (l : list A) : Prop :=
  exists l1 x l2, l = (l1 ++ x :: x :: l2)%list.

End Methods.

End Scanner.



(* ================================================================== *)
(** * A small world to run the scanner in *)
(* ================================================================== *)

Module Demo.

Import Js Scanner.
Local Open Scope string_scope.

(** The signed-in user, what geolocation answers, and whether recording a
    scan or stopping the camera fails. *)
Record World : Type := mkWorld {
  user : option User;
  position : string + GeoResult;
  recordScan_error : option string;
  stop_error : option string
}.

Definition has_qr_code_id (v : jsval) (t : Tree) : bool :=
  match v, tree_qr_code_id t with
  | VStr s, VStr q => (q =? s)
  | _, _ => false
  end.

Definition has_id (v : jsval) (t : Tree) : bool :=
  match v with
  | VStr s => (tree_id t =? s)
  | _ => false
  end.

Definition fails (e : option string) : string + unit :=
  match e with Some message => inl message | None => inr tt end.

(** The collaborators over a fixed [trees] table, with the reference
    decoders for the built-ins. *)
Definition env (table : list Tree) : Collaborators World :=
  {| JSON_parse := Builtins.JSON_parse;
     URL_new := Builtins.URL_new;
     trees_getByQRCode := fun v w => (inr (find (has_qr_code_id v) table), w);
     trees_getById := fun v w => (inr (find (has_id v) table), w);
     qrCodes_recordScan := fun _ _ _ w => (fails (recordScan_error w), w);
     geolocation := fun w => (position w, w);
     currentUser := user;
     scanner_stop := fun w => (fails (stop_error w), w) |}.

(** A scanner that is running, in world [w]. *)
Definition scanning (w : World) : state World :=
  {| world := w; scanner := true; isScanning := true |}.

(** Nobody signed in. *)
Definition anonymous : World :=
  {| user := None; position := inr GeoUnsupported;
     recordScan_error := None; stop_error := None |}.

(** A signed-in user who denies the location, and a store that refuses
    to record scans. *)
Definition refusing : World :=
  {| user := Some {| user_id := VStr "u1" |};
     position := inr (GeoError "User denied Geolocation");
     recordScan_error := Some "permission denied for table trees";
     stop_error := None |}.

Definition oak : Tree :=
  {| tree_id := "abc123"; tree_qr_code_id := VStr "GS-999" |}.

(** The scanned text of the end-to-end scenario. *)
Definition locator : string :=
  "https://app.example/tree-details.html?id=abc123&qr=GS-999".

End Demo.

(* ================================================================== *)
(** * More of the proximity search: the store and the haversine term *)
(* ================================================================== *)

Module GeoStore.

Import Geo.
Local Open Scope R_scope.

(** The haversine term [a] of [calculateDistance]. *)
Definition haversine (lat1 lon1 lat2 lon2 : R) : R :=
  sin ((lat2 - lat1) * PI / 180 / 2) * sin ((lat2 - lat1) * PI / 180 / 2) +
  cos (lat1 * PI / 180) * cos (lat2 * PI / 180) *
  sin ((lon2 - lon1) * PI / 180 / 2) * sin ((lon2 - lon1) * PI / 180 / 2).

(** [x <= y] as the store decides it. *)
Definition leb_R (x y : R) : bool := if Rle_dec x y then true else false.

(** Whether a row satisfies the four range conditions [getNearby] sends;
    a [null] coordinate satisfies none. *)
Definition in_range (b : Box) (c : Campaign) : bool :=
  match latitude c, longitude c with
  | Some la, Some lo =>
      leb_R (lat_gte b) la && leb_R la (lat_lte b) &&
      leb_R (lng_gte b) lo && leb_R lo (lng_lte b)
  | _, _ => false
  end.

(** A store that holds the rows of [table], all of them active and
    already in the order of the query, and applies the range conditions
    as they are sent. *)
Definition table_store (table : list Campaign) : Box -> Response :=
  fun b => {| data := Some (filter (in_range b) table); error := None |}.

(** The row [c] with its [distance] property set to [d]. *)
Definition with_distance (c : Campaign) (d : R) : Campaign :=
  {| campaign_id := campaign_id c; latitude := latitude c;
     longitude := longitude c; distance := Some d |}.

(** Whether the [distance] property of a row is [d]. *)
Definition at_distance (d : R) (c : Campaign) : bool :=
  if Req_dec_T (dist c) d then true else false.

(** The latitude of a row, when it has one, is between -90 and 90. *)
Definition valid_latitude (c : Campaign) : Prop :=
  match latitude c with
  | Some clat => -90 <= clat <= 90
  | None => True
  end.

(** A campaign at latitude 60, longitude 60. *)
Definition far_east : Campaign :=
  {| campaign_id := 1; latitude := Some 60; longitude := Some 60;
     distance := None |}.

End GeoStore.

(* ================================================================== *)
(** * More of the scanner module: generated codes and URLs, and what a
      run leaves behind *)
(* ================================================================== *)

Module ScannerTexts.

Import Js Scanner.
Local Open Scope string_scope.

(** Whether every character of [s] satisfies [p]. *)
Fixpoint all_chars (p : ascii -> bool) (s : string) : bool :=
  match s with
  | EmptyString => true
  | String c s' => p c && all_chars p s'
  end.

(** The characters a UUID is written with. *)
Definition uuid_char (c : ascii) : bool := is_hex c || Ascii.eqb c "-"%char.

(** [s.toUpperCase()] on a string of ASCII characters. *)
Definition upper (c : ascii) : ascii :=
  let n := nat_of_ascii c in
  if ((97 <=? n) && (n <=? 122))%nat then ascii_of_nat (n - 32) else c.

Fixpoint toUpperCase (s : string) : string :=
  match s with
  | EmptyString => EmptyString
  | String c s' => String (upper c) (toUpperCase s')
  end.

(** A non-negative integer in a template literal. *)
Definition decimal (n : N) : string := NilZero.string_of_uint (N.to_uint n).

(** [QRCodeService.generateId()], given what [Date.now()] and
    [Math.random().toString(36)] return. *)
Definition generateId (now : N) (random36 : string) : string :=
  toUpperCase ("GS-" ++ decimal now ++ "-" ++ substring 2 8 random36).

(** The [id] of the object [QRScannerModule.generateQRCode] returns,
    given the same two. *)
Definition generateQRCode_id (now : N) (random36 : string) : string :=
  toUpperCase ("GS-" ++ decimal now ++ "-" ++ substring 2 9 random36).

(** [getQRUrl(treeId, qrCodeId)] on string ids, given
    [window.location.origin]. *)
Definition getQRUrl (origin treeId qrCodeId : string) : string :=
  let baseUrl :=
    if (origin =? EmptyString) then "https://greensprint.app" else origin in
  baseUrl ++ "/tree-details.html?id=" ++ treeId ++ "&qr=" ++ qrCodeId.

(** The text [submitTree] has rendered as a QR code after a registration:
    the template [${window.location.origin}/tree-details.html?id=${tree.id}]. *)
Definition registrationUrl (origin treeId : string) : string :=
  origin ++ "/tree-details.html?id=" ++ treeId.

(** An origin that does not look like the start of a JSON text or of a
    Green Sprint code. *)
Definition usable_origin (origin : string) : Prop :=
  startsWith origin "{" = false /\ startsWith origin "GS-" = false.

(** What the [catch] of [handleScan] does with an error. *)
Definition failure_events (callback : bool) (error : string) : list event :=
  Console Error "Scan handling error:" (PErr error)
  :: (if callback then [Callback (Failure error)] else []).

(** The console output of [handleScan] up to the validity test. *)
Definition prologue {World : Type} (env : Collaborators World)
                    (data : string) : list event :=
  (Console Log "Processing scanned QR:" (PStr data)
   :: fst (parseQRCode env data)
   ++ [Console Log "Parsed QR info:" (PInfo (snd (parseQRCode env data)))])%list.

(** The calls of a run that act on the world beyond looking a tree up:
    asking for the position, recording the scan, stopping the camera. *)
Fixpoint side_calls (l : list event) : list event :=
  match l with
  | [] => []
  | Call_geolocation :: l' => Call_geolocation :: side_calls l'
  | Call_recordScan a b c :: l' => Call_recordScan a b c :: side_calls l'
  | Call_scanner_stop :: l' => Call_scanner_stop :: side_calls l'
  | _ :: l' => side_calls l'
  end.

(** The store operation behind a planned lookup. *)
Definition lookup {World : Type} (env : Collaborators World)
                  (p : field * jsval)
  : World -> (string + option Tree) * World :=
  match p with
  | (CodeId, v) => trees_getByQRCode env v
  | (RecordId, v) => trees_getById env v
  end.

(** The lookups issued when the planned ones are tried in order, up to
    and including the first that finds a tree or throws. *)
Fixpoint issue {World : Type} (env : Collaborators World)
               (plan : list (field * jsval)) (w : World)
  : list (field * jsval) :=
  match plan with
  | [] => []
  | p :: rest =>
      match lookup env p w with
      | (inr None, w') => p :: issue env rest w'
      | _ => [p]
      end
  end.

(** A store that cannot be reached: every lookup throws. *)
Definition offline : Collaborators Demo.World :=
  {| JSON_parse := Builtins.JSON_parse;
     URL_new := Builtins.URL_new;
     trees_getByQRCode := fun _ w => (inl "TypeError: Failed to fetch", w);
     trees_getById := fun _ w => (inl "TypeError: Failed to fetch", w);
     qrCodes_recordScan := fun _ _ _ w => (inr tt, w);
     geolocation := fun w => (Demo.position w, w);
     currentUser := Demo.user;
     scanner_stop := fun w => (inr tt, w) |}.

(** A registered tree whose id is a UUID and whose code was generated. *)
Definition elm : Tree :=
  {| tree_id := "123e4567-e89b-12d3-a456-426614174000";
     tree_qr_code_id := VStr "GS-1770225330123-4FZYO82M" |}.

End ScannerTexts.

(* ================================================================== *)
(** * The scanner with a callback that may throw *)
(* ================================================================== *)

Module ScannerCallbacks.

Import Js Scanner.
Local Open Scope string_scope.
Local Open Scope async_scope.

Section Methods.

Context {World : Type} (env : Collaborators World).

(** A callback handed to [handleScan]: what a call of it does to the
    world, [inl] when it throws. *)
Definition Callee : Type := outcome -> World -> (string + unit) * World.

(** [if (callback) { callback(o) }]. *)
Definition invoke (callback : option Callee) (o : outcome) : M World unit :=
  match callback with
  | Some f => emit (Callback o) ;;; ext (f o)
  | None => ret tt
  end.

(** [handleScan(qrCodeData, callback)], with the callback as the function
    it is ([None] when the caller passed none). *)
Definition handleScan (qrCodeData : string) (callback : option Callee)
  : M World unit :=
  try_catch
    (console Log "Processing scanned QR:" (PStr qrCodeData) ;;;
     (* Parse QR code data *)
     let parsed := parseQRCode env qrCodeData in
     emit_all (fst parsed) ;;;
     let qrInfo := snd parsed in
     console Log "Parsed QR info:" (PInfo qrInfo) ;;;
     when (negb (valid qrInfo)) (throw invalid_format) ;;;
     tree <- findTree env qrInfo ;;
     match tree with
     | None => throw tree_not_found
     | Some tree =>
         (* Record the scan if user is logged in *)
         recordIfLoggedIn env qrInfo tree ;;;
         (* Stop scanning *)
         stopScanning env ;;;
         (* Call success callback *)
         invoke callback
           (Success tree (js_or (tree_qr_code_id tree) (id qrInfo))
                    "Tree found successfully!")
     end)
    (fun error =>
       console Error "Scan handling error:" (PErr error) ;;;
       invoke callback (Failure error)).

(** What the [catch] does with an error, after the events [t] of the
    [try]. *)
Definition fail (callback : option Callee) (e : string)
                (s : state World) (t : list event)
  : (string + unit) * state World * list event :=
  match invoke callback (Failure e) s with
  | (r, s1, t1) =>
      (r, s1,
       (t ++ Console Error "Scan handling error:" (PErr e) :: t1)%list)
  end.

(** A callback that returns normally, whatever it is called with. *)
Definition returns (f : Callee) : Prop :=
  forall o w, fst (f o w) = inr tt.

End Methods.

(** A callback that cannot show a tree: it throws when called with a
    success, and takes a failure. *)
Definition brittle : @Callee Demo.World :=
  fun o w =>
    match o with
    | Success _ _ _ =>
        (inl "Cannot set properties of null (setting 'textContent')", w)
    | Failure _ => (inr tt, w)
    end.

(** A callback that takes everything. *)
Definition calm : @Callee Demo.World := fun _ w => (inr tt, w).

End ScannerCallbacks.

(* ================================================================== *)
(** * Asynchronous methods in general

    A method runs on a state [S], returns a value or throws a message
    ([inl]), leaves a state and produces events of type [E], oldest
    first. *)
(* ================================================================== *)

Module Async.

Section Run.

Context {S E : Type}.

Definition Run (A : Type) : Type := S -> (string + A) * S * list E.

Definition ret {A : Type} (a : A) : Run A := fun s => (inr a, s, []).

Definition bind {A B : Type} (m : Run A) (f : A -> Run B) : Run B :=
  fun s =>
    match m s with
    | (inr a, s1, t1) =>
        match f a s1 with
        | (r, s2, t2) => (r, s2, (t1 ++ t2)%list)
        end
    | (inl e, s1, t1) => (inl e, s1, t1)
    end.

Definition throw {A : Type} (message : string) : Run A :=
  fun s => (inl message, s, []).

Definition try_catch {A : Type} (body : Run A) (handler : string -> Run A)
  : Run A :=
  fun s =>
    match body s with
    | (inr a, s1, t1) => (inr a, s1, t1)
    | (inl e, s1, t1) =>
        match handler e s1 with
        | (r, s2, t2) => (r, s2, (t1 ++ t2)%list)
        end
    end.

(** [try { body } finally { cleanup }]: the cleanup runs either way, and
    an error of its own replaces the outcome of the body. *)
Definition finally {A : Type} (body : Run A) (cleanup : Run unit) : Run A :=
  fun s =>
    match body s with
    | (r, s1, t1) =>
        match cleanup s1 with
        | (inr _, s2, t2) => (r, s2, (t1 ++ t2)%list)
        | (inl e, s2, t2) => (inl e, s2, (t1 ++ t2)%list)
        end
    end.

Definition emit (e : E) : Run unit := fun s => (inr tt, s, [e]).

(** An operation of a collaborator, which may throw and change the
    state. *)
Definition call {A : Type} (op : S -> (string + A) * S) : Run A :=
  fun s => let (r, s') := op s in (r, s', []).

Definition read {A : Type} (f : S -> A) : Run A :=
  fun s => (inr (f s), s, []).

Definition write (f : S -> S) : Run unit :=
  fun s => (inr tt, f s, []).

Definition when (c : bool) (m : Run unit) : Run unit :=
  if c then m else ret tt.

Definition returned {A : Type} (run : (string + A) * S * list E)
  : string + A := fst (fst run).

Definition final {A : Type} (run : (string + A) * S * list E) : S :=
  snd (fst run).

Definition trace {A : Type} (run : (string + A) * S * list E) : list E :=
  snd run.

(** A run that produces no event selected by [keep]. *)
Definition quiet (keep : E -> bool) {A : Type} (m : Run A) : Prop :=
  forall s, filter keep (trace (m s)) = [].


End Run.

Arguments Run S E A : clear implicits.

Declare Scope run_scope.
Delimit Scope run_scope with run.

Notation "x <- m ;; k" := (bind m (fun x => k))
  (at level 61, m at next level, right associativity) : run_scope.
Notation "m ;;; k" := (bind m (fun _ => k))
  (at level 61, right associativity) : run_scope.

End Async.

(* ================================================================== *)
(** * Achievements *)
(* ================================================================== *)

Module Achievements.

Import Js Async.
Local Open Scope string_scope.
Local Open Scope run_scope.

(** An entry of [badgeThresholds]. *)
Record Badge : Type := mkBadge {
  count : Z;
  badge_id : string;
  badge_name : string;
  badge_icon : string
}.

(** The error object of a store response. *)
Record PgError : Type := mkPgError {
  code : string;
  message : string
}.

(** A row of the [achievements] table. *)
Record Achievement : Type := mkAchievement {
  ach_user_id : jsval;
  ach_badge_id : string
}.

(** The [{ data, error }] object an insert resolves to. *)
Record InsertResponse : Type := mkInsertResponse {
  data : option Achievement;
  error : option PgError
}.

Inductive event : Type :=
| Call_insert (userId : jsval) (badgeId badgeName badgeIcon : string).

Section Service.

Context {World : Type}.

(** The insert into [achievements] followed by [.select().maybeSingle()]:
    it answers [inl] when the promise rejects or there is no client. *)
Context (insert_achievement :
           jsval -> string -> string -> string ->
           World -> (string + InsertResponse) * World).

(** [award(userId, badgeId, badgeName, badgeIcon)]. *)
Definition award (userId : jsval) (badgeId badgeName badgeIcon : string)
  : Run World event (option Achievement) :=
  emit (Call_insert userId badgeId badgeName badgeIcon) ;;;
  r <- call (insert_achievement userId badgeId badgeName badgeIcon) ;;
  match error r with
  | Some e =>
      if negb (code e =? "23505") then throw (message e) else ret (data r)
  | None => ret (data r)
  end.

Definition badgeThresholds : list Badge :=
  [ {| count := 1; badge_id := "first_tree"; badge_name := "First Tree";
       badge_icon := "🌱" |};
    {| count := 5; badge_id := "five_trees"; badge_name := "Grove Starter";
       badge_icon := "🌳" |};
    {| count := 10; badge_id := "ten_trees"; badge_name := "Forest Friend";
       badge_icon := "🌲" |};
    {| count := 25; badge_id := "twentyfive_trees";
       badge_name := "Tree Champion"; badge_icon := "🏆" |};
    {| count := 50; badge_id := "fifty_trees"; badge_name := "Eco Warrior";
       badge_icon := "🦸" |};
    {| count := 100; badge_id := "hundred_trees";
       badge_name := "Forest Guardian"; badge_icon := "👑" |} ].

(** The body of [for (const badge of badgeThresholds)], with the badges
    pushed so far. *)
Definition award_if_reached (userId : jsval) (treesPlanted : Z)
                            (badges : list Badge) (badge : Badge)
  : Run World event (list Badge) :=
  if (count badge <=? treesPlanted)%Z then
    try_catch
      (awarded <- award userId (badge_id badge) (badge_name badge)
                        (badge_icon badge) ;;
       ret (match awarded with
            | Some _ => (badges ++ [badge])%list
            | None => badges
            end))
      (fun _ => (* Already has badge, ignore *) ret badges)
  else ret badges.

Fixpoint award_each (userId : jsval) (treesPlanted : Z)
                    (todo : list Badge) (badges : list Badge)
  : Run World event (list Badge) :=
  match todo with
  | [] => ret badges
  | badge :: todo' =>
      badges' <- award_if_reached userId treesPlanted badges badge ;;
      award_each userId treesPlanted todo' badges'
  end.

(** [checkAndAward(userId, treesPlanted)], for a whole number of
    trees. *)
Definition checkAndAward (userId : jsval) (treesPlanted : Z)
  : Run World event (list Badge) :=
  award_each userId treesPlanted badgeThresholds [].

(** The badges whose threshold [treesPlanted] has reached. *)
Definition reached (treesPlanted : Z) : list Badge :=
  filter (fun badge => (count badge <=? treesPlanted)%Z) badgeThresholds.

Definition insert_of (userId : jsval) (badge : Badge) : event :=
  Call_insert userId (badge_id badge) (badge_name badge) (badge_icon badge).

(** A store in which every insert succeeds and hands the new row back. *)
Definition grants
  (op : jsval -> string -> string -> string ->
        World -> (string + InsertResponse) * World) : Prop :=
  forall u a b c w,
    exists row,
      fst (op u a b c w) = inr {| data := Some row; error := None |}.

(** A store in which no insert yields a row: it reports the unique
    violation [23505] (the badge is there already), reports another
    error, or the call throws. *)
Definition yields_nothing
  (op : jsval -> string -> string -> string ->
        World -> (string + InsertResponse) * World) : Prop :=
  forall u a b c w,
    match fst (op u a b c w) with
    | inl _ => True
    | inr r => data r = None \/ exists e, error r = Some e /\ code e <> "23505"
    end.

End Service.

(** A store without achievements yet, and one in which the user holds
    every badge. *)
Definition fresh (userId : jsval) (badgeId badgeName badgeIcon : string)
                 (w : unit)
  : (string + InsertResponse) * unit :=
  (inr {| data := Some {| ach_user_id := userId; ach_badge_id := badgeId |};
          error := None |}, w).

Definition owned (userId : jsval) (badgeId badgeName badgeIcon : string)
                 (w : unit)
  : (string + InsertResponse) * unit :=
  (inr {| data := None;
          error :=
            Some {| code := "23505";
                    message := "duplicate key value violates unique constraint" |} |},
   w).

End Achievements.

(* ================================================================== *)
(** * Recording a scan: [QRCodeService.recordScan] *)
(* ================================================================== *)

Module QRCodes.

Import Js Async.
Local Open Scope string_scope.
Local Open Scope run_scope.

Inductive event : Type :=
| Console_log (label : string) (qrCodeId userId location : jsval)
| Console_error (label message : string)
| Call_getByQRCode (qrCodeId : jsval)
| Call_update (treeId : string).

Section Service.

Context {World : Type}.

(** The collaborators: the statement [if (!supabaseClient) initSupabase();],
    [TreeService.getByQRCode], and the update of a tree's [updated_at],
    whose response is not looked at.  [inl] is an exception or a rejected
    promise. *)
Context (ensure_client : World -> (string + unit) * World)
        (getByQRCode : jsval -> World -> (string + option Scanner.Tree) * World)
        (touch : string -> World -> (string + unit) * World).

(** [recordScan(qrCodeId, userId, location)]. *)
Definition recordScan (qrCodeId userId location : jsval)
  : Run World event unit :=
  call ensure_client ;;;
  (* Log the scan *)
  emit (Console_log "QR Scan recorded:" qrCodeId userId location) ;;;
  try_catch
    (emit (Call_getByQRCode qrCodeId) ;;;
     tree <- call (getByQRCode qrCodeId) ;;
     match tree with
     | Some tree =>
         emit (Call_update (Scanner.tree_id tree)) ;;;
         call (touch (Scanner.tree_id tree))
     | None => ret tt
     end)
    (fun error => emit (Console_error "Error recording scan:" error)).

(** The updates among a list of events. *)
Fixpoint updates (l : list event) : list string :=
  match l with
  | [] => []
  | Call_update i :: l' => i :: updates l'
  | _ :: l' => updates l'
  end.

(** The errors written to the console. *)
Fixpoint logged_errors (l : list event) : list string :=
  match l with
  | [] => []
  | Console_error _ message :: l' => message :: logged_errors l'
  | _ :: l' => logged_errors l'
  end.

(** [recordScan] as the collaborator [handleScan] calls. *)
Definition recordScan_op (qrCodeId userId location : jsval) (w : World)
  : (string + unit) * World :=
  (returned (recordScan qrCodeId userId location w),
   final (recordScan qrCodeId userId location w)).

End Service.

(** The collaborators of the scanner, with [GreenSprintDB.qrCodes.recordScan]
    being [recordScan] over the same [TreeService.getByQRCode]. *)
Definition wired {World : Type} (env : Scanner.Collaborators World)
                 (ensure_client : World -> (string + unit) * World)
                 (touch : string -> World -> (string + unit) * World)
  : Scanner.Collaborators World :=
  {| Scanner.JSON_parse := Scanner.JSON_parse env;
     Scanner.URL_new := Scanner.URL_new env;
     Scanner.trees_getByQRCode := Scanner.trees_getByQRCode env;
     Scanner.trees_getById := Scanner.trees_getById env;
     Scanner.qrCodes_recordScan :=
       recordScan_op ensure_client (Scanner.trees_getByQRCode env) touch;
     Scanner.geolocation := Scanner.geolocation env;
     Scanner.currentUser := Scanner.currentUser env;
     Scanner.scanner_stop := Scanner.scanner_stop env |}.

(** The warnings among the events of the scanner. *)
Fixpoint warnings (l : list Scanner.event) : list Scanner.event :=
  match l with
  | [] => []
  | Scanner.Console Scanner.Warn label p :: l' =>
      Scanner.Console Scanner.Warn label p :: warnings l'
  | _ :: l' => warnings l'
  end.

(** The demonstration collaborators, with a browser whose geolocation
    answers (a failure to locate is reported to the error callback). *)
Definition steady (table : list Scanner.Tree)
  : Scanner.Collaborators Demo.World :=
  {| Scanner.JSON_parse := Builtins.JSON_parse;
     Scanner.URL_new := Builtins.URL_new;
     Scanner.trees_getByQRCode :=
       Scanner.trees_getByQRCode (Demo.env table);
     Scanner.trees_getById := Scanner.trees_getById (Demo.env table);
     Scanner.qrCodes_recordScan :=
       Scanner.qrCodes_recordScan (Demo.env table);
     Scanner.geolocation := fun w =>
       (inr (match Demo.position w with
             | inr g => g
             | inl e => Scanner.GeoError e
             end), w);
     Scanner.currentUser := Demo.user;
     Scanner.scanner_stop := Scanner.scanner_stop (Demo.env table) |}.

(** A client that is there, and an update the store rejects. *)
Definition ready (w : Demo.World) : (string + unit) * Demo.World :=
  (inr tt, w).

Definition rejected (treeId : string) (w : Demo.World)
  : (string + unit) * Demo.World :=
  (inl "new row violates row-level security policy", w).

End QRCodes.

(* ================================================================== *)
(** * Starting the scanner and switching the camera *)
(* ================================================================== *)

Module Lifecycle.

Import Js Async.
Local Open Scope string_scope.
Local Open Scope run_scope.

(** The two values [currentCamera] takes. *)
Inductive Camera : Type := environment | user.

(** The module object: the fields [handleScan] uses, and
    [currentCamera]. *)
Record Module (World : Type) : Type := mkModule {
  base : Scanner.state World;
  currentCamera : Camera
}.

Arguments mkModule {World} _ _.
Arguments base {World} _.
Arguments currentCamera {World} _.

(** The events of the scanner, the calls of [scanner.start] (with the
    camera asked for, and whether the decode handler it registers holds an
    [onSuccess]), and the calls of [onError]. *)
Inductive event : Type :=
| Scan (e : Scanner.event)
| Call_scanner_start (facingMode : Camera) (onSuccess : bool)
| Call_onError (message : string).

Section Methods.

Context {World : Type} (env : Scanner.Collaborators World).

(** [this.scanner.start(...)]. *)
Context (scanner_start : Camera -> World -> (string + unit) * World).

(** A method of the scanner model, run on the module object. *)
Definition lift {A : Type} (m : Scanner.M World A)
  : Run (Module World) event A :=
  fun s =>
    match m (base s) with
    | (r, b, t) =>
        (r, {| base := b; currentCamera := currentCamera s |}, map Scan t)
    end.

Definition console (l : Scanner.level) (label : string) (p : Scanner.payload)
  : Run (Module World) event unit :=
  emit (Scan (Scanner.Console l label p)).

Definition on_world {A : Type} (op : World -> (string + A) * World)
  : Run (Module World) event A :=
  call (fun s =>
          let (r, w) := op (Scanner.world (base s)) in
          (r, {| base := {| Scanner.world := w;
                            Scanner.scanner := Scanner.scanner (base s);
                            Scanner.isScanning :=
                              Scanner.isScanning (base s) |};
                 currentCamera := currentCamera s |})).

Definition set_isScanning (b : bool) : Run (Module World) event unit :=
  write (fun s =>
           {| base := {| Scanner.world := Scanner.world (base s);
                         Scanner.scanner := Scanner.scanner (base s);
                         Scanner.isScanning := b |};
              currentCamera := currentCamera s |}).

(** An [onError] handler: what a call of it does to the world, [inl]
    when it throws. *)
Definition ErrorHandler : Type := string -> World -> (string + unit) * World.

(** [startScanning(onSuccess, onError)]: [onSuccess] tells whether the
    caller passed a success handler (it is only handed on to the decode
    handler), [onError] is the handler passed, if any. *)
Definition startScanning (onSuccess : bool) (onError : option ErrorHandler)
  : Run (Module World) event unit :=
  initialized <- read (fun s => Scanner.scanner (base s)) ;;
  if negb initialized then
    console Scanner.Error "Scanner not initialized" Scanner.PNone
  else
    scanning <- read (fun s => Scanner.isScanning (base s)) ;;
    if scanning then
      console Scanner.Log "Already scanning" Scanner.PNone
    else
      try_catch
        (facingMode <- read currentCamera ;;
         emit (Call_scanner_start facingMode onSuccess) ;;;
         on_world (scanner_start facingMode) ;;;
         set_isScanning true ;;;
         console Scanner.Log "Scanner started" Scanner.PNone)
        (fun error =>
           console Scanner.Error "Failed to start scanner:"
                   (Scanner.PErr error) ;;;
           match onError with
           | Some handler =>
               emit (Call_onError error) ;;;
               on_world (handler error)
           | None => ret tt
           end).

Definition other (c : Camera) : Camera :=
  match c with environment => user | user => environment end.

(** [switchCamera()]. *)
Definition switchCamera : Run (Module World) event unit :=
  write (fun s => {| base := base s;
                     currentCamera := other (currentCamera s) |}) ;;;
  scanning <- read (fun s => Scanner.isScanning (base s)) ;;
  when scanning
    (lift (Scanner.stopScanning env) ;;;
     startScanning false None).

(** The calls of [scanner.start] among a list of events. *)
Fixpoint starts (l : list event) : list (Camera * bool) :=
  match l with
  | [] => []
  | Call_scanner_start c f :: l' => (c, f) :: starts l'
  | _ :: l' => starts l'
  end.

(** The calls of [scanner.stop]. *)
Fixpoint stops (l : list event) : nat :=
  match l with
  | [] => O
  | Scan Scanner.Call_scanner_stop :: l' => S (stops l')
  | _ :: l' => stops l'
  end.

Fixpoint onError_calls (l : list event) : list string :=
  match l with
  | [] => []
  | Call_onError e :: l' => e :: onError_calls l'
  | _ :: l' => onError_calls l'
  end.

(** The fields of the module object. *)
Definition isScanning (s : Module World) : bool :=
  Scanner.isScanning (base s).

Definition scanner (s : Module World) : bool := Scanner.scanner (base s).

Definition world (s : Module World) : World := Scanner.world (base s).

Definition succeeds {A : Type} (r : string + A) : bool :=
  match r with inr _ => true | inl _ => false end.

End Methods.

(** A camera that starts whenever asked, and the scanner module running
    on the rear camera. *)
Definition starting (facingMode : Camera) (w : Demo.World)
  : (string + unit) * Demo.World :=
  (inr tt, w).

Definition running (w : Demo.World) : Module Demo.World :=
  {| base := Demo.scanning w; currentCamera := environment |}.

(** A world in which the camera cannot be stopped. *)
Definition stuck : Demo.World :=
  {| Demo.user := None; Demo.position := inr Scanner.GeoUnsupported;
     Demo.recordScan_error := None;
     Demo.stop_error := Some "Cannot stop, scanner is not running" |}.

End Lifecycle.

(* ================================================================== *)
(** * The registration form: [TreeRegistrationHandler] *)
(* ================================================================== *)

Module Registration.

Import Js Async.
Local Open Scope string_scope.
Local Open Scope run_scope.

(** What the program reads from a [File]. *)
Record File : Type := mkFile {
  file_type : string;
  file_size : Z
}.

(** What the program reads from a row of [user_profiles]: a count, or
    [null]. *)
Record Profile : Type := mkProfile {
  trees_planted : option Z
}.

Inductive payload : Type :=
| PData (v : jsval)
| PTree (tree : Scanner.Tree)
| PText (s : string)
| PErr (message : string).

(** What a run does that can be seen from outside: the events of the
    scanner module and of the achievements it calls, console output, what
    it does to the page, and the calls it issues to the store. *)
Inductive event : Type :=
| Scan (e : Scanner.event)
| Award (e : Achievements.event)
| Console (l : Scanner.level) (label : string) (p : payload)
| Alert (message : string)
| Redirect (href : string)
| Show_loading (show : bool)
| Update_location_display
| Deactivate_steps
| Activate (step : Z)
| Update_progress (currentStep : Z)
| Read_preview (file : File)
| Call_create (treeData : jsval)
| Call_uploadPhoto (treeId : string) (photo : File)
| Call_update (treeId : string) (photo_url : jsval)
| Call_incrementTreeCount (userId : jsval)
| Call_addPoints (userId points : jsval) (reason : string)
| Call_getProfile (userId : jsval)
| Call_checkAndAward (userId : jsval) (treesPlanted : Z)
| Call_showSuccess (tree : Scanner.Tree) (id url : string).

(** The handler object: [currentStep], the fields of [formData] the
    program uses ([undefined] when not set), and [location]. *)
Record Handler (World : Type) : Type := mkHandler {
  world : World;
  currentStep : Z;
  campaign_id : jsval;
  species_id : jsval;
  photo : option File;
  location : jsval
}.

Arguments mkHandler {World} _ _ _ _ _ _.
Arguments world {World} _.
Arguments currentStep {World} _.
Arguments campaign_id {World} _.
Arguments species_id {World} _.
Arguments photo {World} _.
Arguments location {World} _.

(** The page, the browser and the store.  An operation answers [inl]
    when it throws or its promise rejects. *)
Record Page (World : Type) : Type := mkPage {
  (** [navigator.geolocation] and [AuthService]. *)
  scanner_env : Scanner.Collaborators World;
  (** Whether [.form-step[data-step=...]] selects an element. *)
  has_step : Z -> World -> bool;
  (** [updateLocationDisplay()], given [this.location]. *)
  updateLocationDisplay : jsval -> World -> (string + unit) * World;
  (** [new FormData(form)] of the registration form, followed by
      [get('notes')]. *)
  new_FormData : World -> string + jsval;
  (** [Date.now()], [Math.random().toString(36)], and
      [new Date().toISOString().split('T')[0]]. *)
  Date_now : World -> N;
  Math_random36 : World -> string * World;
  today : World -> string;
  trees_create : jsval -> World -> (string + option Scanner.Tree) * World;
  trees_uploadPhoto : string -> File -> World -> (string + jsval) * World;
  trees_update : string -> jsval -> World -> (string + unit) * World;
  users_incrementTreeCount : jsval -> World -> (string + unit) * World;
  users_addPoints : jsval -> jsval -> string -> World -> (string + unit) * World;
  users_getProfile : jsval -> World -> (string + option Profile) * World;
  insert_achievement :
    jsval -> string -> string -> string ->
    World -> (string + Achievements.InsertResponse) * World;
  (** [CONFIG.POINTS?.TREE_PLANTED]. *)
  POINTS_TREE_PLANTED : jsval;
  (** [window.location.origin]. *)
  origin : World -> string;
  (** [showSuccess(tree, { id, url })]. *)
  showSuccess : Scanner.Tree -> string -> string -> World -> (string + unit) * World
}.

Arguments scanner_env {World} _.
Arguments has_step {World} _ _ _.
Arguments updateLocationDisplay {World} _ _ _.
Arguments new_FormData {World} _ _.
Arguments Date_now {World} _ _.
Arguments Math_random36 {World} _ _.
Arguments today {World} _ _.
Arguments trees_create {World} _ _ _.
Arguments trees_uploadPhoto {World} _ _ _ _.
Arguments trees_update {World} _ _ _ _.
Arguments users_incrementTreeCount {World} _ _ _.
Arguments users_addPoints {World} _ _ _ _ _.
Arguments users_getProfile {World} _ _ _.
Arguments insert_achievement {World} _ _ _ _ _ _.
Arguments POINTS_TREE_PLANTED {World} _.
Arguments origin {World} _ _.
Arguments showSuccess {World} _ _ _ _ _.

Section Methods.

Context {World : Type} (page : Page World).

Definition set_world (w : World) (s : Handler World) : Handler World :=
  {| world := w; currentStep := currentStep s;
     campaign_id := campaign_id s; species_id := species_id s;
     photo := photo s; location := location s |}.

Definition set_currentStep (step : Z) (s : Handler World) : Handler World :=
  {| world := world s; currentStep := step;
     campaign_id := campaign_id s; species_id := species_id s;
     photo := photo s; location := location s |}.

Definition set_photo (file : File) (s : Handler World) : Handler World :=
  {| world := world s; currentStep := currentStep s;
     campaign_id := campaign_id s; species_id := species_id s;
     photo := Some file; location := location s |}.

Definition set_location (v : jsval) (s : Handler World) : Handler World :=
  {| world := world s; currentStep := currentStep s;
     campaign_id := campaign_id s; species_id := species_id s;
     photo := photo s; location := v |}.

Definition M (A : Type) : Type := Run (Handler World) event A.

Definition console (l : Scanner.level) (label : string) (p : payload)
  : M unit :=
  emit (Console l label p).

(** An operation on the world. *)
Definition on_world {A : Type} (op : World -> (string + A) * World) : M A :=
  call (fun s => let (r, w) := op (world s) in (r, set_world w s)).

(** An expression that may throw. *)
Definition eval {A : Type} (r : string + A) : M A := fun s => (r, s, []).

(** A method of the scanner module; the ones called here read neither
    [scanner] nor [isScanning]. *)
Definition of_scanner {A : Type} (m : Scanner.M World A) : M A :=
  fun s =>
    match m {| Scanner.world := world s; Scanner.scanner := false;
               Scanner.isScanning := false |} with
    | (r, b, t) => (r, set_world (Scanner.world b) s, map Scan t)
    end.

(** A method of [GreenSprintDB.achievements]. *)
Definition of_achievements {A : Type}
  (m : Run World Achievements.event A) : M A :=
  fun s =>
    match m (world s) with
    | (r, w, t) => (r, set_world w s, map Award t)
    end.

(** ** The steps of the form *)

Definition is_undefined (v : jsval) : bool :=
  match v with VUndefined => true | _ => false end.

Definition is_null (v : jsval) : bool :=
  match v with VNull => true | _ => false end.

(** [validateStep(step)]. *)
Definition validateStep (step : Z) (s : Handler World) : bool :=
  if (step =? 1)%Z then negb (is_undefined (campaign_id s))
  else if (step =? 2)%Z then negb (is_undefined (species_id s))
  else if (step =? 3)%Z then negb (is_null (location s))
  else if (step =? 4)%Z then
    match photo s with Some _ => true | None => false end
  else true.

(** [updateProgress()]. *)
Definition updateProgress : M unit :=
  step <- read currentStep ;;
  emit (Update_progress step).

(** [goToStep(step)], for a whole number [step]. *)
Definition goToStep (step : Z) : M unit :=
  s <- read (fun s => s) ;;
  (* Validate current step before proceeding *)
  if (currentStep s <? step)%Z && negb (validateStep (currentStep s) s)
  then ret tt
  else
    (* Hide current step *)
    emit Deactivate_steps ;;;
    (* Show new step *)
    newStep <- read (fun s => has_step page step (world s)) ;;
    when newStep
      (emit (Activate step) ;;;
       write (set_currentStep step)) ;;;
    (* Update progress *)
    updateProgress.

(** [handlePhotoUpload(file)]; [None] is no file. *)
Definition handlePhotoUpload (file : option File) : M unit :=
  match file with
  | None => ret tt
  | Some file =>
      (* Validate file type *)
      if negb (startsWith (file_type file) "image/")
      then emit (Alert "Please select an image file")
      else
        (* Validate file size (max 5MB) *)
        if (5 * 1024 * 1024 <? file_size file)%Z
        then emit (Alert "Image must be less than 5MB")
        else
          (* Preview *)
          emit (Read_preview file) ;;;
          write (set_photo file)
  end.

(** ** Submitting *)

(** [TreeRegistrationHandler.getCurrentLocation()]. *)
Definition getCurrentLocation : M unit :=
  v <- of_scanner (Scanner.getCurrentLocation (scanner_env page)) ;;
  write (set_location v) ;;;
  when (truthy v)
    (emit Update_location_display ;;;
     on_world (updateLocationDisplay page v)).

(** [AuthService.getUser().id]. *)
Definition getUser_id : M jsval :=
  of_scanner (Scanner.getUser_id (scanner_env page)).

(** [GreenSprintDB.qrCodes.generateId()]. *)
Definition generateId : M string :=
  now <- read (fun s => Date_now page (world s)) ;;
  random36 <- on_world (fun w => let (r, w') := Math_random36 page w in
                                 (inr r, w')) ;;
  ret (ScannerTexts.generateId now random36).

(** The value of [locationData]. *)
Definition locationData (v : jsval) : M jsval :=
  if truthy v then
    longitude <- eval (get_prop v "longitude") ;;
    latitude <- eval (get_prop v "latitude") ;;
    ret (VObj [("type", VStr "Point");
               ("coordinates", VArr [longitude; latitude])])
  else ret VNull.

(** The upload of the photo: optional, the registration goes on if it
    fails. *)
Definition uploadPhoto (tree : Scanner.Tree) : M unit :=
  file <- read photo ;;
  match file with
  | Some file =>
      try_catch
        (console Scanner.Log "Uploading photo for tree:"
                 (PText (Scanner.tree_id tree)) ;;;
         emit (Call_uploadPhoto (Scanner.tree_id tree) file) ;;;
         photoUrl <- on_world
                       (trees_uploadPhoto page (Scanner.tree_id tree) file) ;;
         when (truthy photoUrl)
           (emit (Call_update (Scanner.tree_id tree) photoUrl) ;;;
            on_world (trees_update page (Scanner.tree_id tree) photoUrl) ;;;
            console Scanner.Log "Photo uploaded:" (PData photoUrl)))
        (fun photoError =>
           console Scanner.Warn
                   "Photo upload failed (continuing without photo):"
                   (PErr photoError))
  | None => ret tt
  end.

(** Update user stats. *)
Definition updateStats : M unit :=
  try_catch
    (userId <- getUser_id ;;
     emit (Call_incrementTreeCount userId) ;;;
     on_world (users_incrementTreeCount page userId) ;;;
     userId <- getUser_id ;;
     let points := js_or (POINTS_TREE_PLANTED page) (VNum 50 0) in
     emit (Call_addPoints userId points "Planted a tree") ;;;
     on_world (users_addPoints page userId points "Planted a tree"))
    (fun statsError =>
       console Scanner.Warn "Stats update error:" (PErr statsError)).

(** [profile?.trees_planted || 1]. *)
Definition treesPlanted_of (profile : option Profile) : Z :=
  match profile with
  | Some {| trees_planted := Some n |} => if (n =? 0)%Z then 1%Z else n
  | _ => 1%Z
  end.

(** Check for badge achievements. *)
Definition checkBadges : M unit :=
  try_catch
    (userId <- getUser_id ;;
     emit (Call_getProfile userId) ;;;
     profile <- on_world (users_getProfile page userId) ;;
     userId <- getUser_id ;;
     emit (Call_checkAndAward userId (treesPlanted_of profile)) ;;;
     of_achievements
       (Achievements.checkAndAward (insert_achievement page) userId
          (treesPlanted_of profile)) ;;;
     ret tt)
    (fun badgeError =>
       console Scanner.Warn "Badge check error:" (PErr badgeError)).

(** What follows the creation of the tree record. *)
Definition afterCreate (tree : Scanner.Tree) (qrCodeId : string) : M unit :=
  console Scanner.Log "Tree created:" (PTree tree) ;;;
  uploadPhoto tree ;;;
  updateStats ;;;
  checkBadges ;;;
  (* Show success *)
  base <- read (fun s => origin page (world s)) ;;
  let url := ScannerTexts.registrationUrl base (Scanner.tree_id tree) in
  emit (Call_showSuccess tree qrCodeId url) ;;;
  on_world (showSuccess page tree qrCodeId url).

(** The body of the [try] of [submitTree]. *)
Definition register : M unit :=
  (* Show loading *)
  emit (Show_loading true) ;;;
  (* Gather form data *)
  notes <- on_world (fun w => (new_FormData page w, w)) ;;
  (* Generate unique QR code ID first *)
  qrCodeId <- generateId ;;
  (* Prepare location data *)
  s <- read (fun s => s) ;;
  point <- locationData (location s) ;;
  (* Create tree record first (without photo) *)
  planter_id <- getUser_id ;;
  planting_date <- read (fun s => today page (world s)) ;;
  let treeData :=
    VObj [("campaign_id", js_or (campaign_id s) VNull);
          ("species_id", species_id s);
          ("planter_id", planter_id);
          ("qr_code_id", VStr qrCodeId);
          ("location", point);
          ("latitude", js_or (opt_prop (location s) "latitude") VNull);
          ("longitude", js_or (opt_prop (location s) "longitude") VNull);
          ("planting_date", VStr planting_date);
          ("photo_url", VNull);
          ("health_status", VStr "healthy");
          ("survival_status", VBool true);
          ("notes", js_or notes (VStr EmptyString))] in
  console Scanner.Log "Creating tree with data:" (PData treeData) ;;;
  emit (Call_create treeData) ;;;
  tree <- on_world (trees_create page treeData) ;;
  match tree with
  | None => throw "Failed to create tree record"
  | Some tree =>
      if (Scanner.tree_id tree =? EmptyString)
      then throw "Failed to create tree record"
      else afterCreate tree qrCodeId
  end.

(** The refresh of the location before submitting. *)
Definition refresh : M unit :=
  v <- read location ;;
  when (negb (truthy v)) getCurrentLocation.

(** The statement [try { ... } catch (error) { ... } finally { ... }]. *)
Definition attempt : M unit :=
  finally
    (try_catch register
       (fun error =>
          console Scanner.Error "Tree registration error:" (PErr error) ;;;
          emit (Alert ("Failed to register tree: " ++ error))))
    (emit (Show_loading false)).

(** [submitTree()]. *)
Definition submitTree : M unit :=
  loggedIn <- of_scanner (Scanner.isLoggedIn (scanner_env page)) ;;
  if negb loggedIn then
    emit (Alert "Please log in to register a tree") ;;;
    emit (Redirect "login.html")
  else
    (* Get fresh location before submitting *)
    refresh ;;;
    attempt.

(** ** Selections of events *)

Definition is_loading (e : event) : bool :=
  match e with Show_loading _ => true | _ => false end.

Definition is_create (e : event) : bool :=
  match e with Call_create _ => true | _ => false end.







(** Whether a file passes the checks of [handlePhotoUpload]. *)
Definition acceptable (file : File) : bool :=
  startsWith (file_type file) "image/" && (file_size file <=? 5242880)%Z.

End Methods.

(** ** A page for demonstration *)

(** The demonstration collaborators with somebody signed in whatever
    happens. *)
Definition signed_in : Scanner.Collaborators Demo.World :=
  {| Scanner.JSON_parse := Builtins.JSON_parse;
     Scanner.URL_new := Builtins.URL_new;
     Scanner.trees_getByQRCode := Scanner.trees_getByQRCode (Demo.env []);
     Scanner.trees_getById := Scanner.trees_getById (Demo.env []);
     Scanner.qrCodes_recordScan := Scanner.qrCodes_recordScan (Demo.env []);
     Scanner.geolocation := Scanner.geolocation (Demo.env []);
     Scanner.currentUser :=
       fun _ => Some {| Scanner.user_id := Js.VStr "u1" |};
     Scanner.scanner_stop := Scanner.scanner_stop (Demo.env []) |}.

(** A form of five steps, over a store that creates the tree, has no
    bucket for photos and cannot update the statistics. *)
Definition demo_page (env : Scanner.Collaborators Demo.World)
  : Page Demo.World :=
  {| scanner_env := env;
     has_step := fun step _ => ((1 <=? step) && (step <=? 5))%Z;
     updateLocationDisplay := fun _ w => (inr tt, w);
     new_FormData := fun _ => inr (Js.VStr "by the pond");
     Date_now := fun _ => 1770225330123%N;
     Math_random36 := fun w => ("0.4fzyo82mvyr"%string, w);
     today := fun _ => "2026-02-04"%string;
     trees_create := fun _ w => (inr (Some ScannerTexts.elm), w);
     trees_uploadPhoto := fun _ _ w => (inl "Bucket not found"%string, w);
     trees_update := fun _ _ w => (inr tt, w);
     users_incrementTreeCount :=
       fun _ w => (inl "permission denied for table user_profiles"%string, w);
     users_addPoints := fun _ _ _ w => (inr tt, w);
     users_getProfile :=
       fun _ w => (inr (Some {| trees_planted := Some 5%Z |}), w);
     insert_achievement :=
       fun u b _ _ w =>
         (inr {| Achievements.data :=
                   Some {| Achievements.ach_user_id := u;
                           Achievements.ach_badge_id := b |};
                 Achievements.error := None |}, w);
     POINTS_TREE_PLANTED := Js.VNum 100 0;
     origin := fun _ => "https://app.example"%string;
     showSuccess := fun _ _ _ w => (inr tt, w) |}.

(** A form at its first step, with nothing entered. *)
Definition blank (w : Demo.World) : Handler Demo.World :=
  {| world := w; currentStep := 1; campaign_id := Js.VUndefined;
     species_id := Js.VUndefined; photo := None; location := Js.VNull |}.

(** A form at the photo step, filled in up to there, for a tree planted
    on the equator. *)
Definition at_photo_step (w : Demo.World) : Handler Demo.World :=
  {| world := w; currentStep := 4; campaign_id := Js.VStr "c1";
     species_id := Js.VStr "sp1"; photo := None;
     location :=
       Js.VObj [("latitude"%string, Js.VNum 0 0);
                ("longitude"%string, Js.VNum 367 (-1));
                ("accuracy"%string, Js.VNum 12 0)] |}.

Definition snapshot : File :=
  {| file_type := "image/jpeg"; file_size := 5242880 |}.

Definition leaflet : File :=
  {| file_type := "application/pdf"; file_size := 1024 |}.

End Registration.


(* ================================================================== *)
(** * Properties of the proximity search *)
(* ================================================================== *)

Module GeoProperties.

Import Geo.
Local Open Scope R_scope.

Lemma atan2_0_1 : atan2 0 1 = 0.
Proof.
  unfold atan2.
  destruct (total_order_T 1 0) as [[Hlt | Heq] | Hgt]; try lra.
  replace (0 / 1) with 0 by lra.
  apply atan_0.
Qed.

(** The haversine term [a] does not change when the two points are
    swapped. *)
Lemma haversine_term_sym (lat1 lon1 lat2 lon2 : R) :
  sin ((lat2 - lat1) * PI / 180 / 2) * sin ((lat2 - lat1) * PI / 180 / 2) +
  cos (lat1 * PI / 180) * cos (lat2 * PI / 180) *
  sin ((lon2 - lon1) * PI / 180 / 2) * sin ((lon2 - lon1) * PI / 180 / 2) =
  sin ((lat1 - lat2) * PI / 180 / 2) * sin ((lat1 - lat2) * PI / 180 / 2) +
  cos (lat2 * PI / 180) * cos (lat1 * PI / 180) *
  sin ((lon1 - lon2) * PI / 180 / 2) * sin ((lon1 - lon2) * PI / 180 / 2).
Proof.
  replace ((lat1 - lat2) * PI / 180 / 2)
    with (- ((lat2 - lat1) * PI / 180 / 2)) by lra.
  replace ((lon1 - lon2) * PI / 180 / 2)
    with (- ((lon2 - lon1) * PI / 180 / 2)) by lra.
  rewrite !sin_neg. ring.
Qed.

(** C9. The haversine distance of a point to itself is 0, and the
    distance from A to B equals the distance from B to A. *)
Theorem calculateDistance_self_and_sym :
  (forall lat lon, calculateDistance lat lon lat lon = 0) /\
  (forall lat1 lon1 lat2 lon2,
     calculateDistance lat1 lon1 lat2 lon2 =
     calculateDistance lat2 lon2 lat1 lon1).
Proof.
  split.
  - intros lat lon. unfold calculateDistance.
    replace ((lat - lat) * PI / 180 / 2) with 0 by lra.
    replace ((lon - lon) * PI / 180 / 2) with 0 by lra.
    rewrite sin_0.
    replace (0 * 0 + cos (lat * PI / 180) * cos (lat * PI / 180) * 0 * 0)
      with 0 by ring.
    rewrite Rminus_0_r, sqrt_0, sqrt_1, atan2_0_1. ring.
  - intros lat1 lon1 lat2 lon2. unfold calculateDistance.
    rewrite (haversine_term_sym lat1 lon1 lat2 lon2). reflexivity.
Qed.

(** ** The exact filter and the sort *)

Lemma keep_within (lat lng radiusKm : R) (c c' : Campaign) :
  keep lat lng radiusKm c = Some c' -> within lat lng radiusKm c'.
Proof.
  unfold keep, within.
  destruct (negb (truthy_num (latitude c)) || negb (truthy_num (longitude c)));
    [discriminate |].
  destruct (latitude c) as [clat |] eqn:Hlat; [| discriminate].
  destruct (longitude c) as [clng |] eqn:Hlng; [| discriminate].
  destruct (Rle_dec (calculateDistance lat lng clat clng) radiusKm)
    as [Hle | Hgt]; [| discriminate].
  intros H. injection H as <-. simpl.
  exists clat, clng. auto.
Qed.

Lemma filter_keep_within (lat lng radiusKm : R) (rows : list Campaign) :
  Forall (within lat lng radiusKm) (filter_keep lat lng radiusKm rows).
Proof.
  induction rows as [| c rows IH]; simpl.
  - constructor.
  - destruct (keep lat lng radiusKm c) as [c' |] eqn:Hkeep.
    + constructor; [eapply keep_within; eassumption | exact IH].
    + exact IH.
Qed.

Lemma insert_by_distance_perm (c : Campaign) (l : list Campaign) :
  Permutation (c :: l) (insert_by_distance c l).
Proof.
  induction l as [| c' l IH]; simpl.
  - apply Permutation_refl.
  - destruct (Rle_dec (dist c - dist c') 0).
    + apply Permutation_refl.
    + eapply perm_trans; [apply perm_swap |].
      apply perm_skip. exact IH.
Qed.

Lemma sort_by_distance_perm (l : list Campaign) :
  Permutation l (sort_by_distance l).
Proof.
  induction l as [| c l IH]; simpl.
  - constructor.
  - eapply perm_trans; [| apply insert_by_distance_perm].
    apply perm_skip. exact IH.
Qed.

Lemma insert_by_distance_sorted (c : Campaign) (l : list Campaign) :
  StronglySorted le_dist l -> StronglySorted le_dist (insert_by_distance c l).
Proof.
  induction l as [| c' l IH]; simpl; intros Hs.
  - constructor; constructor.
  - inversion Hs as [| ? ? Hl Hall]; subst.
    destruct (Rle_dec (dist c - dist c') 0) as [Hle | Hgt].
    + constructor; [exact Hs |].
      constructor; [unfold le_dist; lra |].
      eapply Forall_impl; [| exact Hall].
      unfold le_dist. intros x Hx. lra.
    + constructor; [apply IH; exact Hl |].
      eapply Permutation_Forall; [apply insert_by_distance_perm |].
      constructor; [unfold le_dist; lra | exact Hall].
Qed.

Lemma sort_by_distance_sorted (l : list Campaign) :
  StronglySorted le_dist (sort_by_distance l).
Proof.
  induction l as [| c l IH]; simpl.
  - constructor.
  - apply insert_by_distance_sorted. exact IH.
Qed.

(** C4. Whatever rows the store answers with, every row [getNearby]
    returns lies within [radiusKm] of the center by the haversine
    distance, and the rows come in ascending order of that distance.
    [getNearby] throws exactly when the store reports an error. *)
Theorem getNearby_within_radius_sorted
  (query : Box -> Response) (lat lng radiusKm : R) :
  match getNearby query lat lng radiusKm with
  | inl e => error (query (boundingBox lat lng radiusKm)) = Some e
  | inr result =>
      error (query (boundingBox lat lng radiusKm)) = None /\
      Forall (within lat lng radiusKm) result /\
      StronglySorted le_dist result
  end.
Proof.
  unfold getNearby.
  destruct (error (query (boundingBox lat lng radiusKm))) as [e |].
  - reflexivity.
  - split; [reflexivity |]. split.
    + eapply Permutation_Forall; [apply sort_by_distance_perm |].
      apply filter_keep_within.
    + apply sort_by_distance_sorted.
Qed.

(** ** Coordinates that are the number 0 *)

Lemma filter_keep_app (lat lng radiusKm : R) (l1 l2 : list Campaign) :
  filter_keep lat lng radiusKm (l1 ++ l2) =
  filter_keep lat lng radiusKm l1 ++ filter_keep lat lng radiusKm l2.
Proof.
  induction l1 as [| c l1 IH]; simpl.
  - reflexivity.
  - destruct (keep lat lng radiusKm c); simpl; rewrite IH; reflexivity.
Qed.

Lemma truthy_num_zero : truthy_num (Some 0) = false.
Proof.
  unfold truthy_num. destruct (Req_dec_T 0 0) as [_ | Hne].
  - reflexivity.
  - exfalso. apply Hne. reflexivity.
Qed.

(** C10. A row whose latitude or longitude is the number 0 fails the
    presence test of the filter just as a row without coordinates does:
    it is dropped whatever its distance from the center, so the result is
    the one obtained with the row stripped of its coordinates, or with no
    such row at all. *)
Theorem getNearby_drops_zero_coordinate
  (lat lng radiusKm : R) (c : Campaign) (rows1 rows2 : list Campaign) :
  latitude c = Some 0 \/ longitude c = Some 0 ->
  keep lat lng radiusKm c = None /\
  keep lat lng radiusKm c = keep lat lng radiusKm (without_coordinates c) /\
  getNearby (store_returning (rows1 ++ c :: rows2)) lat lng radiusKm =
  getNearby (store_returning (rows1 ++ without_coordinates c :: rows2))
            lat lng radiusKm /\
  getNearby (store_returning (rows1 ++ c :: rows2)) lat lng radiusKm =
  getNearby (store_returning (rows1 ++ rows2)) lat lng radiusKm.
Proof.
  intros Hzero.
  assert (Hkeep : keep lat lng radiusKm c = None).
  { unfold keep. destruct Hzero as [H | H]; rewrite H, truthy_num_zero.
    - reflexivity.
    - rewrite orb_true_r. reflexivity. }
  assert (Hkeep' : keep lat lng radiusKm (without_coordinates c) = None)
    by reflexivity.
  split; [exact Hkeep |]. split; [congruence |].
  unfold getNearby, store_returning. simpl.
  rewrite !filter_keep_app. simpl. rewrite Hkeep. auto.
Qed.

(** A row on the equator and the prime meridian, at the center of the
    search, is at distance 0 and still dropped. *)
Lemma getNearby_drops_zero_coordinate_witness :
  let c := {| campaign_id := 1; latitude := Some 0; longitude := Some 0;
              distance := None |} in
  keep 0 0 200 c = None /\
  keep 0 0 200 c = keep 0 0 200 (without_coordinates c) /\
  getNearby (store_returning ([] ++ c :: [])) 0 0 200 =
  getNearby (store_returning ([] ++ without_coordinates c :: [])) 0 0 200 /\
  getNearby (store_returning ([] ++ c :: [])) 0 0 200 =
  getNearby (store_returning ([] ++ [])) 0 0 200.
Proof.
  intros c.
  apply (getNearby_drops_zero_coordinate 0 0 200 c [] []).
  left. reflexivity.
Defined.

(** ** The bounding box *)





End GeoProperties.

(* ================================================================== *)
(** * Properties of the scanner *)
(* ================================================================== *)

Module ScannerProperties.

Import Js Scanner.
Local Open Scope string_scope.

(** ** Classification *)

Section Classification.

Context {World : Type} (env : Collaborators World).

Lemma searchParams_get_cases (params : list (string * string)) (name : string) :
  searchParams_get params name = VNull \/
  exists s, searchParams_get params name = VStr s.
Proof.
  induction params as [| [k v] params IH]; simpl.
  - left. reflexivity.
  - destruct (k =? name); [right; exists v; reflexivity | exact IH].
Qed.

Lemma split_from_not_nil (sep : ascii) (s : string) (cur : list ascii) :
  split_from sep cur s <> [].
Proof.
  revert cur. induction s as [| c s IH]; simpl; intros cur.
  - discriminate.
  - destruct (Ascii.eqb c sep); [discriminate | apply IH].
Qed.

Lemma pop_split_string (s : string) (sep : ascii) :
  exists x, pop (split s sep) = VStr x.
Proof.
  unfold pop, split.
  destruct (rev (split_from sep [] s)) as [| x l] eqn:Hrev.
  - exfalso. apply (split_from_not_nil sep s []).
    rewrite <- (rev_involutive (split_from sep [] s)), Hrev. reflexivity.
  - exists x. reflexivity.
Qed.

(** The URL rule always names a string, possibly the empty one. *)
Lemma urlRule_id_string (data : string) (info : QRInfo) :
  urlRule env data = Some info ->
  valid info = true /\ type info = Some url /\ exists s, id info = VStr s.
Proof.
  unfold urlRule.
  destruct (includes data "http" || includes data "tree-details");
    [| discriminate].
  destruct (URL_new env data) as [u |]; [| discriminate].
  intros H. injection H as <-. simpl.
  split; [reflexivity |]. split; [reflexivity |].
  destruct (pop_split_string (pathname u) "/") as [x Hx]. rewrite Hx.
  destruct (searchParams_get_cases (searchParams u) "qr") as [-> | [q ->]];
    destruct (searchParams_get_cases (searchParams u) "id") as [-> | [t ->]];
    unfold js_or; simpl;
    repeat match goal with
           | |- context [negb (?a =? EmptyString)] =>
               destruct (negb (a =? EmptyString)); simpl
           end; eauto.
Qed.

Lemma startsWith_not_empty (data p : string) :
  startsWith data p = true -> p <> EmptyString -> data <> EmptyString.
Proof.
  intros H Hp ->. destruct p; [congruence | discriminate].
Qed.

Lemma match_uuid_not_empty (data : string) :
  match_uuid data = true -> data <> EmptyString.
Proof.
  intros H ->. discriminate.
Qed.

(** What the rules after the JSON rule return. *)
Lemma laterRules_cases (data : string) :
  let info := laterRules env data in
  (info = invalid unknown_format) \/
  (valid info = true /\ type info = Some url /\
   exists s, id info = VStr s) \/
  (valid info = true /\
   (type info = Some gs_format \/ type info = Some uuid) /\
   id info = VStr data /\ data <> EmptyString).
Proof.
  unfold laterRules.
  destruct (startsWith data "GS-") eqn:Hgs.
  - right. right. simpl. repeat split; auto.
    eapply startsWith_not_empty; [eassumption | discriminate].
  - destruct (urlRule env data) as [info |] eqn:Hurl.
    + right. left. eapply urlRule_id_string. eassumption.
    + destruct (match_uuid data) eqn:Huuid.
      * right. right. simpl. repeat split; auto.
        apply match_uuid_not_empty. assumption.
      * left. reflexivity.
Qed.

(** What the JSON rule returns when nothing throws. *)
Lemma parseQRCode_try_json (data : string) (info : QRInfo) :
  startsWith data "{" = true ->
  parseQRCode_try env data = inr info ->
  exists parsed,
    JSON_parse env data = inr parsed /\
    info = {| valid := true;
              id := js_or (opt_prop parsed "id") (opt_prop parsed "qr_code_id");
              type := Some json; data := parsed; error := None |}.
Proof.
  unfold parseQRCode_try. intros -> H.
  destruct (JSON_parse env data) as [msg | parsed]; [discriminate |].
  exists parsed. split; [reflexivity |].
  unfold js_or.
  destruct parsed; simpl in H; try discriminate;
    try (injection H as <-; reflexivity).
  destruct (truthy (obj_get props "id")) eqn:Hid; simpl in H;
    injection H as <-; simpl; rewrite Hid; reflexivity.
Qed.

(** C1, amended. A result is invalid exactly when it has no type.  A
    valid result of the Green Sprint or the UUID rule names the input
    itself, which is not empty.  A valid result of the URL rule names a
    string, and a valid result of the JSON rule names whatever
    [parsed.id || parsed.qr_code_id] evaluates to. *)
Theorem parseQRCode_invariant (data : string) :
  let info := snd (parseQRCode env data) in
  (valid info = false <-> type info = None) /\
  (valid info = true ->
   match type info with
   | Some gs_format | Some uuid =>
       id info = VStr data /\ data <> EmptyString
   | Some url => exists s, id info = VStr s
   | Some json =>
       exists parsed,
         JSON_parse env data = inr parsed /\
         id info = js_or (opt_prop parsed "id") (opt_prop parsed "qr_code_id")
   | None => False
   end).
Proof.
  unfold parseQRCode.
  destruct (parseQRCode_try env data) as [message | info] eqn:Htry; simpl.
  - split; [split; reflexivity | discriminate].
  - destruct (startsWith data "{") eqn:Hbrace.
    + destruct (parseQRCode_try_json data info Hbrace Htry)
        as [parsed [Hparsed ->]]; simpl.
      split; [split; discriminate |].
      intros _. exists parsed. auto.
    + unfold parseQRCode_try in Htry. rewrite Hbrace in Htry.
      injection Htry as <-.
      destruct (laterRules_cases data)
        as [-> | [[Hv [Ht [x Hx]]] | [Hv [Ht [Hid Hne]]]]]; simpl.
      * split; [split; reflexivity | discriminate].
      * rewrite Hv, Ht. split; [split; discriminate |]. eauto.
      * rewrite Hv. split.
        { destruct Ht as [-> | ->]; split; discriminate. }
        destruct Ht as [-> | ->]; auto.
Qed.

(** C2, amended. When the input begins with a brace and [JSON.parse]
    throws, the outer [catch] returns at once: an invalid result carrying
    the message of the error, a parse error written to the console, and
    none of the later rules consulted. *)
Theorem parseQRCode_json_failure (data message : string) :
  startsWith data "{" = true ->
  JSON_parse env data = inl message ->
  parseQRCode env data =
    ([Console Log "Parsing QR data:" (PStr data);
      Console Error "Parse error:" (PErr message)],
     invalid message).
Proof.
  intros Hbrace Hjson.
  unfold parseQRCode, parseQRCode_try.
  rewrite Hbrace, Hjson. reflexivity.
Qed.

End Classification.

Lemma parseQRCode_invariant_witness :
  id (snd (parseQRCode (Demo.env []) "GS-1-A")) = VStr "GS-1-A" /\
  "GS-1-A" <> EmptyString.
Proof.
  exact (proj2 (parseQRCode_invariant (Demo.env []) "GS-1-A") eq_refl).
Defined.

(** C1, as stated, fails: the text of an empty JSON object is valid
    without any id, and a URL without parameters whose path ends in a
    slash is valid with the empty string as its id. *)
Lemma valid_result_without_id :
  snd (parseQRCode (Demo.env []) "{}") =
    {| valid := true; id := VUndefined; type := Some json;
       data := VObj []; error := None |} /\
  is_nonempty_string (id (snd (parseQRCode (Demo.env []) "{}"))) = false /\
  snd (parseQRCode (Demo.env []) "http://example.com/") =
    {| valid := true; id := VStr EmptyString; type := Some url;
       data := VObj [("tree_id", VNull); ("qr_code_id", VNull)];
       error := None |} /\
  is_nonempty_string
    (id (snd (parseQRCode (Demo.env []) "http://example.com/"))) = false.
Proof.
  repeat split; vm_compute; reflexivity.
Qed.

Lemma parseQRCode_json_failure_witness :
  parseQRCode (Demo.env []) "{oops" =
    ([Console Log "Parsing QR data:" (PStr "{oops");
      Console Error "Parse error:" (PErr Builtins.syntax_error)],
     invalid Builtins.syntax_error).
Proof.
  apply (parseQRCode_json_failure (Demo.env []) "{oops" Builtins.syntax_error);
    vm_compute; reflexivity.
Defined.

(** C2, as stated, fails: on a text that begins with a brace and does not
    decode, the result is not the one the later rules give; it carries
    the decoder's message instead of theirs. *)
Lemma no_fall_through_after_json_failure :
  startsWith "{oops" "{" = true /\
  JSON_parse (Demo.env []) "{oops" = inl Builtins.syntax_error /\
  snd (parseQRCode (Demo.env []) "{oops") = invalid Builtins.syntax_error /\
  laterRules (Demo.env []) "{oops" = invalid unknown_format /\
  snd (parseQRCode (Demo.env []) "{oops") <> laterRules (Demo.env []) "{oops".
Proof.
  repeat split; try (vm_compute; reflexivity).
  vm_compute. discriminate.
Qed.

(** ** Runs of [handleScan] *)

Section Runs.

Context {World : Type} (env : Collaborators World).

Lemma lookups_app (l1 l2 : list event) :
  lookups (l1 ++ l2) = (lookups l1 ++ lookups l2)%list.
Proof.
  induction l1 as [| e l1 IH]; simpl; [reflexivity |].
  destruct e; simpl; rewrite ?IH; reflexivity.
Qed.

Lemma callbacks_app (l1 l2 : list event) :
  callbacks (l1 ++ l2) = (callbacks l1 ++ callbacks l2)%list.
Proof.
  induction l1 as [| e l1 IH]; simpl; [reflexivity |].
  destruct e; simpl; rewrite ?IH; reflexivity.
Qed.

(** [parseQRCode] writes to the console and does nothing else. *)
Lemma parseQRCode_console_only (data : string) :
  lookups (fst (parseQRCode env data)) = [] /\
  callbacks (fst (parseQRCode env data)) = [].
Proof.
  unfold parseQRCode.
  destruct (parseQRCode_try env data); simpl; auto.
Qed.




(** ** The lookups of a run in which nothing is found *)

Lemma lookups_map_call (l : list (field * jsval)) :
  lookups (map call l) = l.
Proof.
  induction l as [| [[|] v] l IH]; simpl; rewrite ?IH; reflexivity.
Qed.

Lemma callbacks_map_call (l : list (field * jsval)) :
  callbacks (map call l) = [].
Proof.
  induction l as [| [[|] v] l IH]; simpl; rewrite ?IH; reflexivity.
Qed.

Ltac miss_step Hq Hi :=
  match goal with
  | |- context [trees_getByQRCode env ?v ?w] =>
      let H := fresh in
      pose proof (Hq v w) as H;
      destruct (trees_getByQRCode env v w) as [? ?];
      simpl in H; subst; simpl
  | |- context [trees_getById env ?v ?w] =>
      let H := fresh in
      pose proof (Hi v w) as H;
      destruct (trees_getById env v w) as [? ?];
      simpl in H; subst; simpl
  end.

(** While every lookup misses, [findTree] issues the lookups of
    [lookupPlan], in that order, and ends with no tree. *)
Lemma findTree_all_miss (qrInfo : QRInfo) (s : state World) :
  misses (trees_getByQRCode env) ->
  misses (trees_getById env) ->
  id_usable (id qrInfo) = true ->
  returned (findTree env qrInfo s) = inr None /\
  trace (findTree env qrInfo s) = map call (lookupPlan qrInfo).
Proof.
  intros Hq Hi Hid.
  destruct qrInfo as [v i t d e]. simpl in Hid.
  unfold findTree, lookupPlan, getByQRCode, getById, startsWith_method,
    bind, ext, emit, ret, throw, returned, trace, is_null.
  cbn [id data type valid error].
  destruct (truthy (opt_prop d "tree_id"));
    destruct (truthy (opt_prop d "qr_code_id"));
    destruct t as [[| | |] |];
    destruct i; simpl in Hid |- *;
    try discriminate;
    repeat match goal with
           | |- context [negb (num_is_zero ?m ?e)] =>
               destruct (num_is_zero m e); simpl in Hid |- *;
               try discriminate
           | |- context [negb (?a =? EmptyString)] =>
               destruct (a =? EmptyString); simpl
           | |- context [startsWith ?a ?b] =>
               destruct (startsWith a b); simpl
           | Hb : negb ?b = true |- _ => destruct b; simpl in Hb |- *;
               try discriminate
           end;
    repeat miss_step Hq Hi;
    auto.
Qed.

Lemma lookupPlan_ends_with_fallback (qrInfo : QRInfo) :
  exists earlier,
    lookupPlan qrInfo =
    (earlier ++ [(CodeId, id qrInfo); (RecordId, id qrInfo)])%list.
Proof.
  unfold lookupPlan. eexists. rewrite !app_assoc. reflexivity.
Qed.

Lemma handleScan_all_miss (data : string) (s : state World) :
  misses (trees_getByQRCode env) ->
  misses (trees_getById env) ->
  valid (snd (parseQRCode env data)) = true ->
  id_usable (id (snd (parseQRCode env data))) = true ->
  returned (handleScan env data true s) = inr tt /\
  trace (handleScan env data true s) =
    (Console Log "Processing scanned QR:" (PStr data)
     :: fst (parseQRCode env data)
     ++ Console Log "Parsed QR info:" (PInfo (snd (parseQRCode env data)))
     :: map call (lookupPlan (snd (parseQRCode env data)))
     ++ [Console Error "Scan handling error:" (PErr tree_not_found);
         Callback (Failure tree_not_found)])%list.
Proof.
  intros Hq Hi Hvalid Hid.
  destruct (findTree_all_miss (snd (parseQRCode env data)) s Hq Hi Hid)
    as [Hr Ht].
  unfold handleScan, try_catch, bind, console, emit, emit_all, when, throw.
  rewrite Hvalid. simpl.
  destruct (findTree env (snd (parseQRCode env data)) s) as [[r s1] t1].
  unfold returned, trace in Hr, Ht. simpl in Hr, Ht. subst r t1. simpl.
  split; [reflexivity |].
  rewrite <- !app_assoc. simpl. rewrite <- !app_assoc. reflexivity.
Qed.

(** C5, amended. When the parse result is valid, its id is falsy or a
    string, and every lookup misses, the lookups [handleScan] issues are
    those of [lookupPlan]: they always end with the id looked up as a QR
    code id and then as a tree id, whether or not the same lookup was
    issued before. *)
Theorem handleScan_lookups_end_with_fallback
  (data : string) (s : state World) :
  misses (trees_getByQRCode env) ->
  misses (trees_getById env) ->
  valid (snd (parseQRCode env data)) = true ->
  id_usable (id (snd (parseQRCode env data))) = true ->
  lookups (trace (handleScan env data true s)) =
    lookupPlan (snd (parseQRCode env data)) /\
  exists earlier,
    lookups (trace (handleScan env data true s)) =
    (earlier ++ [(CodeId, id (snd (parseQRCode env data)));
                 (RecordId, id (snd (parseQRCode env data)))])%list.
Proof.
  intros Hq Hi Hvalid Hid.
  destruct (handleScan_all_miss data s Hq Hi Hvalid Hid) as [_ Ht].
  assert (Hl : lookups (trace (handleScan env data true s)) =
               lookupPlan (snd (parseQRCode env data))).
  { rewrite Ht. simpl.
    rewrite lookups_app. simpl. rewrite lookups_app, lookups_map_call.
    destruct (parseQRCode_console_only data) as [-> _]. simpl.
    apply app_nil_r. }
  split; [exact Hl |].
  rewrite Hl. apply lookupPlan_ends_with_fallback.
Qed.

(** ** Runs in which a tree is found *)

Ltac run_step :=
  match goal with
  | |- context [currentUser env ?w] =>
      destruct (currentUser env w) eqn:?
  | |- context [geolocation env ?w] =>
      destruct (geolocation env w) as [[? | [| ? ? ? | ?]] ?] eqn:?
  | |- context [qrCodes_recordScan env ?a ?b ?c ?w] =>
      destruct (qrCodes_recordScan env a b c w) as [[? | ?] ?] eqn:?
  | |- context [scanner_stop env ?w] =>
      destruct (scanner_stop env w) as [[? | ?] ?] eqn:?
  end; simpl.

Ltac unfold_methods :=
  unfold afterFound, recordIfLoggedIn, isLoggedIn, recordScanAttempt,
    getCurrentLocation, getUser_id, stopScanning, try_catch, bind, when,
    read, ext, emit, console, ret, throw, set_isScanning, returned, trace.

(** Whatever the collaborators do once a tree is held, [afterFound]
    returns normally, looks nothing up, and calls back exactly once, with
    success and that tree. *)
Lemma afterFound_safe (qrInfo : QRInfo) (tree : Tree) (callback : bool)
                      (s : state World) :
  returned (afterFound env qrInfo tree callback s) = inr tt /\
  lookups (trace (afterFound env qrInfo tree callback s)) = [] /\
  callbacks (trace (afterFound env qrInfo tree callback s)) =
    if callback
    then [Success tree (js_or (tree_qr_code_id tree) (id qrInfo))
                  "Tree found successfully!"]
    else [].
Proof.
  destruct s as [w sc isc]. unfold_methods. simpl.
  repeat run_step;
    destruct sc, isc; simpl; repeat run_step;
    destruct callback; simpl; auto.
Qed.

(** A failed attempt to record the scan ends in the console. *)
Lemma afterFound_warns (qrInfo : QRInfo) (tree : Tree) (callback : bool)
                       (s s' : state World) (u : User) (e : string)
                       (t : list event) :
  currentUser env (world s) = Some u ->
  recordScanAttempt env qrInfo tree s = (inl e, s', t) ->
  In (Console Warn "Could not record scan:" (PErr e))
     (trace (afterFound env qrInfo tree callback s)).
Proof.
  intros Hu Hattempt.
  unfold afterFound, recordIfLoggedIn, isLoggedIn.
  unfold try_catch, bind, read, ret, when, console, emit, trace at 1.
  rewrite Hu. simpl. rewrite Hattempt. simpl.
  match goal with
  | |- context [stopScanning env ?st] =>
      destruct (stopScanning env st) as [[[? | ?] ?] ?]
  end; simpl.
  - apply in_or_app. left. apply in_or_app. right. left. reflexivity.
  - destruct callback; simpl;
      apply in_or_app; left; apply in_or_app; right; left; reflexivity.
Qed.

Lemma handleScan_found (data : string) (callback : bool)
                       (s s1 : state World) (tree : Tree) (t : list event) :
  valid (snd (parseQRCode env data)) = true ->
  findTree env (snd (parseQRCode env data)) s = (inr (Some tree), s1, t) ->
  returned (handleScan env data callback s) = inr tt /\
  trace (handleScan env data callback s) =
    (Console Log "Processing scanned QR:" (PStr data)
     :: fst (parseQRCode env data)
     ++ Console Log "Parsed QR info:" (PInfo (snd (parseQRCode env data)))
     :: t
     ++ trace (afterFound env (snd (parseQRCode env data)) tree callback s1))%list.
Proof.
  intros Hvalid Hfind.
  destruct (afterFound_safe (snd (parseQRCode env data)) tree callback s1)
    as [Hr _].
  destruct (afterFound env (snd (parseQRCode env data)) tree callback s1)
    as [[r s2] t2] eqn:Hafter.
  unfold returned in Hr. simpl in Hr. subst r.
  assert (Hrun : handleScan env data callback s =
    (inr tt, s2,
     (Console Log "Processing scanned QR:" (PStr data)
      :: fst (parseQRCode env data)
      ++ Console Log "Parsed QR info:" (PInfo (snd (parseQRCode env data)))
      :: t ++ t2)%list)).
  { unfold handleScan, try_catch, bind, console, emit, emit_all, when, throw.
    rewrite Hvalid. cbn [negb]. unfold ret.
    rewrite Hfind, Hafter. reflexivity. }
  rewrite Hrun. split; reflexivity.
Qed.

(** [findTree] never calls back, whatever the store answers. *)
Lemma bind_no_callbacks {A B : Type} (m : M World A) (f : A -> M World B) :
  (forall s, callbacks (trace (m s)) = []) ->
  (forall a s, callbacks (trace (f a s)) = []) ->
  forall s, callbacks (trace (bind m f s)) = [].
Proof.
  intros Hm Hf s. unfold bind. specialize (Hm s).
  destruct (m s) as [[[e | a] s1] t1]; unfold trace in *; simpl in *.
  - exact Hm.
  - specialize (Hf a s1). destruct (f a s1) as [[r s2] t2]. simpl in *.
    rewrite callbacks_app, Hm, Hf. reflexivity.
Qed.

Lemma getByQRCode_no_callbacks (v : jsval) (s : state World) :
  callbacks (trace (getByQRCode env v s)) = [].
Proof.
  unfold getByQRCode, bind, emit, ext, trace.
  destruct (trees_getByQRCode env v (world s)) as [[? | ?] ?]; reflexivity.
Qed.

Lemma getById_no_callbacks (v : jsval) (s : state World) :
  callbacks (trace (getById env v s)) = [].
Proof.
  unfold getById, bind, emit, ext, trace.
  destruct (trees_getById env v (world s)) as [[? | ?] ?]; reflexivity.
Qed.

Lemma findTree_no_callbacks (qrInfo : QRInfo) (s : state World) :
  callbacks (trace (findTree env qrInfo s)) = [].
Proof.
  revert s. unfold findTree.
  repeat (apply bind_no_callbacks; [| intros ?]);
    try match goal with
        | |- forall s, callbacks (trace ((if ?c then _ else _) s)) = [] =>
            destruct c
        end;
    intros s;
    try apply getByQRCode_no_callbacks;
    try apply getById_no_callbacks;
    try reflexivity.
  unfold startsWith_method. destruct (id qrInfo); reflexivity.
Qed.

(** C6. Once [findTree] has returned a tree, [handleScan] returns
    normally and calls back exactly once, with success and that tree,
    whatever the location fetch and [recordScan] do; when the attempt to
    record the scan throws, the error is written to the console as a
    warning. *)
Theorem handleScan_recording_failure_harmless
  (data : string) (s s1 : state World) (tree : Tree) (t : list event) :
  valid (snd (parseQRCode env data)) = true ->
  findTree env (snd (parseQRCode env data)) s = (inr (Some tree), s1, t) ->
  returned (handleScan env data true s) = inr tt /\
  callbacks (trace (handleScan env data true s)) =
    [Success tree
       (js_or (tree_qr_code_id tree) (id (snd (parseQRCode env data))))
       "Tree found successfully!"] /\
  (forall (u : User) (e : string) (s2 : state World) (t2 : list event),
     currentUser env (world s1) = Some u ->
     recordScanAttempt env (snd (parseQRCode env data)) tree s1
       = (inl e, s2, t2) ->
     In (Console Warn "Could not record scan:" (PErr e))
        (trace (handleScan env data true s))).
Proof.
  intros Hvalid Hfind.
  destruct (handleScan_found data true s s1 tree t Hvalid Hfind) as [Hr Ht].
  destruct (afterFound_safe (snd (parseQRCode env data)) tree true s1)
    as [_ [_ Hcb]].
  split; [exact Hr |]. split.
  - rewrite Ht. simpl.
    rewrite callbacks_app. simpl. rewrite callbacks_app, Hcb.
    destruct (parseQRCode_console_only data) as [_ ->].
    pose proof (findTree_no_callbacks (snd (parseQRCode env data)) s) as Hf.
    rewrite Hfind in Hf. unfold trace in Hf. simpl in Hf. rewrite Hf.
    reflexivity.
  - intros u e s2 t2 Hu Hattempt. rewrite Ht.
    right. apply in_or_app. right. right. apply in_or_app. right.
    eapply afterFound_warns; eassumption.
Qed.

(** ** The end-to-end scenario of a locator URL *)

Lemma parseQRCode_locator :
  URL_new env Demo.locator =
    Some {| searchParams := [("id", "abc123"); ("qr", "GS-999")];
            pathname := "/tree-details.html" |} ->
  parseQRCode env Demo.locator =
    ([Console Log "Parsing QR data:" (PStr Demo.locator)],
     {| valid := true; id := VStr "GS-999"; type := Some url;
        data := VObj [("tree_id", VStr "abc123");
                      ("qr_code_id", VStr "GS-999")];
        error := None |}).
Proof.
  intros Hurl.
  unfold parseQRCode, parseQRCode_try, laterRules, urlRule.
  change (startsWith Demo.locator "{") with false.
  change (startsWith Demo.locator "GS-") with false.
  change (includes Demo.locator "http") with true.
  cbn [orb]. rewrite Hurl. reflexivity.
Qed.

(** C3. For the scanned text
    [https://app.example/tree-details.html?id=abc123&qr=GS-999] the
    lookups are issued in the order QR code id [GS-999] first, tree id
    [abc123] second; and when the first lookup returns a tree,
    [handleScan] calls back with success and that tree having issued no
    other lookup. *)
Theorem handleScan_locator_scenario (s : state World) :
  URL_new env Demo.locator =
    Some {| searchParams := [("id", "abc123"); ("qr", "GS-999")];
            pathname := "/tree-details.html" |} ->
  (misses (trees_getByQRCode env) ->
   misses (trees_getById env) ->
   lookups (trace (handleScan env Demo.locator true s)) =
     [(CodeId, VStr "GS-999"); (RecordId, VStr "abc123");
      (CodeId, VStr "GS-999"); (CodeId, VStr "GS-999");
      (RecordId, VStr "GS-999")]) /\
  (forall (tree : Tree) (w : World),
     trees_getByQRCode env (VStr "GS-999") (world s) = (inr (Some tree), w) ->
     returned (handleScan env Demo.locator true s) = inr tt /\
     lookups (trace (handleScan env Demo.locator true s)) =
       [(CodeId, VStr "GS-999")] /\
     callbacks (trace (handleScan env Demo.locator true s)) =
       [Success tree (js_or (tree_qr_code_id tree) (VStr "GS-999"))
                "Tree found successfully!"]).
Proof.
  intros Hurl. pose proof (parseQRCode_locator Hurl) as Hparse.
  split.
  - intros Hq Hi.
    destruct (handleScan_all_miss Demo.locator s Hq Hi) as [_ Ht];
      try (rewrite Hparse; reflexivity).
    rewrite Ht, Hparse. reflexivity.
  - intros tree w Hhit.
    assert (Hfind :
      findTree env (snd (parseQRCode env Demo.locator)) s =
      (inr (Some tree),
       {| world := w; scanner := scanner s; isScanning := isScanning s |},
       [Call_getByQRCode (VStr "GS-999")])).
    { rewrite Hparse.
      unfold findTree, getByQRCode, getById, startsWith_method, bind, ext,
        emit, ret. simpl. rewrite Hhit. reflexivity. }
    assert (Hvalid : valid (snd (parseQRCode env Demo.locator)) = true)
      by (rewrite Hparse; reflexivity).
    destruct (handleScan_found Demo.locator true s _ tree _ Hvalid Hfind)
      as [Hr Ht].
    destruct (afterFound_safe (snd (parseQRCode env Demo.locator)) tree true
                {| world := w; scanner := scanner s;
                   isScanning := isScanning s |})
      as [_ [Hl Hcb]].
    split; [exact Hr |].
    rewrite Hparse in Ht, Hl, Hcb. cbn [fst snd id app] in Ht, Hl, Hcb.
    rewrite Ht. cbn [lookups callbacks]. rewrite Hl, Hcb. auto.
Qed.

End Runs.

Lemma handleScan_lookups_end_with_fallback_witness :
  lookups (trace (handleScan (Demo.env []) "GS-1-A" true
                             (Demo.scanning Demo.anonymous))) =
    lookupPlan (snd (parseQRCode (Demo.env []) "GS-1-A")) /\
  exists earlier,
    lookups (trace (handleScan (Demo.env []) "GS-1-A" true
                               (Demo.scanning Demo.anonymous))) =
    (earlier ++ [(CodeId, id (snd (parseQRCode (Demo.env []) "GS-1-A")));
                 (RecordId, id (snd (parseQRCode (Demo.env []) "GS-1-A")))])%list.
Proof.
  apply (handleScan_lookups_end_with_fallback (Demo.env []) "GS-1-A"
           (Demo.scanning Demo.anonymous)).
  - intros v w. reflexivity.
  - intros v w. reflexivity.
  - reflexivity.
  - reflexivity.
Defined.

(** C5, as stated, fails: for a Green Sprint code that is not registered
    the same lookup is issued twice in a row. *)
Lemma same_lookup_twice_in_a_row :
  lookups (trace (handleScan (Demo.env []) "GS-1-A" true
                             (Demo.scanning Demo.anonymous))) =
    [(CodeId, VStr "GS-1-A"); (CodeId, VStr "GS-1-A");
     (RecordId, VStr "GS-1-A")] /\
  has_adjacent_duplicate
    (lookups (trace (handleScan (Demo.env []) "GS-1-A" true
                                (Demo.scanning Demo.anonymous)))).
Proof.
  split.
  - vm_compute. reflexivity.
  - exists [], (CodeId, VStr "GS-1-A"), [(RecordId, VStr "GS-1-A")].
    vm_compute. reflexivity.
Qed.

Lemma handleScan_recording_failure_harmless_witness :
  returned (handleScan (Demo.env [Demo.oak]) "GS-999" true
                       (Demo.scanning Demo.refusing)) = inr tt /\
  callbacks (trace (handleScan (Demo.env [Demo.oak]) "GS-999" true
                               (Demo.scanning Demo.refusing))) =
    [Success Demo.oak (VStr "GS-999") "Tree found successfully!"] /\
  In (Console Warn "Could not record scan:"
        (PErr "permission denied for table trees"))
     (trace (handleScan (Demo.env [Demo.oak]) "GS-999" true
                        (Demo.scanning Demo.refusing))).
Proof.
  destruct (handleScan_recording_failure_harmless
              (Demo.env [Demo.oak]) "GS-999"
              (Demo.scanning Demo.refusing) (Demo.scanning Demo.refusing)
              Demo.oak [Call_getByQRCode (VStr "GS-999")]
              eq_refl eq_refl) as [Hr [Hcb Hwarn]].
  split; [exact Hr |]. split; [exact Hcb |].
  apply (Hwarn {| user_id := VStr "u1" |}
               "permission denied for table trees"
               (Demo.scanning Demo.refusing)
               [Call_geolocation;
                Console Error "Geolocation error:"
                  (PErr "User denied Geolocation");
                Call_recordScan (VStr "GS-999") (VStr "u1") VNull]);
    reflexivity.
Defined.

Lemma handleScan_locator_scenario_witness :
  lookups (trace (handleScan (Demo.env []) Demo.locator true
                             (Demo.scanning Demo.anonymous))) =
    [(CodeId, VStr "GS-999"); (RecordId, VStr "abc123");
     (CodeId, VStr "GS-999"); (CodeId, VStr "GS-999");
     (RecordId, VStr "GS-999")] /\
  returned (handleScan (Demo.env [Demo.oak]) Demo.locator true
                       (Demo.scanning Demo.refusing)) = inr tt /\
  lookups (trace (handleScan (Demo.env [Demo.oak]) Demo.locator true
                             (Demo.scanning Demo.refusing))) =
    [(CodeId, VStr "GS-999")] /\
  callbacks (trace (handleScan (Demo.env [Demo.oak]) Demo.locator true
                               (Demo.scanning Demo.refusing))) =
    [Success Demo.oak (VStr "GS-999") "Tree found successfully!"].
Proof.
  split.
  - apply (proj1 (handleScan_locator_scenario
                    (Demo.env []) (Demo.scanning Demo.anonymous) eq_refl)).
    + intros v w. reflexivity.
    + intros v w. reflexivity.
  - apply (proj2 (handleScan_locator_scenario
                    (Demo.env [Demo.oak]) (Demo.scanning Demo.refusing)
                    eq_refl)
                 Demo.oak Demo.refusing).
    reflexivity.
Defined.


End ScannerProperties.

(* ================================================================== *)
(** * Further properties of the proximity search *)
(* ================================================================== *)

Module GeoExtras.

Import Geo GeoStore.
Local Open Scope R_scope.

(** ** The distance as an arcsine *)


Lemma calculateDistance_haversine (lat1 lon1 lat2 lon2 : R) :
  calculateDistance lat1 lon1 lat2 lon2 =
  6371 * (2 * atan2 (sqrt (haversine lat1 lon1 lat2 lon2))
                    (sqrt (1 - haversine lat1 lon1 lat2 lon2))).
Proof. reflexivity. Qed.

Lemma cos_latitude_nonneg (lat : R) :
  -90 <= lat <= 90 -> 0 <= cos (lat * PI / 180).
Proof.
  intros [Hlo Hhi]. pose proof PI_RGT_0.
  apply cos_ge_0; nra.
Qed.

Lemma haversine_lower (lat1 lon1 lat2 lon2 : R) :
  -90 <= lat1 <= 90 -> -90 <= lat2 <= 90 ->
  (sin ((lat2 - lat1) * PI / 180 / 2))² <= haversine lat1 lon1 lat2 lon2.
Proof.
  intros H1 H2. unfold haversine, Rsqr.
  pose proof (cos_latitude_nonneg lat1 H1) as Hc1.
  pose proof (cos_latitude_nonneg lat2 H2) as Hc2.
  assert (0 <= cos (lat1 * PI / 180) * cos (lat2 * PI / 180)) by nra.
  pose proof (Rle_0_sqr (sin ((lon2 - lon1) * PI / 180 / 2))) as Hs.
  unfold Rsqr in Hs. nra.
Qed.

Lemma haversine_bounds (lat1 lon1 lat2 lon2 : R) :
  -90 <= lat1 <= 90 -> -90 <= lat2 <= 90 ->
  0 <= haversine lat1 lon1 lat2 lon2 <= 1.
Proof.
  intros H1 H2.
  pose proof (haversine_lower lat1 lon1 lat2 lon2 H1 H2) as Hlow.
  split.
  - pose proof (Rle_0_sqr (sin ((lat2 - lat1) * PI / 180 / 2))). lra.
  - unfold haversine.
    pose proof (cos_latitude_nonneg lat1 H1) as Hc1.
    pose proof (cos_latitude_nonneg lat2 H2) as Hc2.
    set (p1 := lat1 * PI / 180) in *. set (p2 := lat2 * PI / 180) in *.
    replace ((lat2 - lat1) * PI / 180 / 2) with ((p2 - p1) / 2)
      by (unfold p1, p2; lra).
    pose proof (cos_2a_sin ((p2 - p1) / 2)) as Hd.
    replace (2 * ((p2 - p1) / 2)) with (p2 - p1) in Hd by lra.
    rewrite cos_minus in Hd.
    pose proof (cos_plus p1 p2) as Hp.
    pose proof (COS_bound (p1 + p2)) as [_ Hb].
    pose proof (SIN_bound ((lon2 - lon1) * PI / 180 / 2)) as [Hs1 Hs2].
    set (s := sin ((lon2 - lon1) * PI / 180 / 2)) in *.
    assert (Hss : s * s <= 1) by nra.
    assert (Hcc : 0 <= cos p1 * cos p2) by nra.
    nra.
Qed.

Lemma asin_nonneg (x : R) : 0 <= x <= 1 -> 0 <= asin x.
Proof.
  intros [H0 H1]. pose proof PI_RGT_0.
  unfold asin. repeat case Rle_dec; intros; try lra.
  destruct (Req_dec x 0) as [-> | Hx].
  - unfold Rdiv. rewrite Rmult_0_l, atan_0. lra.
  - rewrite <- atan_0. left. apply atan_increasing.
    apply Rdiv_lt_0_compat; [lra |].
    apply sqrt_lt_R0. unfold Rsqr. nra.
Qed.

(** On the arguments [calculateDistance] passes, [Math.atan2] is the
    arcsine. *)
Lemma atan2_sqrt_asin (a : R) :
  0 <= a <= 1 -> atan2 (sqrt a) (sqrt (1 - a)) = asin (sqrt a).
Proof.
  intros [H0 H1]. unfold atan2.
  destruct (Req_dec a 1) as [-> | Hne].
  - replace (1 - 1) with 0 by lra. rewrite sqrt_0, sqrt_1.
    destruct (total_order_T 0 0) as [[Hlt | _] | Hgt]; try lra.
    destruct (total_order_T 1 0) as [[Hlt | Heq] | _]; try lra.
    symmetry. apply asin_1.
  - assert (Hpos : 0 < sqrt (1 - a)) by (apply sqrt_lt_R0; lra).
    destruct (total_order_T (sqrt (1 - a)) 0) as [[Hlt | Heq] | _]; try lra.
    assert (Hlt1 : sqrt a < 1).
    { rewrite <- sqrt_1. apply sqrt_lt_1; lra. }
    pose proof (sqrt_pos a).
    rewrite asin_atan by lra.
    rewrite Rsqr_sqrt by lra. reflexivity.
Qed.

Lemma calculateDistance_asin (lat1 lon1 lat2 lon2 : R) :
  -90 <= lat1 <= 90 -> -90 <= lat2 <= 90 ->
  calculateDistance lat1 lon1 lat2 lon2 =
  6371 * (2 * asin (sqrt (haversine lat1 lon1 lat2 lon2))).
Proof.
  intros H1 H2. rewrite calculateDistance_haversine.
  rewrite atan2_sqrt_asin by (apply haversine_bounds; assumption).
  reflexivity.
Qed.

Lemma sqrt_unit (a : R) : 0 <= a <= 1 -> 0 <= sqrt a <= 1.
Proof.
  intros [H0 H1]. split; [apply sqrt_pos |].
  rewrite <- sqrt_1. apply sqrt_le_1; lra.
Qed.

Lemma calculateDistance_bounds (lat1 lon1 lat2 lon2 : R) :
  -90 <= lat1 <= 90 -> -90 <= lat2 <= 90 ->
  0 <= calculateDistance lat1 lon1 lat2 lon2 <= 6371 * PI.
Proof.
  intros H1 H2. rewrite calculateDistance_asin by assumption.
  pose proof (sqrt_unit _ (haversine_bounds lat1 lon1 lat2 lon2 H1 H2)) as Hs.
  pose proof (asin_nonneg _ Hs).
  pose proof (asin_bound (sqrt (haversine lat1 lon1 lat2 lon2))) as [_ Hub].
  lra.
Qed.

(** X1. Between two points whose latitudes lie between -90 and 90 the
    haversine distance is never negative and never more than half the
    circumference, [6371 * PI] km. *)
Theorem calculateDistance_range (lat1 lon1 lat2 lon2 : R) :
  -90 <= lat1 <= 90 -> -90 <= lat2 <= 90 ->
  0 <= calculateDistance lat1 lon1 lat2 lon2 <= 6371 * PI.
Proof.
  intros H1 H2. apply calculateDistance_bounds; assumption.
Qed.

Lemma calculateDistance_range_witness :
  0 <= calculateDistance 60 0 60 60 <= 6371 * PI.
Proof.
  apply (calculateDistance_range 60 0 60 60); lra.
Defined.



(** ** A point at latitude 60, sixty degrees of longitude away *)

Lemma sin_lower (x : R) :
  0 <= x <= 1 -> x - x ^ 3 / 6 + x ^ 5 / 120 - x ^ 7 / 5040 <= sin x.
Proof.
  intros [H0 H1].
  pose proof PI2_3_2.
  pose proof (SIN x H0 ltac:(lra)) as [Hlb _].
  unfold sin_lb, sin_approx, sum_f_R0, sin_term in Hlb.
  rewrite !INR_IZR_INZ in Hlb.
  change (Z.of_nat (fact (2 * 0 + 1))) with 1%Z in Hlb.
  change (Z.of_nat (fact (2 * 1 + 1))) with 6%Z in Hlb.
  change (Z.of_nat (fact (2 * 2 + 1))) with 120%Z in Hlb.
  change (Z.of_nat (fact (2 * 3 + 1))) with 5040%Z in Hlb.
  change (2 * 0 + 1)%nat with 1%nat in Hlb.
  change (2 * 1 + 1)%nat with 3%nat in Hlb.
  change (2 * 2 + 1)%nat with 5%nat in Hlb.
  change (2 * 3 + 1)%nat with 7%nat in Hlb.
  simpl pow in Hlb. simpl pow. lra.
Qed.

Lemma asin_quarter : asin (1 / 4) <= 0.2589.
Proof.
  pose proof PI2_3_2.
  apply sin_incr_0.
  - pose proof (asin_bound (1 / 4)). lra.
  - apply asin_bound.
  - lra.
  - lra.
  - rewrite sin_asin by lra.
    pose proof (sin_lower 0.2589 ltac:(lra)) as Hs.
    simpl pow in Hs. lra.
Qed.

Lemma haversine_60_60 : haversine 60 0 60 60 = 1 / 16.
Proof.
  unfold haversine.
  replace ((60 - 60) * PI / 180 / 2) with 0 by lra.
  replace ((60 - 0) * PI / 180 / 2) with (PI / 6) by lra.
  replace (60 * PI / 180) with (PI / 3) by lra.
  rewrite sin_0, cos_PI3, sin_PI6. lra.
Qed.

Lemma distance_60_60 : calculateDistance 60 0 60 60 <= 3300.
Proof.
  rewrite calculateDistance_asin by lra.
  rewrite haversine_60_60.
  replace (1 / 16) with ((1 / 4)²) by (unfold Rsqr; lra).
  rewrite sqrt_Rsqr by lra.
  pose proof asin_quarter. lra.
Qed.

Lemma lngDiff_60 : lngDiff 60 3300 < 60.
Proof.
  unfold lngDiff, lngDivisor.
  replace (60 * PI / 180) with (PI / 3) by lra.
  rewrite cos_PI3. lra.
Qed.

(** ** The bounding box against the circle *)



(** X3. The longitude range of the bounding box can cut the circle: there
    is a campaign with both coordinates, within [radiusKm] of the center,
    that a store applying the four range conditions does not return, so
    that [getNearby] answers the empty list. *)
Theorem getNearby_misses_row_within_radius :
  exists (lat lng radiusKm : R) (c : Campaign) (clat clng : R),
    latitude c = Some clat /\ longitude c = Some clng /\
    clat <> 0 /\ clng <> 0 /\
    calculateDistance lat lng clat clng <= radiusKm /\
    getNearby (table_store [c]) lat lng radiusKm = inr [].
Proof.
  exists 60, 0, 3300, far_east, 60, 60.
  repeat split; try reflexivity; try lra.
  - apply distance_60_60.
  - unfold getNearby, table_store. simpl.
    pose proof lngDiff_60 as Hlt.
    assert (Hout : leb_R 60 (0 + lngDiff 60 3300) = false).
    { unfold leb_R. destruct (Rle_dec 60 (0 + lngDiff 60 3300)); [lra |].
      reflexivity. }
    unfold in_range. simpl. rewrite Hout, andb_false_r. reflexivity.
Qed.

(** X4. For a center latitude strictly between -90 and 90 and a radius
    that is not negative, the bounding box contains the center, and its
    half-width in longitude is at least its half-width in latitude. *)
Theorem boundingBox_contains_center (lat lng radiusKm : R) :
  -90 < lat < 90 -> 0 <= radiusKm ->
  lat_gte (boundingBox lat lng radiusKm) <= lat <=
    lat_lte (boundingBox lat lng radiusKm) /\
  lng_gte (boundingBox lat lng radiusKm) <= lng <=
    lng_lte (boundingBox lat lng radiusKm) /\
  latDiff radiusKm <= lngDiff lat radiusKm.
Proof.
  intros [Hlo Hhi] Hr.
  pose proof PI_RGT_0 as Hpi.
  assert (Hcos : 0 < cos (lat * PI / 180)) by (apply cos_gt_0; nra).
  pose proof (COS_bound (lat * PI / 180)) as [_ Hle].
  assert (Hlat : 0 <= latDiff radiusKm) by (unfold latDiff; lra).
  assert (Hwide : latDiff radiusKm <= lngDiff lat radiusKm).
  { unfold latDiff, lngDiff, lngDivisor.
    apply Rmult_le_compat_l; [exact Hr |].
    apply Rinv_le_contravar; nra. }
  simpl. lra.
Qed.

Lemma boundingBox_contains_center_witness :
  lat_gte (boundingBox 0 0 200) <= 0 <= lat_lte (boundingBox 0 0 200) /\
  lng_gte (boundingBox 0 0 200) <= 0 <= lng_lte (boundingBox 0 0 200) /\
  latDiff 200 <= lngDiff 0 200.
Proof.
  apply (boundingBox_contains_center 0 0 200); lra.
Defined.

(** ** The rows [getNearby] returns *)

Lemma truthy_num_nonzero (x : R) : x <> 0 -> truthy_num (Some x) = true.
Proof.
  intros Hx. unfold truthy_num. destruct (Req_dec_T x 0); [contradiction |].
  reflexivity.
Qed.

Lemma keep_some (lat lng radiusKm : R) (c : Campaign) (clat clng : R) :
  latitude c = Some clat -> longitude c = Some clng ->
  clat <> 0 -> clng <> 0 ->
  calculateDistance lat lng clat clng <= radiusKm ->
  keep lat lng radiusKm c =
    Some (with_distance c (calculateDistance lat lng clat clng)).
Proof.
  intros Hla Hlo Hza Hzo Hd. unfold keep.
  rewrite Hla, Hlo, !truthy_num_nonzero by assumption. simpl.
  destruct (Rle_dec (calculateDistance lat lng clat clng) radiusKm);
    [| contradiction].
  unfold with_distance. rewrite Hla, Hlo. reflexivity.
Qed.

Lemma filter_keep_in (lat lng radiusKm : R) (rows : list Campaign)
                     (c c' : Campaign) :
  In c rows -> keep lat lng radiusKm c = Some c' ->
  In c' (filter_keep lat lng radiusKm rows).
Proof.
  induction rows as [| x rows IH]; simpl; [tauto |].
  intros [-> | Hin] Hk.
  - rewrite Hk. left. reflexivity.
  - destruct (keep lat lng radiusKm x); [right |]; auto.
Qed.

Lemma filter_keep_length (lat lng radiusKm : R) (rows : list Campaign) :
  (List.length (filter_keep lat lng radiusKm rows) <= List.length rows)%nat.
Proof.
  induction rows as [| x rows IH]; simpl; [lia |].
  destruct (keep lat lng radiusKm x); simpl; lia.
Qed.

(** X5. Over real arithmetic, with [calculateDistance] the exact
    haversine distance, [getNearby] loses no row the store hands it: a
    row with both coordinates different from 0 and within [radiusKm] of
    the center is in the result, with its [distance] property set to that
    distance; and the result never has more rows than the store
    returned.  (The rounding of floating-point numbers is not part of
    this: there the haversine term of two nearly antipodal points can
    come out above 1, the distance is then not a number, and the row is
    dropped.) *)
Theorem getNearby_returns_every_row_within
  (lat lng radiusKm : R) (rows : list Campaign)
  (c : Campaign) (clat clng : R) :
  In c rows ->
  latitude c = Some clat -> longitude c = Some clng ->
  clat <> 0 -> clng <> 0 ->
  calculateDistance lat lng clat clng <= radiusKm ->
  exists result,
    getNearby (store_returning rows) lat lng radiusKm = inr result /\
    In (with_distance c (calculateDistance lat lng clat clng)) result /\
    (List.length result <= List.length rows)%nat.
Proof.
  intros Hin Hla Hlo Hza Hzo Hd.
  unfold getNearby, store_returning. simpl.
  eexists. split; [reflexivity |]. split.
  - eapply Permutation_in; [apply GeoProperties.sort_by_distance_perm |].
    eapply filter_keep_in; [eassumption |].
    apply keep_some; assumption.
  - rewrite <- (Permutation_length
                  (GeoProperties.sort_by_distance_perm
                     (filter_keep lat lng radiusKm rows))).
    apply filter_keep_length.
Qed.

Lemma getNearby_returns_every_row_within_witness :
  exists result,
    getNearby (store_returning [far_east]) 60 0 3300 = inr result /\
    In (with_distance far_east (calculateDistance 60 0 60 60)) result /\
    (List.length result <= 1)%nat.
Proof.
  apply (getNearby_returns_every_row_within 60 0 3300 [far_east]
           far_east 60 60).
  - left. reflexivity.
  - reflexivity.
  - reflexivity.
  - lra.
  - lra.
  - apply distance_60_60.
Defined.

Lemma at_distance_insert (d : R) (c : Campaign) (l : list Campaign) :
  filter (at_distance d) (insert_by_distance c l) =
  filter (at_distance d) (c :: l).
Proof.
  induction l as [| c' l IH]; [reflexivity |].
  cbn [insert_by_distance].
  destruct (Rle_dec (dist c - dist c') 0) as [Hle | Hgt]; [reflexivity |].
  cbn [filter] in *. rewrite IH.
  unfold at_distance.
  destruct (Req_dec_T (dist c') d) as [Hc' | Hc'];
    destruct (Req_dec_T (dist c) d) as [Hc | Hc]; try reflexivity.
  exfalso. lra.
Qed.

Lemma sort_by_distance_stable (d : R) (l : list Campaign) :
  filter (at_distance d) (sort_by_distance l) = filter (at_distance d) l.
Proof.
  induction l as [| c l IH]; [reflexivity |].
  cbn [sort_by_distance]. rewrite at_distance_insert.
  cbn [filter]. rewrite IH. reflexivity.
Qed.

(** X6. Ties keep the order of the store: for every distance [d], the
    returned rows at distance [d] come in the order in which the rows the
    filter kept came from the store. *)
Theorem getNearby_ties_in_store_order
  (d lat lng radiusKm : R) (rows : list Campaign) :
  match getNearby (store_returning rows) lat lng radiusKm with
  | inr result =>
      filter (at_distance d) result =
      filter (at_distance d) (filter_keep lat lng radiusKm rows)
  | inl _ => False
  end.
Proof.
  unfold getNearby, store_returning. simpl. apply sort_by_distance_stable.
Qed.

Lemma filter_keep_negative_radius (lat lng radiusKm : R)
                                  (rows : list Campaign) :
  -90 <= lat <= 90 -> radiusKm < 0 ->
  Forall valid_latitude rows ->
  filter_keep lat lng radiusKm rows = [].
Proof.
  intros Hlat Hneg Hrows.
  induction Hrows as [| c rows Hc _ IH]; [reflexivity |].
  simpl. rewrite IH.
  unfold keep.
  destruct (negb (truthy_num (latitude c)) || negb (truthy_num (longitude c)));
    [reflexivity |].
  unfold valid_latitude in Hc.
  destruct (latitude c) as [clat |]; [| reflexivity].
  destruct (longitude c) as [clng |]; [| reflexivity].
  pose proof (calculateDistance_bounds lat lng clat clng Hlat Hc) as [Hge _].
  destruct (Rle_dec (calculateDistance lat lng clat clng) radiusKm);
    [lra | reflexivity].
Qed.

(** X7. With a negative radius [getNearby] returns no row, whatever rows
    with valid latitudes the store hands it. *)
Theorem getNearby_negative_radius
  (lat lng radiusKm : R) (rows : list Campaign) :
  -90 <= lat <= 90 -> radiusKm < 0 ->
  Forall valid_latitude rows ->
  getNearby (store_returning rows) lat lng radiusKm = inr [].
Proof.
  intros Hlat Hneg Hrows. unfold getNearby, store_returning. simpl.
  rewrite filter_keep_negative_radius by assumption. reflexivity.
Qed.

Lemma getNearby_negative_radius_witness :
  getNearby (store_returning [far_east]) 60 0 (-1) = inr [].
Proof.
  apply (getNearby_negative_radius 60 0 (-1) [far_east]).
  - lra.
  - lra.
  - constructor; [unfold valid_latitude; simpl; lra | constructor].
Defined.

End GeoExtras.

(* ================================================================== *)
(** * Further properties of the scanner *)
(* ================================================================== *)

Module ScannerExtras.

Import Js Scanner ScannerTexts.
Local Open Scope string_scope.

(** ** Strings *)

Lemma hex_run_all (n : nat) (s r : string) :
  hex_run n s = Some r ->
  all_chars uuid_char r = true -> all_chars uuid_char s = true.
Proof.
  revert s. induction n as [| n IH]; simpl; intros s H Hr.
  - injection H as ->. exact Hr.
  - destruct s as [| c s]; [discriminate |].
    destruct (is_hex c) eqn:Hc; [| discriminate].
    simpl. unfold uuid_char at 1. rewrite Hc. simpl. eapply IH; eassumption.
Qed.

Lemma dash_all (s r : string) :
  dash s = Some r ->
  all_chars uuid_char r = true -> all_chars uuid_char s = true.
Proof.
  unfold dash. destruct s as [| c s]; [discriminate |].
  destruct (Ascii.eqb c "-") eqn:Hc; [| discriminate].
  intros H Hr. injection H as ->. simpl. unfold uuid_char at 1.
  rewrite Hc, orb_true_r. exact Hr.
Qed.

Lemma match_uuid_chars (s : string) :
  match_uuid s = true -> all_chars uuid_char s = true.
Proof.
  unfold match_uuid, and_then.
  destruct (hex_run 8 s) as [s1 |] eqn:H1; [| discriminate].
  destruct (dash s1) as [s2 |] eqn:H2; [| discriminate].
  destruct (hex_run 4 s2) as [s3 |] eqn:H3; [| discriminate].
  destruct (dash s3) as [s4 |] eqn:H4; [| discriminate].
  destruct (hex_run 4 s4) as [s5 |] eqn:H5; [| discriminate].
  destruct (dash s5) as [s6 |] eqn:H6; [| discriminate].
  destruct (hex_run 4 s6) as [s7 |] eqn:H7; [| discriminate].
  destruct (dash s7) as [s8 |] eqn:H8; [| discriminate].
  destruct (hex_run 12 s8) as [s9 |] eqn:H9; [| discriminate].
  destruct s9; [| discriminate]. intros _.
  eapply hex_run_all; [exact H1 |].
  eapply dash_all; [exact H2 |].
  eapply hex_run_all; [exact H3 |].
  eapply dash_all; [exact H4 |].
  eapply hex_run_all; [exact H5 |].
  eapply dash_all; [exact H6 |].
  eapply hex_run_all; [exact H7 |].
  eapply dash_all; [exact H8 |].
  eapply hex_run_all; [exact H9 |]. reflexivity.
Qed.

Lemma prefix_head (c : ascii) (p s : string) :
  String.prefix (String c p) s = true ->
  exists s', s = String c s'.
Proof.
  destruct s as [| a s]; simpl; [discriminate |].
  destruct (ascii_dec c a) as [-> | _]; [| discriminate].
  intros _. eexists. reflexivity.
Qed.

(** A string made of characters of a class does not contain a string
    that begins with a character outside the class. *)
Lemma all_chars_not_includes (q : ascii -> bool) (c : ascii)
                             (p s : string) :
  all_chars q s = true -> q c = false -> includes s (String c p) = false.
Proof.
  intros Hs Hc. induction s as [| a s IH].
  - reflexivity.
  - simpl in Hs. apply andb_true_iff in Hs as [Ha Hs].
    cbn [includes].
    destruct (String.prefix (String c p) (String a s)) eqn:Hp.
    + apply prefix_head in Hp as [s' Heq]. injection Heq as <- _.
      congruence.
    + simpl. apply IH. exact Hs.
Qed.

Lemma all_chars_not_startsWith (q : ascii -> bool) (c : ascii)
                               (p s : string) :
  all_chars q s = true -> q c = false -> startsWith s (String c p) = false.
Proof.
  intros Hs Hc. unfold startsWith.
  destruct (String.prefix (String c p) s) eqn:Hp; [| reflexivity].
  apply prefix_head in Hp as [s' ->]. simpl in Hs.
  apply andb_true_iff in Hs as [Ha _]. congruence.
Qed.

Example decimal_examples :
  decimal 0 = "0" /\ decimal 1770225330123 = "1770225330123".
Proof. split; reflexivity. Qed.

Example generateId_example :
  generateId 1770225330123 "0.4fzyo82mvyr" = "GS-1770225330123-4FZYO82M" /\
  generateQRCode_id 1770225330123 "0.4fzyo82mvyr" = "GS-1770225330123-4FZYO82MV".
Proof. split; reflexivity. Qed.

Section Runs.

Context {World : Type} (env : Collaborators World).

(** ** The run of [handleScan], case by case *)


Lemma side_calls_app (l1 l2 : list event) :
  side_calls (l1 ++ l2) = (side_calls l1 ++ side_calls l2)%list.
Proof.
  induction l1 as [| e l1 IH]; simpl; [reflexivity |].
  destruct e; simpl; rewrite ?IH; reflexivity.
Qed.

Lemma prologue_quiet (data : string) :
  lookups (prologue env data) = [] /\
  callbacks (prologue env data) = [] /\
  side_calls (prologue env data) = [].
Proof.
  unfold prologue, parseQRCode.
  destruct (parseQRCode_try env data); simpl; auto.
Qed.

(** The run of [handleScan], by the outcome of its parts. *)
Lemma handleScan_run (data : string) (callback : bool) (s : state World) :
  handleScan env data callback s =
  let qrInfo := snd (parseQRCode env data) in
  if negb (valid qrInfo)
  then (inr tt, s,
        (prologue env data ++ failure_events callback invalid_format)%list)
  else
    match findTree env qrInfo s with
    | (inl e, s1, t) =>
        (inr tt, s1,
         (prologue env data ++ t ++ failure_events callback e)%list)
    | (inr None, s1, t) =>
        (inr tt, s1,
         (prologue env data ++ t
          ++ failure_events callback tree_not_found)%list)
    | (inr (Some tree), s1, t) =>
        (inr tt, final (afterFound env qrInfo tree callback s1),
         (prologue env data ++ t
          ++ trace (afterFound env qrInfo tree callback s1))%list)
    end.
Proof.
  cbv zeta.
  unfold handleScan, try_catch, bind, console, emit, emit_all, when, throw,
    prologue, failure_events.
  destruct (valid (snd (parseQRCode env data))); cbn [negb].
  - unfold ret.
    destruct (findTree env (snd (parseQRCode env data)) s)
      as [[[e | [tree |]] s1] t].
    + destruct callback; simpl; rewrite <- ?app_assoc; simpl;
        rewrite <- ?app_assoc; reflexivity.
    + pose proof (ScannerProperties.afterFound_safe env
                    (snd (parseQRCode env data)) tree callback s1)
        as [Hr _].
      destruct (afterFound env (snd (parseQRCode env data)) tree callback s1)
        as [[r s2] t2].
      unfold returned in Hr. simpl in Hr. subst r. simpl.
      rewrite <- ?app_assoc. simpl. rewrite <- ?app_assoc. reflexivity.
    + destruct callback; simpl; rewrite <- ?app_assoc; simpl;
        rewrite <- ?app_assoc; reflexivity.
  - destruct callback; simpl; rewrite <- ?app_assoc; reflexivity.
Qed.

Lemma bind_quiet {X A B : Type} (proj : list event -> list X)
      (m : M World A) (f : A -> M World B) :
  (forall a b, proj (a ++ b)%list = (proj a ++ proj b)%list) ->
  (forall s, proj (trace (m s)) = []) ->
  (forall a s, proj (trace (f a s)) = []) ->
  forall s, proj (trace (bind m f s)) = [].
Proof.
  intros Happ Hm Hf s. unfold bind. specialize (Hm s).
  destruct (m s) as [[[e | a] s1] t1]; unfold trace in *; simpl in *.
  - exact Hm.
  - specialize (Hf a s1). destruct (f a s1) as [[r s2] t2]. simpl in *.
    rewrite Happ, Hm, Hf. reflexivity.
Qed.

Lemma findTree_no_side_calls (qrInfo : QRInfo) (s : state World) :
  side_calls (trace (findTree env qrInfo s)) = [].
Proof.
  revert s. unfold findTree.
  repeat (apply (bind_quiet side_calls); [apply side_calls_app | | intros ?]);
    try match goal with
        | |- forall s, side_calls (trace ((if ?c then _ else _) s)) = [] =>
            destruct c
        end;
    intros s;
    try reflexivity;
    try (unfold getByQRCode, getById, bind, emit, ext, trace;
         match goal with
         | |- context [trees_getByQRCode env ?v ?w] =>
             destruct (trees_getByQRCode env v w) as [[? | ?] ?]
         | |- context [trees_getById env ?v ?w] =>
             destruct (trees_getById env v w) as [[? | ?] ?]
         end; reflexivity).
  unfold startsWith_method. destruct (id qrInfo); reflexivity.
Qed.

(** [findTree] changes the world of the store only: the module keeps its
    scanner and its scanning flag. *)
Lemma bind_keeps_module {A B : Type} (m : M World A) (f : A -> M World B) :
  (forall s, scanner (final (m s)) = scanner s /\
             isScanning (final (m s)) = isScanning s) ->
  (forall a s, scanner (final (f a s)) = scanner s /\
               isScanning (final (f a s)) = isScanning s) ->
  forall s, scanner (final (bind m f s)) = scanner s /\
            isScanning (final (bind m f s)) = isScanning s.
Proof.
  intros Hm Hf s. unfold bind. specialize (Hm s).
  destruct (m s) as [[[e | a] s1] t1]; unfold final in *; simpl in *.
  - exact Hm.
  - specialize (Hf a s1). destruct (f a s1) as [[r s2] t2]. simpl in *.
    destruct Hm as [Hm1 Hm2]. destruct Hf as [Hf1 Hf2].
    split; congruence.
Qed.

Lemma findTree_keeps_module (qrInfo : QRInfo) (s : state World) :
  scanner (final (findTree env qrInfo s)) = scanner s /\
  isScanning (final (findTree env qrInfo s)) = isScanning s.
Proof.
  revert s. unfold findTree.
  repeat (apply bind_keeps_module; [| intros ?]);
    try match goal with
        | |- forall s, _ (final ((if ?c then _ else _) s)) = _ /\ _ =>
            destruct c
        end;
    intros s;
    try (split; reflexivity);
    try (unfold getByQRCode, getById, bind, emit, ext, final;
         match goal with
         | |- context [trees_getByQRCode env ?v ?w] =>
             destruct (trees_getByQRCode env v w) as [[? | ?] ?]
         | |- context [trees_getById env ?v ?w] =>
             destruct (trees_getById env v w) as [[? | ?] ?]
         end; split; reflexivity).
  unfold startsWith_method. destruct (id qrInfo); split; reflexivity.
Qed.

Ltac store_step :=
  match goal with
  | |- context [trees_getByQRCode env ?v ?w] =>
      destruct (trees_getByQRCode env v w) as [[? | [? |]] ?]; simpl
  | |- context [trees_getById env ?v ?w] =>
      destruct (trees_getById env v w) as [[? | [? |]] ?]; simpl
  end.

(** Whatever the store answers, the lookups of [findTree] are an initial
    part of [lookupPlan]. *)
Lemma findTree_lookups_prefix (qrInfo : QRInfo) (s : state World) :
  exists rest,
    lookupPlan qrInfo =
    (lookups (trace (findTree env qrInfo s)) ++ rest)%list.
Proof.
  destruct qrInfo as [v i t d e].
  unfold findTree, lookupPlan, getByQRCode, getById, startsWith_method,
    bind, ext, emit, ret, throw, returned, trace, is_null.
  cbn [id data type valid error].
  destruct (truthy (opt_prop d "tree_id"));
    destruct (truthy (opt_prop d "qr_code_id"));
    destruct t as [[| | |] |];
    destruct i; simpl;
    repeat match goal with
           | |- context [negb (num_is_zero ?m ?e)] =>
               destruct (num_is_zero m e); simpl
           | |- context [negb (?a =? EmptyString)] =>
               destruct (a =? EmptyString); simpl
           | |- context [startsWith ?a ?b] =>
               destruct (startsWith a b); simpl
           | |- context [if ?b then _ else _] =>
               is_var b; destruct b; simpl
           end;
    repeat store_step;
    eexists; reflexivity.
Qed.

Lemma handleScan_lookups_prefix
  (data : string) (callback : bool) (s : state World) :
  exists rest,
    lookupPlan (snd (parseQRCode env data)) =
    (lookups (trace (handleScan env data callback s)) ++ rest)%list.
Proof.
  rewrite handleScan_run. cbv zeta.
  destruct (prologue_quiet data) as [Hpl _].
  assert (Hfail : forall e, lookups (failure_events callback e) = []).
  { intros e. destruct callback; reflexivity. }
  destruct (negb (valid (snd (parseQRCode env data)))).
  - unfold trace. cbn [snd].
    rewrite ScannerProperties.lookups_app, Hpl, Hfail.
    eexists. reflexivity.
  - destruct (findTree_lookups_prefix (snd (parseQRCode env data)) s)
      as [rest Hrest].
    exists rest. rewrite Hrest. f_equal.
    destruct (findTree env (snd (parseQRCode env data)) s)
      as [[[e | [tree |]] s1] t]; unfold trace; cbn [snd];
      rewrite !ScannerProperties.lookups_app, Hpl; cbn [app].
    + rewrite Hfail, app_nil_r. reflexivity.
    + destruct (ScannerProperties.afterFound_safe env
                  (snd (parseQRCode env data)) tree callback s1)
        as [_ [Hl _]].
      unfold trace in Hl. rewrite Hl, app_nil_r. reflexivity.
    + rewrite Hfail, app_nil_r. reflexivity.
Qed.

(** The lookups of [findTree] are the planned ones, tried in order up to
    the first that finds a tree or throws; there is none when the id is
    neither falsy nor a string, as attempt 1 throws then. *)
Lemma findTree_lookups_issue (qrInfo : QRInfo) (s : state World) :
  lookups (trace (findTree env qrInfo s)) =
    if id_usable (id qrInfo)
    then issue env (lookupPlan qrInfo) (world s) else [].
Proof.
  destruct qrInfo as [v i t d e]. destruct s as [w sc isc].
  unfold findTree, lookupPlan, getByQRCode, getById, startsWith_method,
    bind, ext, emit, ret, throw, returned, trace, is_null, id_usable.
  cbn [id data type valid error world scanner isScanning].
  destruct (truthy (opt_prop d "tree_id"));
    destruct (truthy (opt_prop d "qr_code_id"));
    destruct t as [[| | |] |];
    destruct i; simpl;
    repeat match goal with
           | |- context [negb (num_is_zero ?m ?e)] =>
               destruct (num_is_zero m e); simpl
           | |- context [negb (?a =? EmptyString)] =>
               destruct (a =? EmptyString); simpl
           | |- context [startsWith ?a ?b] =>
               destruct (startsWith a b); simpl
           | |- context [if ?b then _ else _] =>
               is_var b; destruct b; simpl
           end;
    repeat store_step;
    reflexivity.
Qed.

(** X9. Whatever the store answers, the lookups of a run are the planned
    ones, [lookupPlan], issued in order and cut at the first lookup that
    finds a tree or throws: no lookup is issued after a hit or an error,
    and none is skipped before.  (There is no lookup at all when the text
    is invalid, or when its id is neither falsy nor a string.) *)
Theorem handleScan_lookups_follow_plan
  (data : string) (callback : bool) (s : state World) :
  let qrInfo := snd (parseQRCode env data) in
  lookups (trace (handleScan env data callback s)) =
    (if valid qrInfo && id_usable (id qrInfo)
     then issue env (lookupPlan qrInfo) (world s) else []) /\
  exists rest,
    lookupPlan qrInfo =
    (lookups (trace (handleScan env data callback s)) ++ rest)%list.
Proof.
  cbv zeta. split; [| apply handleScan_lookups_prefix].
  rewrite handleScan_run. cbv zeta.
  destruct (prologue_quiet data) as [Hpl _].
  assert (Hfail : forall e, lookups (failure_events callback e) = []).
  { intros e. destruct callback; reflexivity. }
  destruct (valid (snd (parseQRCode env data))); cbn [negb andb].
  - rewrite <- findTree_lookups_issue.
    destruct (findTree env (snd (parseQRCode env data)) s)
      as [[[e | [tree |]] s1] t]; unfold trace; cbn [snd];
      rewrite !ScannerProperties.lookups_app, Hpl; cbn [app].
    + rewrite Hfail, app_nil_r. reflexivity.
    + destruct (ScannerProperties.afterFound_safe env
                  (snd (parseQRCode env data)) tree callback s1)
        as [_ [Hl _]].
      unfold trace in Hl. rewrite Hl, app_nil_r. reflexivity.
    + rewrite Hfail, app_nil_r. reflexivity.
  - unfold trace. cbn [snd].
    rewrite ScannerProperties.lookups_app, Hpl, Hfail. reflexivity.
Qed.



(** ** Failures *)

(** X11. When the search for the tree throws (a lookup fails in the
    store, or the id is not a string), the callback is told that very
    message; when the search ends without a tree, it is told that the tree
    was not found. *)
Theorem handleScan_reports_lookup_failure
  (data : string) (s s1 : state World) (t : list event) :
  valid (snd (parseQRCode env data)) = true ->
  (forall e,
     findTree env (snd (parseQRCode env data)) s = (inl e, s1, t) ->
     callbacks (trace (handleScan env data true s)) = [Failure e]) /\
  (findTree env (snd (parseQRCode env data)) s = (inr None, s1, t) ->
   callbacks (trace (handleScan env data true s)) =
     [Failure tree_not_found]).
Proof.
  intros Hvalid.
  destruct (prologue_quiet data) as [_ [Hpc _]].
  pose proof (ScannerProperties.findTree_no_callbacks env
                (snd (parseQRCode env data)) s) as Hf.
  split; [intros e Hfind | intros Hfind];
    rewrite handleScan_run; cbv zeta; rewrite Hvalid; cbn [negb];
    rewrite Hfind in Hf |- *; unfold trace in Hf |- *; cbn [snd] in Hf |- *;
    rewrite !ScannerProperties.callbacks_app, Hpc, Hf; reflexivity.
Qed.

(** X12. A scan that finds no tree (invalid text, failing lookup, or no
    match) asks for no position, records no scan and does not stop the
    camera: the scanner and its scanning flag are as before. *)
Theorem handleScan_failure_keeps_scanning
  (data : string) (callback : bool) (s : state World) :
  (valid (snd (parseQRCode env data)) = true ->
   forall tree,
     returned (findTree env (snd (parseQRCode env data)) s)
     <> inr (Some tree)) ->
  side_calls (trace (handleScan env data callback s)) = [] /\
  scanner (final (handleScan env data callback s)) = scanner s /\
  isScanning (final (handleScan env data callback s)) = isScanning s.
Proof.
  intros Hmiss.
  rewrite handleScan_run. cbv zeta.
  destruct (prologue_quiet data) as [_ [_ Hps]].
  assert (Hfail : forall e, side_calls (failure_events callback e) = []).
  { intros e. destruct callback; reflexivity. }
  destruct (valid (snd (parseQRCode env data))); cbn [negb].
  - specialize (Hmiss eq_refl).
    pose proof (findTree_no_side_calls (snd (parseQRCode env data)) s)
      as Hf.
    pose proof (findTree_keeps_module (snd (parseQRCode env data)) s)
      as Hk.
    destruct (findTree env (snd (parseQRCode env data)) s)
      as [[[e | [tree |]] s1] t];
      unfold trace, final, returned in *; cbn [fst snd] in *.
    + rewrite !side_calls_app, Hps, Hf, Hfail. auto.
    + exfalso. apply (Hmiss tree). reflexivity.
    + rewrite !side_calls_app, Hps, Hf, Hfail. auto.
  - unfold trace, final. cbn [fst snd].
    rewrite side_calls_app, Hps, Hfail. auto.
Qed.

(** X13. When a tree is found and nobody is signed in, the position is
    not asked for and no scan is recorded: the only call besides the
    lookups is the one that stops a running camera. *)
Theorem handleScan_anonymous_no_location
  (data : string) (callback : bool) (s s1 : state World) (tree : Tree)
  (t : list event) :
  valid (snd (parseQRCode env data)) = true ->
  findTree env (snd (parseQRCode env data)) s = (inr (Some tree), s1, t) ->
  currentUser env (world s1) = None ->
  side_calls (trace (handleScan env data callback s)) =
    (if scanner s1 && isScanning s1 then [Call_scanner_stop] else []).
Proof.
  intros Hvalid Hfind Hanon.
  rewrite handleScan_run. cbv zeta. rewrite Hvalid. cbn [negb].
  destruct (prologue_quiet data) as [_ [_ Hps]].
  pose proof (findTree_no_side_calls (snd (parseQRCode env data)) s)
    as Hf.
  rewrite Hfind in Hf |- *. unfold trace in Hf |- *. cbn [snd] in Hf |- *.
  rewrite !side_calls_app, Hps, Hf. cbn [app].
  destruct s1 as [w sc isc]. cbn [world scanner isScanning] in *.
  unfold afterFound, recordIfLoggedIn, isLoggedIn, stopScanning, try_catch,
    bind, when, read, ext, emit, console, ret, set_isScanning.
  cbn [world scanner isScanning]. rewrite Hanon. simpl.
  destruct sc, isc; simpl;
    try match goal with
        | |- context [scanner_stop env ?w] =>
            destruct (scanner_stop env w) as [[? | ?] ?]; simpl
        end;
    destruct callback; reflexivity.
Qed.

(** ** Texts the application itself produces *)

Lemma parseQRCode_uuid (data : string) :
  match_uuid data = true ->
  parseQRCode env data =
    ([Console Log "Parsing QR data:" (PStr data)],
     {| valid := true; id := VStr data; type := Some uuid;
        data := VObj [("tree_id", VStr data)]; error := None |}).
Proof.
  intros Hu. pose proof (match_uuid_chars data Hu) as Hc.
  unfold parseQRCode, parseQRCode_try, laterRules, urlRule.
  rewrite (all_chars_not_startsWith uuid_char "{" "" data Hc eq_refl).
  rewrite (all_chars_not_startsWith uuid_char "G" "S-" data Hc eq_refl).
  rewrite (all_chars_not_includes uuid_char "h" "ttp" data Hc eq_refl).
  rewrite (all_chars_not_includes uuid_char "t" "ree-details" data Hc eq_refl).
  cbn [orb]. rewrite Hu. reflexivity.
Qed.

Lemma all_chars_app (q : ascii -> bool) (a b : string) :
  all_chars q (a ++ b) = all_chars q a && all_chars q b.
Proof.
  induction a as [| c a IH]; simpl; [reflexivity |].
  rewrite IH, andb_assoc. reflexivity.
Qed.

Lemma includes_app_r (a b p : string) :
  includes b p = true -> includes (a ++ b) p = true.
Proof.
  intros Hb. induction a as [| c a IH]; simpl; [exact Hb |].
  rewrite IH. apply orb_true_r.
Qed.

Lemma prefix_cons (c a : ascii) (p s : string) :
  String.prefix (String c p) (String a s) =
  if ascii_dec c a then String.prefix p s else false.
Proof. reflexivity. Qed.

Lemma prefix_empty (s : string) : String.prefix EmptyString s = true.
Proof. destruct s; reflexivity. Qed.

Lemma startsWith_brace_app (a b : string) :
  a <> EmptyString ->
  startsWith a "{" = false -> startsWith (a ++ b) "{" = false.
Proof.
  destruct a as [| c a]; [congruence |]. intros _.
  unfold startsWith. cbn [append]. rewrite !prefix_cons, !prefix_empty.
  trivial.
Qed.

Lemma startsWith_GS_app (a b : string) :
  startsWith a "GS-" = false ->
  startsWith (a ++ "/" ++ b) "GS-" = false.
Proof.
  unfold startsWith.
  destruct a as [| c1 [| c2 [| c3 a]]]; cbn [append];
    rewrite ?prefix_cons, ?prefix_empty; intros H.
  - reflexivity.
  - destruct (ascii_dec "G" c1); reflexivity.
  - destruct (ascii_dec "G" c1); [| reflexivity].
    destruct (ascii_dec "S" c2); reflexivity.
  - exact H.
Qed.

Lemma locator_tests (base rest : string) :
  base <> EmptyString ->
  startsWith base "{" = false -> startsWith base "GS-" = false ->
  startsWith (base ++ "/tree-details.html?id=" ++ rest) "{" = false /\
  startsWith (base ++ "/tree-details.html?id=" ++ rest) "GS-" = false /\
  includes (base ++ "/tree-details.html?id=" ++ rest) "tree-details" = true /\
  match_uuid (base ++ "/tree-details.html?id=" ++ rest) = false.
Proof.
  intros Hne Hb Hg. repeat split.
  - apply startsWith_brace_app; assumption.
  - apply (startsWith_GS_app base ("tree-details.html?id=" ++ rest) Hg).
  - apply includes_app_r. reflexivity.
  - destruct (match_uuid (base ++ "/tree-details.html?id=" ++ rest)) eqn:Hu;
      [| reflexivity].
    apply match_uuid_chars in Hu. rewrite all_chars_app in Hu.
    simpl in Hu. rewrite andb_false_r in Hu. discriminate.
Qed.

Lemma parseQRCode_locator_cases (base rest : string) :
  base <> EmptyString ->
  startsWith base "{" = false -> startsWith base "GS-" = false ->
  snd (parseQRCode env (base ++ "/tree-details.html?id=" ++ rest)) =
  match URL_new env (base ++ "/tree-details.html?id=" ++ rest) with
  | Some u =>
      {| valid := true;
         id := js_or (js_or (searchParams_get (searchParams u) "qr")
                            (searchParams_get (searchParams u) "id"))
                     (pop (split (pathname u) "/"));
         type := Some url;
         data := VObj [("tree_id", searchParams_get (searchParams u) "id");
                       ("qr_code_id",
                        searchParams_get (searchParams u) "qr")];
         error := None |}
  | None => invalid unknown_format
  end.
Proof.
  intros Hne Hb Hg.
  destruct (locator_tests base rest Hne Hb Hg) as [H1 [H2 [H3 H4]]].
  unfold parseQRCode, parseQRCode_try, laterRules, urlRule.
  rewrite H1, H2, H3, orb_true_r.
  destruct (URL_new env (base ++ "/tree-details.html?id=" ++ rest));
    [reflexivity |].
  rewrite H4. reflexivity.
Qed.

Lemma getQRUrl_shape (origin treeId qrCodeId : string) :
  usable_origin origin ->
  exists base,
    base <> EmptyString /\
    startsWith base "{" = false /\ startsWith base "GS-" = false /\
    getQRUrl origin treeId qrCodeId =
      base ++ "/tree-details.html?id=" ++ (treeId ++ "&qr=" ++ qrCodeId).
Proof.
  intros [Hb Hg]. unfold getQRUrl.
  destruct (origin =? EmptyString) eqn:He.
  - exists "https://greensprint.app". repeat split; try reflexivity.
    discriminate.
  - exists origin. repeat split; try assumption; try reflexivity.
    intros ->. discriminate.
Qed.

(** X16. A URL made by [getQRUrl] parses back: when [new URL] reads its
    two parameters, [parseQRCode] returns a valid URL result carrying
    both ids, with the QR code id preferred as [id]; when [new URL]
    throws on it (as for the origin [null]), the result is invalid. *)
Theorem getQRUrl_parses_back (origin treeId qrCodeId : string) :
  usable_origin origin ->
  (URL_new env (getQRUrl origin treeId qrCodeId) =
     Some {| searchParams := [("id", treeId); ("qr", qrCodeId)];
             pathname := "/tree-details.html" |} ->
   snd (parseQRCode env (getQRUrl origin treeId qrCodeId)) =
     {| valid := true;
        id := js_or (js_or (VStr qrCodeId) (VStr treeId))
                    (VStr "tree-details.html");
        type := Some url;
        data := VObj [("tree_id", VStr treeId);
                      ("qr_code_id", VStr qrCodeId)];
        error := None |}) /\
  (URL_new env (getQRUrl origin treeId qrCodeId) = None ->
   snd (parseQRCode env (getQRUrl origin treeId qrCodeId)) =
     invalid unknown_format).
Proof.
  intros Ho.
  destruct (getQRUrl_shape origin treeId qrCodeId Ho)
    as [base [Hne [Hb [Hg Heq]]]].
  rewrite Heq.
  rewrite (parseQRCode_locator_cases base _ Hne Hb Hg).
  split; intros ->; reflexivity.
Qed.

(** A run in which [findTree] returns a tree: its lookups are those of
    [findTree], and the callback gets that tree. *)
Lemma handleScan_found_summary (data : string) (s s1 : state World)
                               (tree : Tree) (t : list event) :
  valid (snd (parseQRCode env data)) = true ->
  findTree env (snd (parseQRCode env data)) s = (inr (Some tree), s1, t) ->
  lookups (trace (handleScan env data true s)) = lookups t /\
  callbacks (trace (handleScan env data true s)) =
    [Success tree
       (js_or (tree_qr_code_id tree) (id (snd (parseQRCode env data))))
       "Tree found successfully!"].
Proof.
  intros Hvalid Hfind.
  rewrite handleScan_run. cbv zeta. rewrite Hvalid. cbn [negb].
  destruct (prologue_quiet data) as [Hpl [Hpc _]].
  pose proof (ScannerProperties.findTree_no_callbacks env
                (snd (parseQRCode env data)) s) as Hf.
  rewrite Hfind in Hf |- *. unfold trace in Hf |- *. cbn [snd] in Hf |- *.
  destruct (ScannerProperties.afterFound_safe env
              (snd (parseQRCode env data)) tree true s1) as [_ [Hl Hcb]].
  unfold trace in Hl, Hcb.
  rewrite !ScannerProperties.lookups_app, !ScannerProperties.callbacks_app,
    Hpl, Hpc, Hf, Hl, Hcb, app_nil_r.
  split; reflexivity.
Qed.

(** The first attempt finds the tree under a Green Sprint code. *)
Lemma findTree_code_hit (code : string) (d : jsval) (t : option qrType)
      (s : state World) (tree : Tree) (w : World) :
  startsWith code "GS-" = true ->
  trees_getByQRCode env (VStr code) (world s) = (inr (Some tree), w) ->
  findTree env (mkQRInfo true (VStr code) t d None) s =
    (inr (Some tree),
     {| world := w; scanner := scanner s; isScanning := isScanning s |},
     [Call_getByQRCode (VStr code)]).
Proof.
  intros Hgs Hhit.
  assert (Hne : negb (code =? EmptyString) = true).
  { destruct code; [discriminate | reflexivity]. }
  unfold findTree, getByQRCode, getById, startsWith_method, bind, ext, emit,
    ret.
  cbn [Scanner.id Scanner.data Scanner.type truthy].
  rewrite Hne, Hgs. cbn [world]. rewrite Hhit. reflexivity.
Qed.

(** The second attempt finds the tree under the tree id of the data, when
    the id is not a Green Sprint code. *)
Lemma findTree_tree_id_hit (i treeId : string)
      (t : option qrType) (rest : list (string * jsval))
      (s : state World) (tree : Tree) (w : World) :
  startsWith i "GS-" = false ->
  treeId <> EmptyString ->
  trees_getById env (VStr treeId) (world s) = (inr (Some tree), w) ->
  findTree env
    (mkQRInfo true (VStr i) t (VObj (("tree_id", VStr treeId) :: rest)) None)
    s =
    (inr (Some tree),
     {| world := w; scanner := scanner s; isScanning := isScanning s |},
     [Call_getById (VStr treeId)]).
Proof.
  intros Hgs Hne Hhit.
  assert (Ht : negb (treeId =? EmptyString) = true).
  { destruct treeId; [congruence | reflexivity]. }
  unfold findTree, getByQRCode, getById, startsWith_method, bind, ext, emit,
    ret.
  cbn [Scanner.id Scanner.data Scanner.type truthy opt_prop obj_get].
  change ("tree_id" =? "tree_id") with true. cbn iota.
  cbn [truthy]. rewrite Ht, Hgs.
  destruct (negb (i =? EmptyString)); cbn [is_null andb world];
    rewrite Hhit; reflexivity.
Qed.

(** X15. A code made by [generateId] or by [generateQRCode], at any time
    and with any random part, parses as a Green Sprint code naming
    itself; when the store has a tree under it, [handleScan] finds the
    tree with that single lookup. *)
Theorem handleScan_generated_code
  (now : N) (random36 : string) (s : state World) :
  (forall code,
     code = generateId now random36 \/
     code = generateQRCode_id now random36 ->
     snd (parseQRCode env code) =
       {| valid := true; id := VStr code; type := Some gs_format;
          data := VUndefined; error := None |} /\
     forall tree w,
       trees_getByQRCode env (VStr code) (world s) = (inr (Some tree), w) ->
       lookups (trace (handleScan env code true s)) = [(CodeId, VStr code)] /\
       callbacks (trace (handleScan env code true s)) =
         [Success tree (js_or (tree_qr_code_id tree) (VStr code))
                  "Tree found successfully!"]).
Proof.
  intros code Hcode.
  assert (Hgs : startsWith code "GS-" = true).
  { destruct Hcode as [-> | ->]; unfold generateId, generateQRCode_id;
      cbn [append toUpperCase]; unfold startsWith;
      rewrite !prefix_cons; cbn; apply prefix_empty. }
  assert (Hbrace : startsWith code "{" = false).
  { destruct Hcode as [-> | ->]; reflexivity. }
  assert (Hparse : snd (parseQRCode env code) =
       {| valid := true; id := VStr code; type := Some gs_format;
          data := VUndefined; error := None |}).
  { unfold parseQRCode, parseQRCode_try, laterRules.
    rewrite Hbrace, Hgs. reflexivity. }
  split; [exact Hparse |].
  intros tree w Hhit.
  pose proof (findTree_code_hit code VUndefined (Some gs_format) s tree w
                Hgs Hhit) as Hfind.
  rewrite <- Hparse in Hfind.
  destruct (handleScan_found_summary code s _ tree _
              ltac:(rewrite Hparse; reflexivity) Hfind) as [Hl Hcb].
  rewrite Hl, Hcb, Hparse. split; reflexivity.
Qed.

(** X14. A text that is a UUID parses as a tree id whatever [JSON.parse]
    and [new URL] do, and when the store has a tree under that id
    [handleScan] finds it with a single lookup, by tree id. *)
Theorem handleScan_uuid_found
  (data : string) (s : state World) (tree : Tree) (w : World) :
  match_uuid data = true ->
  trees_getById env (VStr data) (world s) = (inr (Some tree), w) ->
  snd (parseQRCode env data) =
    {| valid := true; id := VStr data; type := Some uuid;
       data := VObj [("tree_id", VStr data)]; error := None |} /\
  lookups (trace (handleScan env data true s)) = [(RecordId, VStr data)] /\
  callbacks (trace (handleScan env data true s)) =
    [Success tree (js_or (tree_qr_code_id tree) (VStr data))
             "Tree found successfully!"].
Proof.
  intros Hu Hhit.
  pose proof (parseQRCode_uuid data Hu) as Hparse.
  pose proof (match_uuid_chars data Hu) as Hc.
  assert (Hfind :
    findTree env (snd (parseQRCode env data)) s =
    (inr (Some tree),
     {| world := w; scanner := scanner s; isScanning := isScanning s |},
     [Call_getById (VStr data)])).
  { rewrite Hparse. cbn [snd].
    apply findTree_tree_id_hit.
    - apply (all_chars_not_startsWith uuid_char "G" "S-" data Hc eq_refl).
    - intros ->. discriminate.
    - exact Hhit. }
  destruct (handleScan_found_summary data s _ tree _
              ltac:(rewrite Hparse; reflexivity) Hfind) as [Hl Hcb].
  rewrite Hl, Hcb, Hparse. repeat split; reflexivity.
Qed.

(** X17. The QR code shown after a registration resolves: when [new URL]
    reads the tree id out of it and the store has the tree under that id,
    [handleScan] finds the tree with a single lookup, by tree id. *)
Theorem handleScan_registration_url
  (origin treeId : string) (s : state World) (tree : Tree) (w : World) :
  origin <> EmptyString -> usable_origin origin ->
  treeId <> EmptyString -> startsWith treeId "GS-" = false ->
  URL_new env (registrationUrl origin treeId) =
    Some {| searchParams := [("id", treeId)];
            pathname := "/tree-details.html" |} ->
  trees_getById env (VStr treeId) (world s) = (inr (Some tree), w) ->
  lookups (trace (handleScan env (registrationUrl origin treeId) true s)) =
    [(RecordId, VStr treeId)] /\
  callbacks (trace (handleScan env (registrationUrl origin treeId) true s)) =
    [Success tree (js_or (tree_qr_code_id tree) (VStr treeId))
             "Tree found successfully!"].
Proof.
  intros Hne [Hb Hg] Htid Hgs Hurl Hhit.
  assert (Ht : negb (treeId =? EmptyString) = true).
  { destruct treeId; [congruence | reflexivity]. }
  assert (Hparse : snd (parseQRCode env (registrationUrl origin treeId)) =
    {| valid := true; id := VStr treeId; type := Some url;
       data := VObj [("tree_id", VStr treeId); ("qr_code_id", VNull)];
       error := None |}).
  { unfold registrationUrl.
    rewrite (parseQRCode_locator_cases origin treeId Hne Hb Hg).
    unfold registrationUrl in Hurl. rewrite Hurl.
    cbn [searchParams pathname searchParams_get].
    change ("id" =? "qr") with false. change ("id" =? "id") with true.
    cbn iota. unfold js_or. cbn [truthy]. rewrite Ht. reflexivity. }
  assert (Hfind :
    findTree env (snd (parseQRCode env (registrationUrl origin treeId))) s =
    (inr (Some tree),
     {| world := w; scanner := scanner s; isScanning := isScanning s |},
     [Call_getById (VStr treeId)])).
  { rewrite Hparse. apply findTree_tree_id_hit; assumption. }
  destruct (handleScan_found_summary _ s _ tree _
              ltac:(rewrite Hparse; reflexivity) Hfind) as [Hl Hcb].
  rewrite Hl, Hcb, Hparse. split; reflexivity.
Qed.

End Runs.

Lemma handleScan_reports_lookup_failure_witness :
  callbacks (trace (handleScan offline "GS-1-A" true
                               (Demo.scanning Demo.anonymous))) =
    [Failure "TypeError: Failed to fetch"] /\
  callbacks (trace (handleScan (Demo.env []) "GS-1-A" true
                               (Demo.scanning Demo.anonymous))) =
    [Failure tree_not_found].
Proof.
  split.
  - apply (proj1 (handleScan_reports_lookup_failure offline "GS-1-A"
                    (Demo.scanning Demo.anonymous)
                    (Demo.scanning Demo.anonymous)
                    [Call_getByQRCode (VStr "GS-1-A")] eq_refl)).
    reflexivity.
  - apply (proj2 (handleScan_reports_lookup_failure (Demo.env []) "GS-1-A"
                    (Demo.scanning Demo.anonymous)
                    (Demo.scanning Demo.anonymous)
                    [Call_getByQRCode (VStr "GS-1-A");
                     Call_getByQRCode (VStr "GS-1-A");
                     Call_getById (VStr "GS-1-A")] eq_refl)).
    reflexivity.
Defined.

Lemma handleScan_failure_keeps_scanning_witness :
  side_calls (trace (handleScan offline "GS-1-A" true
                                (Demo.scanning Demo.refusing))) = [] /\
  scanner (final (handleScan offline "GS-1-A" true
                             (Demo.scanning Demo.refusing))) = true /\
  isScanning (final (handleScan offline "GS-1-A" true
                                (Demo.scanning Demo.refusing))) = true.
Proof.
  apply (handleScan_failure_keeps_scanning offline "GS-1-A" true
           (Demo.scanning Demo.refusing)).
  intros _ tree. vm_compute. discriminate.
Defined.

Lemma handleScan_anonymous_no_location_witness :
  side_calls (trace (handleScan (Demo.env [Demo.oak]) "GS-999" true
                                (Demo.scanning Demo.anonymous))) =
    [Call_scanner_stop].
Proof.
  apply (handleScan_anonymous_no_location (Demo.env [Demo.oak]) "GS-999"
           true (Demo.scanning Demo.anonymous)
           (Demo.scanning Demo.anonymous) Demo.oak
           [Call_getByQRCode (VStr "GS-999")]);
    reflexivity.
Defined.

Lemma getQRUrl_parses_back_witness :
  snd (parseQRCode (Demo.env [])
         (getQRUrl "https://app.example" "abc123" "GS-999")) =
    {| valid := true; id := VStr "GS-999"; type := Some url;
       data := VObj [("tree_id", VStr "abc123");
                     ("qr_code_id", VStr "GS-999")];
       error := None |} /\
  snd (parseQRCode (Demo.env []) (getQRUrl "null" "abc123" "GS-999")) =
    invalid unknown_format.
Proof.
  split.
  - apply (proj1 (getQRUrl_parses_back (Demo.env []) "https://app.example"
                    "abc123" "GS-999" (conj eq_refl eq_refl))).
    reflexivity.
  - apply (proj2 (getQRUrl_parses_back (Demo.env []) "null"
                    "abc123" "GS-999" (conj eq_refl eq_refl))).
    reflexivity.
Defined.

Lemma handleScan_generated_code_witness :
  lookups (trace (handleScan (Demo.env [elm])
                    (generateId 1770225330123 "0.4fzyo82mvyr") true
                    (Demo.scanning Demo.anonymous))) =
    [(CodeId, VStr (generateId 1770225330123 "0.4fzyo82mvyr"))] /\
  callbacks (trace (handleScan (Demo.env [elm])
                      (generateId 1770225330123 "0.4fzyo82mvyr") true
                      (Demo.scanning Demo.anonymous))) =
    [Success elm
       (js_or (tree_qr_code_id elm)
              (VStr (generateId 1770225330123 "0.4fzyo82mvyr")))
       "Tree found successfully!"].
Proof.
  apply (proj2 (handleScan_generated_code (Demo.env [elm]) 1770225330123
                  "0.4fzyo82mvyr" (Demo.scanning Demo.anonymous)
                  (generateId 1770225330123 "0.4fzyo82mvyr")
                  (or_introl eq_refl))
               elm Demo.anonymous).
  reflexivity.
Defined.

Lemma handleScan_uuid_found_witness :
  snd (parseQRCode (Demo.env [elm]) "123e4567-e89b-12d3-a456-426614174000") =
    {| valid := true; id := VStr "123e4567-e89b-12d3-a456-426614174000";
       type := Some uuid;
       data := VObj [("tree_id",
                      VStr "123e4567-e89b-12d3-a456-426614174000")];
       error := None |} /\
  lookups (trace (handleScan (Demo.env [elm])
                    "123e4567-e89b-12d3-a456-426614174000" true
                    (Demo.scanning Demo.anonymous))) =
    [(RecordId, VStr "123e4567-e89b-12d3-a456-426614174000")] /\
  callbacks (trace (handleScan (Demo.env [elm])
                      "123e4567-e89b-12d3-a456-426614174000" true
                      (Demo.scanning Demo.anonymous))) =
    [Success elm
       (js_or (tree_qr_code_id elm)
              (VStr "123e4567-e89b-12d3-a456-426614174000"))
       "Tree found successfully!"].
Proof.
  apply (handleScan_uuid_found (Demo.env [elm])
           "123e4567-e89b-12d3-a456-426614174000"
           (Demo.scanning Demo.anonymous) elm Demo.anonymous);
    reflexivity.
Defined.

Lemma handleScan_registration_url_witness :
  lookups (trace (handleScan (Demo.env [elm])
                    (registrationUrl "https://app.example"
                       "123e4567-e89b-12d3-a456-426614174000") true
                    (Demo.scanning Demo.anonymous))) =
    [(RecordId, VStr "123e4567-e89b-12d3-a456-426614174000")] /\
  callbacks (trace (handleScan (Demo.env [elm])
                      (registrationUrl "https://app.example"
                         "123e4567-e89b-12d3-a456-426614174000") true
                      (Demo.scanning Demo.anonymous))) =
    [Success elm
       (js_or (tree_qr_code_id elm)
              (VStr "123e4567-e89b-12d3-a456-426614174000"))
       "Tree found successfully!"].
Proof.
  apply (handleScan_registration_url (Demo.env [elm]) "https://app.example"
           "123e4567-e89b-12d3-a456-426614174000"
           (Demo.scanning Demo.anonymous) elm Demo.anonymous).
  - discriminate.
  - split; reflexivity.
  - discriminate.
  - reflexivity.
  - reflexivity.
  - reflexivity.
Defined.

End ScannerExtras.

(* ================================================================== *)
(** * Properties of the scanner with a callback that may throw *)
(* ================================================================== *)

Module CallbackExtras.

Import Js Scanner ScannerTexts ScannerCallbacks.
Local Open Scope string_scope.

Section Runs.

Context {World : Type} (env : Collaborators World).

(** A call of the callback. *)
Lemma invoke_run (f : Callee) (o : outcome) (s : state World) :
  exists s1,
    invoke (Some f) o s = (fst (f o (world s)), s1, [Callback o]).
Proof.
  unfold invoke, bind, emit, ext.
  destruct (f o (world s)) as [[e | []] w1]; eexists; reflexivity.
Qed.

(** Recording the scan and stopping the camera, and then something
    else. *)
Lemma record_stop_then {A : Type} (qrInfo : QRInfo) (tree : Tree)
      (k : M World A) (s : state World) :
  bind (recordIfLoggedIn env qrInfo tree)
       (fun _ => bind (stopScanning env) (fun _ => k)) s =
  match k (final (afterFound env qrInfo tree false s)) with
  | (r, s3, t3) =>
      (r, s3, (trace (afterFound env qrInfo tree false s) ++ t3)%list)
  end.
Proof.
  pose proof (ScannerProperties.afterFound_safe env qrInfo tree false s)
    as [Hr _].
  unfold afterFound, when in Hr |- *.
  unfold bind, ret, returned, final, trace in Hr |- *.
  destruct (recordIfLoggedIn env qrInfo tree s) as [[[e | []] s1] t1];
    cbn [fst snd] in Hr |- *; [discriminate |].
  destruct (stopScanning env s1) as [[[e | []] s2] t2];
    cbn [fst snd] in Hr |- *; [discriminate |].
  destruct (k s2) as [[r s3] t3]. cbn [fst snd].
  rewrite app_nil_r, app_assoc. reflexivity.
Qed.

Ltac same_events :=
  repeat first [ rewrite app_nil_r | rewrite <- app_assoc
               | progress cbn [app] ];
  reflexivity.

(** The run of [handleScan], by the outcome of its parts. *)
Lemma handleScan_callee_run (data : string) (callback : option Callee)
                            (s : state World) :
  ScannerCallbacks.handleScan env data callback s =
  let qrInfo := snd (parseQRCode env data) in
  if negb (valid qrInfo)
  then fail callback invalid_format s (prologue env data)
  else
    match findTree env qrInfo s with
    | (inl e, s1, t) => fail callback e s1 (prologue env data ++ t)
    | (inr None, s1, t) =>
        fail callback tree_not_found s1 (prologue env data ++ t)
    | (inr (Some tree), s1, t) =>
        let before :=
          (prologue env data ++ t
           ++ trace (afterFound env qrInfo tree false s1))%list in
        match invoke callback
                (Success tree (js_or (tree_qr_code_id tree) (id qrInfo))
                         "Tree found successfully!")
                (final (afterFound env qrInfo tree false s1)) with
        | (inr _, s3, t3) => (inr tt, s3, (before ++ t3)%list)
        | (inl e, s3, t3) => fail callback e s3 (before ++ t3)
        end
    end.
Proof.
  cbv zeta.
  unfold ScannerCallbacks.handleScan, fail.
  unfold try_catch at 1. unfold bind at 1. unfold console at 1, emit at 1.
  unfold bind at 1. unfold emit_all at 1.
  unfold bind at 1. unfold console at 1, emit at 1.
  unfold bind at 1. unfold prologue.
  destruct (valid (snd (parseQRCode env data))); cbn [negb when].
  - unfold ret at 1. unfold bind at 1.
    destruct (findTree env (snd (parseQRCode env data)) s)
      as [[[e | [tree |]] s1] t].
    + unfold bind at 1, console at 1, emit at 1.
      destruct (invoke callback (Failure e) s1) as [[r s2] t2].
      cbn. same_events.
    + rewrite record_stop_then.
      destruct (invoke callback _ (final (afterFound env _ tree false s1)))
        as [[[e | []] s3] t3].
      * unfold bind at 1, console at 1, emit at 1.
        destruct (invoke callback (Failure e) s3) as [[r s4] t4].
        cbn. same_events.
      * cbn. same_events.
    + unfold throw at 1.
      unfold bind at 1, console at 1, emit at 1.
      destruct (invoke callback (Failure tree_not_found) s1)
        as [[r s2] t2].
      cbn. same_events.
  - unfold throw at 1.
    unfold bind at 1, console at 1, emit at 1.
    destruct (invoke callback (Failure invalid_format) s) as [[r s2] t2].
    cbn. same_events.
Qed.


Lemma afterFound_then_callback (qrInfo : QRInfo) (tree : Tree)
                               (s : state World) :
  afterFound env qrInfo tree true s =
  (inr tt, final (afterFound env qrInfo tree false s),
   (trace (afterFound env qrInfo tree false s)
    ++ [Callback (Success tree (js_or (tree_qr_code_id tree) (id qrInfo))
                          "Tree found successfully!")])%list).
Proof.
  unfold afterFound at 1. rewrite record_stop_then. reflexivity.
Qed.

Lemma fail_run (f : Callee) (e : string) (s : state World)
               (t : list event) :
  exists s1,
    fail (Some f) e s t =
      (fst (f (Failure e) (world s)), s1,
       (t ++ [Console Error "Scan handling error:" (PErr e);
              Callback (Failure e)])%list).
Proof.
  unfold fail. destruct (invoke_run f (Failure e) s) as [s1 ->].
  exists s1. reflexivity.
Qed.

Lemma fail_none (e : string) (s : state World) (t : list event) :
  fail None e s t =
    (inr tt, s,
     (t ++ [Console Error "Scan handling error:" (PErr e)])%list).
Proof. reflexivity. Qed.

(** X8. Given a callback, [handleScan] calls it once or twice.  It calls
    it twice exactly when the tree was found and the call with the
    success threw: the [catch] then calls it again, with that error as a
    failure.  [handleScan] throws only what its last call of the callback
    throws; a call with a success, when it is the only call, returned.
    With a callback that returns normally this is the run in which the
    call of the callback is a mere event: one call, and a normal return.
    Without a callback nothing is called and [handleScan] returns
    normally. *)
Theorem handleScan_calls_back_once
  (data : string) (callback : option Callee) (s : state World) :
  let run := ScannerCallbacks.handleScan env data callback s in
  match callback with
  | None =>
      returned run = inr tt /\
      trace run = trace (Scanner.handleScan env data false s)
  | Some f =>
      ((exists o w,
          callbacks (trace run) = [o] /\
          returned run = fst (f o w) /\
          match o with
          | Success _ _ _ => fst (f o w) = inr tt
          | Failure _ => True
          end) \/
       (exists tree qrCode message e w w',
          callbacks (trace run) =
            [Success tree qrCode message; Failure e] /\
          fst (f (Success tree qrCode message) w) = inl e /\
          returned run = fst (f (Failure e) w'))) /\
      (returns f ->
       returned run = inr tt /\
       trace run = trace (Scanner.handleScan env data true s))
  end.
Proof.
  cbv zeta.
  destruct (ScannerExtras.prologue_quiet env data) as [_ [Hpc _]].
  pose proof (ScannerProperties.findTree_no_callbacks env
                (snd (parseQRCode env data)) s) as Hfc.
  destruct callback as [f |];
    rewrite handleScan_callee_run, ScannerExtras.handleScan_run; cbv zeta.
  - (* a callback *)
    destruct (negb (valid (snd (parseQRCode env data)))).
    + destruct (fail_run f invalid_format s (prologue env data))
        as [s1 ->].
      unfold returned, trace. cbn [fst snd]. split.
      * left. exists (Failure invalid_format), (world s).
        rewrite ScannerProperties.callbacks_app, Hpc. cbn. auto.
      * intros Hret. rewrite Hret. auto.
    + destruct (findTree env (snd (parseQRCode env data)) s)
        as [[[e | [tree |]] s1] t]; unfold trace in Hfc; cbn [snd] in Hfc.
      * destruct (fail_run f e s1 (prologue env data ++ t)) as [s2 ->].
        unfold returned, trace. cbn [fst snd]. split.
        { left. exists (Failure e), (world s1).
          rewrite !ScannerProperties.callbacks_app, Hpc, Hfc. cbn. auto. }
        { intros Hret. rewrite Hret. split; [reflexivity |].
          unfold failure_events. same_events. }
      * destruct (ScannerProperties.afterFound_safe env
                    (snd (parseQRCode env data)) tree false s1)
          as [_ [_ Hac]].
        rewrite afterFound_then_callback.
        set (o := Success tree
                    (js_or (tree_qr_code_id tree)
                           (id (snd (parseQRCode env data))))
                    "Tree found successfully!").
        set (s2 := final (afterFound env (snd (parseQRCode env data))
                            tree false s1)).
        destruct (invoke_run f o s2) as [s3 Hinv]. rewrite Hinv.
        destruct (fst (f o (world s2))) as [e | []] eqn:Hcall.
        { match goal with
          | |- context [fail (Some f) e s3 ?t0] =>
              destruct (fail_run f e s3 t0) as [s4 ->]
          end.
          unfold returned, trace. cbn [fst snd]. split.
          - right. exists tree,
              (js_or (tree_qr_code_id tree)
                     (id (snd (parseQRCode env data)))),
              "Tree found successfully!", e, (world s2), (world s3).
            fold o.
            rewrite !ScannerProperties.callbacks_app, Hpc, Hfc.
            unfold trace in Hac. rewrite Hac. cbn. auto.
          - intros Hret. rewrite Hret in Hcall. discriminate. }
        { unfold returned, trace. cbn [fst snd]. split.
          - left. exists o, (world s2).
            rewrite !ScannerProperties.callbacks_app, Hpc, Hfc.
            unfold trace in Hac. rewrite Hac. cbn.
            rewrite Hcall. unfold o. auto.
          - intros _. split; [reflexivity |]. same_events. }
      * destruct (fail_run f tree_not_found s1 (prologue env data ++ t))
          as [s2 ->].
        unfold returned, trace. cbn [fst snd]. split.
        { left. exists (Failure tree_not_found), (world s1).
          rewrite !ScannerProperties.callbacks_app, Hpc, Hfc. cbn. auto. }
        { intros Hret. rewrite Hret. split; [reflexivity |].
          unfold failure_events. same_events. }
  - (* no callback *)
    destruct (negb (valid (snd (parseQRCode env data)))).
    + rewrite fail_none. split; reflexivity.
    + destruct (findTree env (snd (parseQRCode env data)) s)
        as [[[e | [tree |]] s1] t].
      * rewrite fail_none. unfold returned, trace. cbn [fst snd].
        split; [reflexivity |]. unfold failure_events. same_events.
      * unfold invoke, ret, returned, trace. cbn [fst snd].
        split; [reflexivity |]. same_events.
      * rewrite fail_none. unfold returned, trace. cbn [fst snd].
        split; [reflexivity |]. unfold failure_events. same_events.
Qed.

End Runs.

Lemma handleScan_calls_back_once_witness :
  callbacks
    (trace (ScannerCallbacks.handleScan (Demo.env [Demo.oak]) "GS-999"
              (Some brittle) (Demo.scanning Demo.anonymous))) =
    [Success Demo.oak (VStr "GS-999") "Tree found successfully!";
     Failure "Cannot set properties of null (setting 'textContent')"] /\
  returned
    (ScannerCallbacks.handleScan (Demo.env [Demo.oak]) "GS-999"
       (Some calm) (Demo.scanning Demo.anonymous)) = inr tt /\
  trace
    (ScannerCallbacks.handleScan (Demo.env [Demo.oak]) "GS-999"
       (Some calm) (Demo.scanning Demo.anonymous)) =
  trace
    (Scanner.handleScan (Demo.env [Demo.oak]) "GS-999" true
       (Demo.scanning Demo.anonymous)).
Proof.
  split; [reflexivity |].
  apply (proj2 (handleScan_calls_back_once (Demo.env [Demo.oak]) "GS-999"
                  (Some calm) (Demo.scanning Demo.anonymous))).
  intros o w. reflexivity.
Defined.

End CallbackExtras.

(* ================================================================== *)
(** * Facts about runs *)
(* ================================================================== *)

Module AsyncFacts.

Import Async.

Section Facts.

Context {S E : Type}.

Variable keep : E -> bool.

Lemma quiet_ret {A : Type} (a : A) : quiet keep (@ret S E A a).
Proof. intros s. reflexivity. Qed.

Lemma quiet_throw {A : Type} (e : string) : quiet keep (@throw S E A e).
Proof. intros s. reflexivity. Qed.

Lemma quiet_read {A : Type} (f : S -> A) : quiet keep (@read S E A f).
Proof. intros s. reflexivity. Qed.

Lemma quiet_write (f : S -> S) : quiet keep (@write S E f).
Proof. intros s. reflexivity. Qed.

Lemma quiet_call {A : Type} (op : S -> (string + A) * S) :
  quiet keep (@call S E A op).
Proof. intros s. unfold call, trace. destruct (op s). reflexivity. Qed.

Lemma quiet_emit (e : E) : keep e = false -> quiet keep (@emit S E e).
Proof. intros H s. unfold emit, trace. simpl. rewrite H. reflexivity. Qed.

Lemma quiet_bind {A B : Type} (m : Run S E A) (f : A -> Run S E B) :
  quiet keep m -> (forall a, quiet keep (f a)) -> quiet keep (bind m f).
Proof.
  intros Hm Hf s. unfold bind. specialize (Hm s).
  destruct (m s) as [[[e | a] s1] t1]; unfold trace in *; simpl in *.
  - exact Hm.
  - specialize (Hf a s1). destruct (f a s1) as [[r s2] t2]. simpl in *.
    rewrite filter_app, Hm, Hf. reflexivity.
Qed.

Lemma quiet_try_catch {A : Type} (m : Run S E A) (h : string -> Run S E A) :
  quiet keep m -> (forall e, quiet keep (h e)) -> quiet keep (try_catch m h).
Proof.
  intros Hm Hh s. unfold try_catch. specialize (Hm s).
  destruct (m s) as [[[e | a] s1] t1]; unfold trace in *; simpl in *.
  - specialize (Hh e s1). destruct (h e s1) as [[r s2] t2]. simpl in *.
    rewrite filter_app, Hm, Hh. reflexivity.
  - exact Hm.
Qed.

Lemma quiet_when (c : bool) (m : Run S E unit) :
  quiet keep m -> quiet keep (when c m).
Proof. intros H. destruct c; [exact H | apply quiet_ret]. Qed.




End Facts.

End AsyncFacts.

(* ================================================================== *)
(** * Properties of the achievements *)
(* ================================================================== *)

Module AchievementsExtras.

Import Js Async Achievements.
Local Open Scope string_scope.

Section Service.
Context {World : Type}.
Context (insert_achievement :
           jsval -> string -> string -> string ->
           World -> (string + InsertResponse) * World).

Lemma award_if_reached_run (userId : jsval) (n : Z) (badges : list Badge)
                           (badge : Badge) (s : World) :
  exists (got : bool),
    returned (award_if_reached insert_achievement userId n badges badge s) =
      inr (if got then (badges ++ [badge])%list else badges) /\
    (got = true -> (count badge <=? n)%Z = true) /\
    trace (award_if_reached insert_achievement userId n badges badge s) =
      (if (count badge <=? n)%Z then [insert_of userId badge] else []).
Proof.
  unfold award_if_reached, award, try_catch, bind, emit, call, ret, throw,
    returned, trace, insert_of.
  destruct (count badge <=? n)%Z.
  - destruct (insert_achievement userId (badge_id badge) (badge_name badge)
                (badge_icon badge) s) as [[e | r] w]; simpl.
    + exists false. auto.
    + destruct (error r) as [err |]; simpl.
      * destruct (negb (code err =? "23505")); simpl.
        { exists false. auto. }
        destruct (data r); [exists true | exists false]; auto.
      * destruct (data r); [exists true | exists false]; auto.
  - exists false. simpl. repeat split; auto.
Qed.

Lemma award_each_run (userId : jsval) (n : Z) (todo badges : list Badge)
                     (s : World) :
  exists got,
    returned (award_each insert_achievement userId n todo badges s) =
      inr (badges ++ got)%list /\
    incl got (filter (fun badge => (count badge <=? n)%Z) todo) /\
    (forall P, StronglySorted P todo -> StronglySorted P got) /\
    trace (award_each insert_achievement userId n todo badges s) =
      map (insert_of userId)
          (filter (fun badge => (count badge <=? n)%Z) todo).
Proof.
  revert badges s. induction todo as [| badge todo IH]; intros badges s.
  - exists []. simpl. rewrite app_nil_r.
    repeat split; auto using incl_nil_l.
  - cbn [award_each]. unfold bind.
    destruct (award_if_reached_run userId n badges badge s)
      as [got [Hr [Hgot Ht]]].
    destruct (award_if_reached insert_achievement userId n badges badge s)
      as [[r s1] t1].
    unfold returned, trace in Hr, Ht. simpl in Hr, Ht. subst r t1.
    destruct (IH (if got then (badges ++ [badge])%list else badges) s1)
      as [rest [Hr' [Hincl [Hsorted Ht']]]].
    destruct (award_each insert_achievement userId n todo
                (if got then (badges ++ [badge])%list else badges) s1)
      as [[r' s2] t2].
    unfold returned, trace in Hr', Ht' |- *. simpl in Hr', Ht' |- *.
    subst r' t2.
    destruct got.
    + specialize (Hgot eq_refl). rewrite Hgot.
      exists (badge :: rest). rewrite <- app_assoc. simpl.
      repeat split; auto.
      * apply incl_cons; [left; reflexivity |].
        apply incl_tl. exact Hincl.
      * intros P HP. inversion HP as [| ? ? Htl Hall]; subst.
        constructor; [apply Hsorted; exact Htl |].
        rewrite Forall_forall in *. intros x Hx.
        apply Hall. apply Hincl in Hx. apply filter_In in Hx. tauto.
    + exists rest.
      destruct (count badge <=? n)%Z; simpl; repeat split; auto.
      * apply incl_tl. exact Hincl.
      * intros P HP. inversion HP; subst. auto.
      * intros P HP. inversion HP; subst. auto.
Qed.

Lemma award_each_granted (userId : jsval) (n : Z) (todo badges : list Badge)
                         (s : World) :
  grants insert_achievement ->
  returned (award_each insert_achievement userId n todo badges s) =
    inr (badges ++ filter (fun badge => (count badge <=? n)%Z) todo)%list.
Proof.
  intros Hg. revert badges s.
  induction todo as [| badge todo IH]; intros badges s.
  - simpl. rewrite app_nil_r. reflexivity.
  - cbn [award_each filter]. unfold bind.
    assert (Hstep :
      exists s1 t1,
        award_if_reached insert_achievement userId n badges badge s =
        (inr (if (count badge <=? n)%Z then (badges ++ [badge])%list
              else badges), s1, t1)).
    { unfold award_if_reached, award, try_catch, bind, emit, call, ret.
      destruct (count badge <=? n)%Z; [| eauto].
      destruct (Hg userId (badge_id badge) (badge_name badge)
                   (badge_icon badge) s) as [row Hrow].
      destruct (insert_achievement userId (badge_id badge)
                  (badge_name badge) (badge_icon badge) s) as [r w].
      simpl in Hrow. subst r. simpl. eauto. }
    destruct Hstep as [s1 [t1 ->]].
    specialize (IH (if (count badge <=? n)%Z then (badges ++ [badge])%list
                    else badges) s1).
    destruct (award_each insert_achievement userId n todo
                (if (count badge <=? n)%Z then (badges ++ [badge])%list
                 else badges) s1) as [[r s2] t2].
    unfold returned in IH |- *. simpl in IH |- *. subst r.
    destruct (count badge <=? n)%Z; [rewrite <- app_assoc |]; reflexivity.
Qed.

Lemma award_each_nothing (userId : jsval) (n : Z) (todo badges : list Badge)
                         (s : World) :
  yields_nothing insert_achievement ->
  returned (award_each insert_achievement userId n todo badges s) =
    inr badges.
Proof.
  intros Hn. revert s.
  induction todo as [| badge todo IH]; intros s; [reflexivity |].
  cbn [award_each]. unfold bind.
  assert (Hstep :
    exists s1 t1,
      award_if_reached insert_achievement userId n badges badge s =
      (inr badges, s1, t1)).
  { unfold award_if_reached, award, try_catch, bind, emit, call, ret, throw.
    destruct (count badge <=? n)%Z; [| eauto].
    pose proof (Hn userId (badge_id badge) (badge_name badge)
                  (badge_icon badge) s) as Hop.
    destruct (insert_achievement userId (badge_id badge)
                (badge_name badge) (badge_icon badge) s) as [[e | r] w];
      simpl in Hop |- *; [eauto |].
    destruct Hop as [Hnone | [e [He Hcode]]].
    - rewrite Hnone. destruct (error r) as [err |]; simpl;
        [destruct (negb (code err =? "23505")); simpl |]; eauto.
    - rewrite He.
      destruct (code e =? "23505") eqn:Heq.
      + apply String.eqb_eq in Heq. contradiction.
      + simpl. eauto. }
  destruct Hstep as [s1 [t1 ->]].
  specialize (IH s1).
  destruct (award_each insert_achievement userId n todo badges s1)
    as [[r s2] t2].
  unfold returned in IH |- *. simpl in IH |- *. exact IH.
Qed.

Lemma badgeThresholds_ascending :
  StronglySorted (fun a b => (count a < count b)%Z) badgeThresholds.
Proof.
  unfold badgeThresholds.
  repeat (constructor; [| repeat (constructor; [simpl; lia |]); constructor]).
  constructor.
Qed.

(** X18. [checkAndAward] never throws, whatever the store does.  It
    attempts one insert for every badge whose threshold [treesPlanted]
    has reached, in the order of [badgeThresholds] and without looking at
    the badges the user holds; the badges it returns are among those
    attempted, by ascending threshold. *)
Theorem checkAndAward_attempts_and_result
  (userId : jsval) (treesPlanted : Z) (s : World) :
  exists badges,
    returned (checkAndAward insert_achievement userId treesPlanted s) =
      inr badges /\
    trace (checkAndAward insert_achievement userId treesPlanted s) =
      map (insert_of userId) (reached treesPlanted) /\
    incl badges (reached treesPlanted) /\
    StronglySorted (fun a b => (count a < count b)%Z) badges.
Proof.
  unfold checkAndAward, reached.
  destruct (award_each_run userId treesPlanted badgeThresholds [] s)
    as [got [Hr [Hincl [Hsorted Ht]]]].
  exists got. simpl in Hr. repeat split; auto.
  apply Hsorted. apply badgeThresholds_ascending.
Qed.

(** X19. Over a store in which every insert succeeds and hands the row
    back, [checkAndAward] returns every badge whose threshold is reached;
    over a store in which no insert yields a row (the unique violation
    [23505] of a badge held already, another error, or a thrown call) it
    returns the empty list. *)
Theorem checkAndAward_fresh_or_owned (userId : jsval) (treesPlanted : Z)
                                     (s : World) :
  (grants insert_achievement ->
   returned (checkAndAward insert_achievement userId treesPlanted s) =
     inr (reached treesPlanted)) /\
  (yields_nothing insert_achievement ->
   returned (checkAndAward insert_achievement userId treesPlanted s) =
     inr []).
Proof.
  split; intros H; unfold checkAndAward.
  - rewrite award_each_granted by exact H. reflexivity.
  - apply award_each_nothing. exact H.
Qed.

End Service.

Lemma checkAndAward_fresh_or_owned_witness :
  returned (checkAndAward fresh (VStr "u1") 12 tt) = inr (reached 12) /\
  returned (checkAndAward owned (VStr "u1") 12 tt) = inr [].
Proof.
  split.
  - apply (checkAndAward_fresh_or_owned fresh (VStr "u1") 12 tt).
    intros u a b c w. eexists. reflexivity.
  - apply (checkAndAward_fresh_or_owned owned (VStr "u1") 12 tt).
    intros u a b c w. left. reflexivity.
Defined.

End AchievementsExtras.

(* ================================================================== *)
(** * Properties of recording a scan *)
(* ================================================================== *)

Module QRCodesExtras.

Import Js Async QRCodes.
Local Open Scope string_scope.

Section Service.

Context {World : Type}.
Context (ensure_client : World -> (string + unit) * World)
        (getByQRCode : jsval -> World -> (string + option Scanner.Tree) * World)
        (touch : string -> World -> (string + unit) * World).

(** X20. [recordScan] throws only if the statement that makes sure of
    the client does: a failing lookup and a failing update are caught,
    and their error is written to the console.  It updates at most one
    tree, the one the lookup returned, and none when the lookup fails or
    finds nothing. *)
Theorem recordScan_hides_store_failures (qrCodeId userId location : jsval)
                                        (w : World) :
  returned (recordScan ensure_client getByQRCode touch
              qrCodeId userId location w) = fst (ensure_client w) /\
  updates (trace (recordScan ensure_client getByQRCode touch
                    qrCodeId userId location w)) =
    match ensure_client w with
    | (inl _, _) => []
    | (inr _, w1) =>
        match fst (getByQRCode qrCodeId w1) with
        | inr (Some tree) => [Scanner.tree_id tree]
        | _ => []
        end
    end /\
  logged_errors (trace (recordScan ensure_client getByQRCode touch
                          qrCodeId userId location w)) =
    match ensure_client w with
    | (inl _, _) => []
    | (inr _, w1) =>
        match getByQRCode qrCodeId w1 with
        | (inl e, _) => [e]
        | (inr (Some tree), w2) =>
            match fst (touch (Scanner.tree_id tree) w2) with
            | inl e => [e]
            | inr _ => []
            end
        | (inr None, _) => []
        end
    end.
Proof.
  unfold recordScan, try_catch, bind, emit, call, ret, returned, trace.
  destruct (ensure_client w) as [[e | []] w1]; simpl; auto.
  destruct (getByQRCode qrCodeId w1) as [[e | [tree |]] w2]; simpl; auto.
  destruct (touch (Scanner.tree_id tree) w2) as [[e | []] w3]; simpl; auto.
Qed.

Lemma recordScan_op_ok (qrCodeId userId location : jsval) (w : World) :
  (forall w, fst (ensure_client w) = inr tt) ->
  fst (recordScan_op ensure_client getByQRCode touch
         qrCodeId userId location w) = inr tt.
Proof.
  intros H. unfold recordScan_op. cbn [fst].
  generalize (H w).
  unfold recordScan, try_catch, bind, emit, call, ret, returned.
  destruct (ensure_client w) as [[e | []] w1]; simpl; [discriminate |].
  intros _.
  destruct (getByQRCode qrCodeId w1) as [[e | [tree |]] w2]; simpl; auto.
  destruct (touch (Scanner.tree_id tree) w2) as [[e | []] w3]; simpl; auto.
Qed.

End Service.

Section Wired.

Import Scanner.

Context {World : Type} (env : Collaborators World)
        (ensure_client : World -> (string + unit) * World)
        (touch : string -> World -> (string + unit) * World).

Lemma warnings_app (l1 l2 : list event) :
  warnings (l1 ++ l2) = (warnings l1 ++ warnings l2)%list.
Proof.
  induction l1 as [| e l1 IH]; simpl; [reflexivity |].
  destruct e as [[| |] ? ? | | | | | |]; simpl; rewrite ?IH; reflexivity.
Qed.

Lemma findTree_no_warnings (env' : Collaborators World) (qrInfo : QRInfo)
                           (s : state World) :
  warnings (trace (findTree env' qrInfo s)) = [].
Proof.
  revert s. unfold findTree.
  repeat (apply (ScannerExtras.bind_quiet warnings);
          [apply warnings_app | | intros ?]);
    try match goal with
        | |- forall s, warnings (trace ((if ?c then _ else _) s)) = [] =>
            destruct c
        end;
    intros s;
    try reflexivity;
    try (unfold getByQRCode, getById, bind, emit, ext, trace;
         match goal with
         | |- context [trees_getByQRCode env' ?v ?w] =>
             destruct (trees_getByQRCode env' v w) as [[? | ?] ?]
         | |- context [trees_getById env' ?v ?w] =>
             destruct (trees_getById env' v w) as [[? | ?] ?]
         end; reflexivity).
  unfold startsWith_method. destruct (id qrInfo); reflexivity.
Qed.

Lemma prologue_no_warnings (env' : Collaborators World) (data : string) :
  warnings (ScannerTexts.prologue env' data) = [].
Proof.
  unfold ScannerTexts.prologue, parseQRCode.
  destruct (parseQRCode_try env' data); simpl; auto.
Qed.

Lemma afterFound_wired_no_warnings
  (qrInfo : QRInfo) (tree : Tree) (callback : bool) (s : state World) :
  (forall w, fst (ensure_client w) = inr tt) ->
  (forall w, exists g, fst (geolocation env w) = inr g) ->
  (forall w, currentUser env (snd (geolocation env w)) = currentUser env w) ->
  warnings (trace (afterFound (wired env ensure_client touch)
                     qrInfo tree callback s)) = [].
Proof.
  intros Hc Hgeo Huser.
  destruct s as [w0 sc isc].
  unfold afterFound, recordIfLoggedIn, isLoggedIn, recordScanAttempt,
    getCurrentLocation, getUser_id, stopScanning, try_catch,
    bind, when, read, ext, emit, console, ret, throw, set_isScanning, trace.
  cbn [world scanner isScanning wired geolocation currentUser
       qrCodes_recordScan scanner_stop].
  destruct (currentUser env w0) as [u0 |] eqn:Hu0; cbn.
  - destruct (Hgeo w0) as [g Hg]. specialize (Huser w0).
    destruct (geolocation env w0) as [r w1]. cbn in Hg, Huser. subst r.
    rewrite Hu0 in Huser.
    destruct g; cbn; rewrite Huser; cbn;
      match goal with
      | |- context [Async.returned (recordScan ?c ?g ?t ?q ?u ?l ?w)] =>
          pose proof (recordScan_op_ok c g t q u l w Hc) as Hok;
          unfold recordScan_op in Hok; cbn [fst] in Hok; rewrite Hok;
          generalize (Async.final (recordScan c g t q u l w)); intros w2
      end;
      destruct sc, isc; cbn;
      try (destruct (scanner_stop env w2) as [[e | []] w3]; cbn);
      destruct callback; reflexivity.
  - destruct sc, isc; cbn;
      try (destruct (scanner_stop env w0) as [[e | []] w3]; cbn);
      destruct callback; reflexivity.
Qed.

(** X21. With [GreenSprintDB.qrCodes.recordScan] being [recordScan]
    itself, [handleScan] never logs the warning that a scan could not be
    recorded, as long as the client is there, asking for the position
    does not throw and does not sign the user out: failures of the store
    while recording stay inside [recordScan]. *)
Theorem handleScan_wired_never_warns
  (data : string) (callback : bool) (s : state World) :
  (forall w, fst (ensure_client w) = inr tt) ->
  (forall w, exists g, fst (geolocation env w) = inr g) ->
  (forall w, currentUser env (snd (geolocation env w)) = currentUser env w) ->
  warnings (trace (handleScan (wired env ensure_client touch)
                     data callback s)) = [].
Proof.
  intros Hc Hgeo Huser.
  rewrite ScannerExtras.handleScan_run. cbv zeta.
  set (env' := wired env ensure_client touch).
  assert (Hfail : forall e, warnings (ScannerTexts.failure_events callback e) = []).
  { intros e. unfold ScannerTexts.failure_events. destruct callback; reflexivity. }
  destruct (negb (valid (snd (parseQRCode env' data)))).
  - unfold trace. cbn [snd].
    rewrite warnings_app, prologue_no_warnings, Hfail. reflexivity.
  - pose proof (findTree_no_warnings env' (snd (parseQRCode env' data)) s)
      as Hfind.
    destruct (findTree env' (snd (parseQRCode env' data)) s)
      as [[[e | [tree |]] s1] t]; unfold trace in Hfind |- *;
      cbn [snd] in Hfind |- *;
      rewrite !warnings_app, prologue_no_warnings, Hfind; cbn [app].
    + apply Hfail.
    + apply (afterFound_wired_no_warnings _ tree callback s1 Hc Hgeo Huser).
    + apply Hfail.
Qed.

End Wired.

Lemma handleScan_wired_never_warns_witness :
  Scanner.trace
    (Scanner.handleScan (wired (steady [Demo.oak]) ready rejected)
       "GS-999" true (Demo.scanning Demo.refusing)) <> [] /\
  warnings
    (Scanner.trace
       (Scanner.handleScan (wired (steady [Demo.oak]) ready rejected)
          "GS-999" true (Demo.scanning Demo.refusing))) = [].
Proof.
  split; [vm_compute; discriminate |].
  apply (handleScan_wired_never_warns (steady [Demo.oak]) ready rejected).
  - intros w. reflexivity.
  - intros w. eexists. reflexivity.
  - intros w. reflexivity.
Defined.

End QRCodesExtras.

(* ================================================================== *)
(** * Properties of starting the scanner and switching the camera *)
(* ================================================================== *)

Module LifecycleExtras.

Import Js Async Lifecycle.
Local Open Scope string_scope.

Section Methods.

Context {World : Type} (env : Scanner.Collaborators World).
Context (scanner_start : Camera -> World -> (string + unit) * World).


(** X22. [startScanning] calls [scanner.start], once and with the
    current camera, exactly when the scanner is initialised and not
    scanning yet; [isScanning] becomes true only if that call succeeds.
    [onError] is called, with the error, exactly when the call fails and
    a handler was passed, and [startScanning] throws only what that call
    of [onError] throws: in every other case it returns normally. *)
Theorem startScanning_guards
  (onSuccess : bool) (onError : option ErrorHandler) (s : Module World) :
  let run := startScanning scanner_start onSuccess onError s in
  let attempt := scanner_start (currentCamera s) (world s) in
  starts (trace run) =
    (if scanner s && negb (isScanning s)
     then [(currentCamera s, onSuccess)] else []) /\
  isScanning (final run) =
    (isScanning s || (scanner s && succeeds (fst attempt))) /\
  onError_calls (trace run) =
    (if scanner s && negb (isScanning s)
     then match fst attempt, onError with
          | inl e, Some _ => [e]
          | _, _ => []
          end
     else []) /\
  returned run =
    (if scanner s && negb (isScanning s)
     then match fst attempt, onError with
          | inl e, Some handler => fst (handler e (snd attempt))
          | _, _ => inr tt
          end
     else inr tt).
Proof.
  destruct s as [[w sc isc] cam]. cbv zeta.
  unfold isScanning, scanner, world, startScanning, try_catch, bind, read,
    emit, console, on_world, call, set_isScanning, write, when, ret,
    returned, final, trace.
  cbn [base currentCamera Scanner.world Scanner.scanner Scanner.isScanning].
  destruct sc, isc; cbn; auto.
  destruct (scanner_start cam w) as [[e | []] w1];
    destruct onError as [handler |]; cbn; auto.
  destruct (handler e w1) as [[e' | []] w2]; cbn; auto.
Qed.

(** X23. Switching the camera while scanning, when the scanner stops:
    the scanner is stopped once and started once on the other camera, and
    the decode handler registered by that start holds no [onSuccess]
    (whatever handler the scan was started with); the module is scanning
    afterwards exactly when the restart succeeds. *)
Theorem switchCamera_restart_drops_handler (s : Module World) :
  scanner s = true ->
  isScanning s = true ->
  fst (Scanner.scanner_stop env (world s)) = inr tt ->
  let run := switchCamera env scanner_start s in
  returned run = inr tt /\
  stops (trace run) = 1%nat /\
  starts (trace run) = [(other (currentCamera s), false)] /\
  currentCamera (final run) = other (currentCamera s) /\
  isScanning (final run) =
    succeeds (fst (scanner_start (other (currentCamera s))
                     (snd (Scanner.scanner_stop env (world s))))).
Proof.
  destruct s as [[w sc isc] cam]. unfold isScanning, scanner, world.
  cbn [base currentCamera Scanner.world Scanner.scanner Scanner.isScanning].
  intros -> -> Hstop. cbv zeta.
  unfold switchCamera, lift, Scanner.stopScanning, startScanning, try_catch,
    Scanner.try_catch, Scanner.bind, Scanner.emit, Scanner.ext,
    Scanner.set_isScanning, Scanner.console, Scanner.ret,
    bind, read, emit, console, on_world, call,
    set_isScanning, write, when, ret, returned, final, trace.
  cbn [base currentCamera Scanner.world Scanner.scanner Scanner.isScanning
       andb].
  destruct (Scanner.scanner_stop env w) as [[e | []] w1];
    cbn in Hstop; [discriminate |]. cbn.
  destruct (scanner_start (other cam) w1) as [[e | []] w2]; cbn; auto.
Qed.

(** X24. Switching the camera while scanning, when stopping fails: the
    scanner is not restarted and the module is still scanning, yet
    [currentCamera] names the other camera. *)
Theorem switchCamera_stop_failure (s : Module World) (e : string) :
  scanner s = true ->
  isScanning s = true ->
  fst (Scanner.scanner_stop env (world s)) = inl e ->
  let run := switchCamera env scanner_start s in
  returned run = inr tt /\
  starts (trace run) = [] /\
  currentCamera (final run) = other (currentCamera s) /\
  isScanning (final run) = true.
Proof.
  destruct s as [[w sc isc] cam]. unfold isScanning, scanner, world.
  cbn [base currentCamera Scanner.world Scanner.scanner Scanner.isScanning].
  intros -> -> Hstop. cbv zeta.
  unfold switchCamera, lift, Scanner.stopScanning, startScanning, try_catch,
    Scanner.try_catch, Scanner.bind, Scanner.emit, Scanner.ext,
    Scanner.set_isScanning, Scanner.console, Scanner.ret,
    bind, read, emit, console, on_world, call,
    set_isScanning, write, when, ret, returned, final, trace.
  cbn [base currentCamera Scanner.world Scanner.scanner Scanner.isScanning
       andb].
  destruct (Scanner.scanner_stop env w) as [[e' | []] w1];
    cbn in Hstop; [| discriminate]. cbn. auto.
Qed.

End Methods.

Lemma switchCamera_restart_drops_handler_witness :
  let run := switchCamera (Demo.env []) starting (running Demo.anonymous) in
  returned run = inr tt /\
  stops (trace run) = 1%nat /\
  starts (trace run) = [(user, false)] /\
  currentCamera (final run) = user /\
  isScanning (final run) = true.
Proof.
  apply (switchCamera_restart_drops_handler (Demo.env []) starting
           (running Demo.anonymous)); reflexivity.
Defined.

Lemma switchCamera_stop_failure_witness :
  let run := switchCamera (Demo.env []) starting (running stuck) in
  returned run = inr tt /\
  starts (trace run) = [] /\
  currentCamera (final run) = user /\
  isScanning (final run) = true.
Proof.
  apply (switchCamera_stop_failure (Demo.env []) starting (running stuck)
           "Cannot stop, scanner is not running"); reflexivity.
Defined.

End LifecycleExtras.

(* ================================================================== *)
(** * Properties of the registration form *)
(* ================================================================== *)

Module RegistrationExtras.

Import Js Async AsyncFacts Registration.
Local Open Scope string_scope.

Section Methods.

Context {World : Type} (page : Page World).

Lemma quiet_of_scanner (keep : event -> bool) {A : Type}
      (m : Scanner.M World A) :
  (forall e, keep (Scan e) = false) ->
  quiet keep (of_scanner m).
Proof.
  intros H s. unfold of_scanner, trace.
  destruct (m _) as [[r b] t]. simpl.
  induction t as [| e t IH]; simpl; [reflexivity |].
  rewrite H. exact IH.
Qed.

Lemma quiet_of_achievements (keep : event -> bool) {A : Type}
      (m : Run World Achievements.event A) :
  (forall e, keep (Award e) = false) ->
  quiet keep (of_achievements m).
Proof.
  intros H s. unfold of_achievements, trace.
  destruct (m _) as [[r b] t]. simpl.
  induction t as [| e t IH]; simpl; [reflexivity |].
  rewrite H. exact IH.
Qed.

Lemma quiet_eval (keep : event -> bool) {A : Type} (r : string + A) :
  quiet keep (@eval World A r).
Proof. intros s. reflexivity. Qed.

Ltac quiet_step :=
  match goal with
  | |- quiet _ (bind _ _) => apply quiet_bind; [| intros ?]
  | |- quiet _ (try_catch _ _) => apply quiet_try_catch; [| intros ?]
  | |- quiet _ (when _ _) => apply quiet_when
  | |- quiet _ (ret _) => apply quiet_ret
  | |- quiet _ (throw _) => apply quiet_throw
  | |- quiet _ (emit _) => apply quiet_emit; reflexivity
  | |- quiet _ (read _) => apply quiet_read
  | |- quiet _ (write _) => apply quiet_write
  | |- quiet _ (call _) => apply quiet_call
  | |- quiet _ (eval _) => apply quiet_eval
  | |- quiet _ (of_scanner _) =>
      apply quiet_of_scanner; intros ?; reflexivity
  | |- quiet _ (of_achievements _) =>
      apply quiet_of_achievements; intros ?; reflexivity
  | |- quiet _ (if ?c then _ else _) => destruct c
  | |- quiet _ (match ?x with _ => _ end) => destruct x
  end.

Ltac quiet_all :=
  unfold refresh, getCurrentLocation, afterCreate, uploadPhoto, updateStats,
    checkBadges, console, getUser_id, generateId, locationData, on_world;
  repeat quiet_step.





(** The trace of a run that starts with an event. *)
Lemma trace_emit_bind {A : Type} (e : event) (f : unit -> M A)
                      (s : Handler World) :
  trace (bind (emit e) f s) = e :: trace (f tt s).
Proof.
  unfold bind, emit, trace. destruct (f tt s) as [[r s1] t1]. reflexivity.
Qed.

Lemma refresh_quiet (keep : event -> bool) :
  (forall e, keep (Scan e) = false) ->
  keep Update_location_display = false ->
  quiet keep (refresh page).
Proof.
  intros H1 H2. unfold refresh, getCurrentLocation, on_world.
  repeat first
    [ apply quiet_of_scanner; exact H1
    | apply quiet_emit; exact H2
    | quiet_step ].
Qed.

(** ** The loading state *)

Lemma register_loading (s : Handler World) :
  filter is_loading (trace (register page s)) = [Show_loading true].
Proof.
  unfold register. rewrite trace_emit_bind. cbn [filter is_loading].
  f_equal.
  match goal with
  | |- filter _ (trace (?m s)) = [] =>
      assert (H : quiet is_loading m); [| apply H]
  end.
  quiet_all.
Qed.

Lemma attempt_run (s : Handler World) :
  exists t,
    trace (attempt page s) =
      (trace (register page s) ++ t ++ [Show_loading false])%list /\
    (forall keep,
       (forall l a b, keep (Console l a (PErr b)) = false) ->
       (forall m, keep (Alert m) = false) ->
       filter keep t = []) /\
    returned (attempt page s) = inr tt.
Proof.
  unfold attempt, finally, try_catch, bind, emit, console, returned, trace.
  destruct (register page s) as [[[e | []] s1] t1]; simpl.
  - exists [Console Scanner.Error "Tree registration error:" (PErr e);
            Alert ("Failed to register tree: " ++ e)].
    rewrite <- app_assoc. simpl. repeat split.
    intros keep H1 H2. simpl. rewrite H1, H2. reflexivity.
  - exists []. simpl. repeat split.
Qed.

Lemma submitTree_run (s : Handler World) :
  submitTree page s =
  match Scanner.currentUser (scanner_env page) (world s) with
  | None =>
      (inr tt, set_world (world s) s,
       [Alert "Please log in to register a tree"; Redirect "login.html"])
  | Some _ =>
      bind (refresh page) (fun _ => attempt page) (set_world (world s) s)
  end.
Proof.
  unfold submitTree.
  unfold bind at 1.
  unfold of_scanner at 1, Scanner.isLoggedIn, Scanner.bind, Scanner.read,
    Scanner.ret.
  cbn [Scanner.world map app].
  destruct (Scanner.currentUser (scanner_env page) (world s)); cbn [negb].
  - destruct (bind (refresh page) (fun _ => attempt page)
                (set_world (world s) s)) as [[r s1] t1].
    reflexivity.
  - reflexivity.
Qed.

(** X25. [submitTree] leaves the form unlocked: either it never shows
    the loading state (and then it has not asked the store to create a
    tree), or it shows it once and hides it once, hiding it is the last
    thing it does, and it returns normally, whatever the page, the
    browser and the store do. *)
Theorem submitTree_unlocks_form (s : Handler World) :
  let run := submitTree page s in
  (filter is_loading (trace run) = [] /\ filter is_create (trace run) = []) \/
  (filter is_loading (trace run) = [Show_loading true; Show_loading false] /\
   (exists t, trace run = (t ++ [Show_loading false])%list) /\
   returned run = inr tt).
Proof.
  cbv zeta. rewrite submitTree_run.
  destruct (Scanner.currentUser (scanner_env page) (world s)).
  - pose proof (refresh_quiet is_loading (fun _ => eq_refl) eq_refl
                  (set_world (world s) s)) as Hl.
    pose proof (refresh_quiet is_create (fun _ => eq_refl) eq_refl
                  (set_world (world s) s)) as Hc.
    unfold bind.
    destruct (refresh page (set_world (world s) s)) as [[[e | []] s1] t1];
      unfold trace in Hl, Hc; cbn [snd] in Hl, Hc.
    + left. unfold trace. cbn [snd]. auto.
    + right.
      destruct (attempt_run s1) as [t [Ht [Hq Hr]]].
      pose proof (register_loading s1) as Hreg.
      destruct (attempt page s1) as [[r s2] t2].
      unfold trace, returned in *. cbn [fst snd app] in *. subst t2 r.
      repeat split.
      * rewrite !filter_app, Hl, Hreg.
        rewrite (Hq is_loading) by reflexivity. reflexivity.
      * exists (t1 ++ snd (register page s1) ++ t)%list.
        rewrite <- !app_assoc. reflexivity.
  - left. unfold trace. cbn. auto.
Qed.

(** ** Who may submit *)

(** X26. When nobody is signed in, [submitTree] only alerts and sends
    the browser to [login.html]: it does not ask for the position, does
    not touch the store, and returns normally. *)
Theorem submitTree_requires_login (s : Handler World) :
  Scanner.currentUser (scanner_env page) (world s) = None ->
  let run := submitTree page s in
  returned run = inr tt /\
  trace run = [Alert "Please log in to register a tree";
               Redirect "login.html"] /\
  world (final run) = world s /\
  location (final run) = location s.
Proof.
  intros H. cbv zeta. rewrite submitTree_run, H.
  unfold returned, trace, final. cbn. auto.
Qed.

(** ** How far a registration gets *)














(** ** What is sent to the store *)

Lemma filter_bind_value (keep : event -> bool) {A B : Type}
      (m : M A) (f : A -> M B) (s s1 : Handler World) (a : A) :
  m s = (inr a, s1, []) ->
  filter keep (trace (bind m f s)) = filter keep (trace (f a s1)).
Proof.
  intros H. unfold bind. rewrite H.
  destruct (f a s1) as [[r s2] t2]. reflexivity.
Qed.

Lemma submitTree_sends
  (s : Handler World) (props : list (string * jsval)) :
  (forall w, Scanner.currentUser (scanner_env page) w <> None) ->
  (forall w, exists notes, new_FormData page w = inr notes) ->
  location s = VObj props ->
  exists treeData,
    filter is_create (trace (submitTree page s)) = [Call_create treeData] /\
    opt_prop treeData "location" =
      VObj [("type", VStr "Point");
            ("coordinates",
             VArr [obj_get props "longitude"; obj_get props "latitude"])] /\
    opt_prop treeData "latitude" = js_or (obj_get props "latitude") VNull /\
    opt_prop treeData "longitude" = js_or (obj_get props "longitude") VNull.
Proof.
  intros Huser Hform Hloc.
  rewrite submitTree_run.
  destruct (Scanner.currentUser (scanner_env page) (world s)) eqn:Hu;
    [| destruct (Huser _ Hu)].
  assert (Hrefresh : refresh page (set_world (world s) s) =
                     (inr tt, set_world (world s) s, [])).
  { unfold refresh, bind, read. cbn [location set_world]. rewrite Hloc.
    reflexivity. }
  erewrite filter_bind_value by exact Hrefresh. clear Hrefresh.
  set (s0 := set_world (world s) s).
  assert (Hloc0 : location s0 = VObj props) by exact Hloc.
  clearbody s0.
  destruct (attempt_run s0) as [t [-> [Hq _]]].
  rewrite !filter_app, (Hq is_create) by reflexivity.
  cbn [filter is_create app]. rewrite app_nil_r.
  unfold register. rewrite trace_emit_bind. cbn [filter is_create].
  destruct (Hform (world s0)) as [notes Hnotes].
  erewrite filter_bind_value
    by (unfold on_world, call; rewrite Hnotes; reflexivity).
  destruct (Math_random36 page (world (set_world (world s0) s0)))
    as [random36 w1] eqn:Hrandom.
  erewrite filter_bind_value
    by (unfold generateId, on_world, call, bind, read, ret;
        cbn [world set_world]; cbn [world set_world] in Hrandom;
        rewrite Hrandom; reflexivity).
  erewrite filter_bind_value by reflexivity.
  cbn [location set_world]. rewrite Hloc0.
  erewrite filter_bind_value by reflexivity.
  destruct (Scanner.currentUser (scanner_env page) w1) as [u1 |] eqn:Hu1;
    [| destruct (Huser _ Hu1)].
  erewrite filter_bind_value
    by (unfold getUser_id, of_scanner, Scanner.getUser_id, Scanner.bind,
          Scanner.read, Scanner.ret;
        cbn [world set_world Scanner.world]; rewrite Hu1; reflexivity).
  erewrite filter_bind_value by reflexivity.
  unfold console. rewrite trace_emit_bind. cbn [filter is_create].
  rewrite trace_emit_bind. cbn [filter is_create].
  eexists. split.
  - f_equal.
    match goal with
    | |- filter _ (trace (?m ?s1)) = [] =>
        assert (H : quiet is_create m); [| apply H]
    end.
    quiet_all.
  - cbn. auto.
Qed.


(** X28. With a user signed in, a readable form and a location whose
    latitude is the number zero, [submitTree] asks the store once to
    create a tree, and the row it sends has [latitude] null although its
    [location] point carries the latitude. *)
Theorem submitTree_drops_zero_latitude
  (s : Handler World) (props : list (string * jsval)) (m e : Z) :
  (forall w, Scanner.currentUser (scanner_env page) w <> None) ->
  (forall w, exists notes, new_FormData page w = inr notes) ->
  location s = VObj props ->
  obj_get props "latitude" = VNum m e ->
  num_is_zero m e = true ->
  exists treeData,
    filter is_create (trace (submitTree page s)) = [Call_create treeData] /\
    opt_prop treeData "latitude" = VNull /\
    opt_prop treeData "location" =
      VObj [("type", VStr "Point");
            ("coordinates", VArr [obj_get props "longitude"; VNum m e])].
Proof.
  intros Huser Hform Hloc Hlat Hzero.
  destruct (submitTree_sends s props Huser Hform Hloc)
    as [treeData [Hc [Hpoint [Hlatitude _]]]].
  exists treeData. rewrite Hc, Hpoint, Hlatitude, Hlat.
  unfold js_or. cbn [truthy]. rewrite Hzero. auto.
Qed.

(** ** The steps of the form *)

(** X29. [goToStep(step)] makes [step] the current step exactly when
    the page has that step and either the move is not forward or the
    step being left validates; the steps in between are not looked at.
    Otherwise the current step stays.  It never throws and changes
    neither the photo nor the location. *)
Theorem goToStep_moves (step : Z) (s : Handler World) :
  let run := goToStep page step s in
  returned run = inr tt /\
  currentStep (final run) =
    (if ((step <=? currentStep s)%Z || validateStep (currentStep s) s)
        && has_step page step (world s)
     then step else currentStep s) /\
  photo (final run) = photo s /\
  location (final run) = location s.
Proof.
  cbv zeta. unfold goToStep, updateProgress, bind, read, emit, write, when,
    ret, returned, final.
  cbn [fst snd].
  rewrite (Z.leb_antisym (currentStep s) step).
  destruct (currentStep s <? step)%Z; cbn [negb andb orb].
  - destruct (validateStep (currentStep s) s); cbn [negb andb fst snd];
      [| auto].
    destruct (has_step page step (world s)); cbn; auto.
  - destruct (has_step page step (world s)); cbn; auto.
Qed.

(** X30. At the photo step without a photo, choosing a file and asking
    for step 5 gets there exactly when the file is an image (its type
    starts with [image/]) of at most 5242880 bytes, and that file is then
    the photo; after any other file, or none, the form stays at step 4
    without a photo. *)
Theorem photo_step_needs_acceptable_file
  (file : option File) (s : Handler World) :
  currentStep s = 4%Z ->
  photo s = None ->
  has_step page 5 (world s) = true ->
  let run := bind (handlePhotoUpload file) (fun _ => goToStep page 5) s in
  returned run = inr tt /\
  currentStep (final run) =
    match file with
    | Some file => if acceptable file then 5%Z else 4%Z
    | None => 4%Z
    end /\
  photo (final run) =
    match file with
    | Some file => if acceptable file then Some file else None
    | None => None
    end.
Proof.
  destruct s as [w step c sp p l]. cbn [currentStep photo world].
  intros -> -> Hstep. cbv zeta.
  unfold handlePhotoUpload, acceptable.
  destruct file as [file |].
  - destruct (startsWith (file_type file) "image/"); cbn [negb andb].
    + rewrite (Z.leb_antisym 5242880 (file_size file)).
      change (5 * 1024 * 1024)%Z with 5242880%Z.
      destruct (5242880 <? file_size file)%Z; cbn [negb].
      * unfold goToStep, updateProgress, validateStep, bind, read, emit,
          write, when, ret, returned, final. cbn. auto.
      * unfold goToStep, updateProgress, validateStep, bind, read, emit,
          write, when, ret, returned, final. cbn.
        cbn in Hstep. rewrite Hstep. cbn. auto.
    + unfold goToStep, updateProgress, validateStep, bind, read, emit,
        write, when, ret, returned, final. cbn. auto.
  - unfold goToStep, updateProgress, validateStep, bind, read, emit,
      write, when, ret, returned, final. cbn. auto.
Qed.

End Methods.

Lemma submitTree_requires_login_witness :
  let run := submitTree (demo_page (Demo.env [])) (blank Demo.anonymous) in
  returned run = inr tt /\
  trace run = [Alert "Please log in to register a tree";
               Redirect "login.html"] /\
  world (final run) = Demo.anonymous /\
  location (final run) = VNull.
Proof.
  apply (submitTree_requires_login (demo_page (Demo.env []))
           (blank Demo.anonymous)).
  reflexivity.
Defined.

Lemma submitTree_drops_zero_latitude_witness :
  exists treeData,
    filter is_create
      (trace (submitTree (demo_page signed_in)
                (at_photo_step Demo.refusing))) = [Call_create treeData] /\
    opt_prop treeData "latitude" = VNull /\
    opt_prop treeData "location" =
      VObj [("type", VStr "Point");
            ("coordinates", VArr [VNum 367 (-1); VNum 0 0])].
Proof.
  apply (submitTree_drops_zero_latitude (demo_page signed_in)
           (at_photo_step Demo.refusing)
           [("latitude", VNum 0 0); ("longitude", VNum 367 (-1));
            ("accuracy", VNum 12 0)] 0 0).
  - intros w. discriminate.
  - intros w. eexists. reflexivity.
  - reflexivity.
  - reflexivity.
  - reflexivity.
Defined.

Lemma photo_step_needs_acceptable_file_witness :
  currentStep
    (final (bind (handlePhotoUpload (Some snapshot))
                 (fun _ => goToStep (demo_page signed_in) 5)
                 (at_photo_step Demo.refusing))) = 5%Z /\
  currentStep
    (final (bind (handlePhotoUpload (Some leaflet))
                 (fun _ => goToStep (demo_page signed_in) 5)
                 (at_photo_step Demo.refusing))) = 4%Z.
Proof.
  split.
  - apply (photo_step_needs_acceptable_file (demo_page signed_in)
             (Some snapshot) (at_photo_step Demo.refusing));
      reflexivity.
  - apply (photo_step_needs_acceptable_file (demo_page signed_in)
             (Some leaflet) (at_photo_step Demo.refusing));
      reflexivity.
Defined.

End RegistrationExtras.
